(** * Block state engine of core-state: blocks and transactions applied to and
      reverted from the wallet repository

    Shallow embedding of [packages/core-state/src/block-state.ts].  The class
    [BlockState] mutates wallets held by a wallet repository, calls the
    transaction handlers of core-transactions, and keeps the vote balances of
    the delegates in step with the balances of their voters.

    Conventions of the embedding.
    - [Utils.BigNumber] is an arbitrary-precision signed integer: [Z].
      [producedBlocks] is a JavaScript number used as a counter: its value is
      in [Z] as well, and [++] and [--] round it as a double does
      ([number_add], [number_sub]).
    - A wallet object is shared by reference between the indexes of the
      repository and the local variables of the engine.  A reference is the
      wallet's address (read-only on the object), and every read through a
      reference goes to the repository as it is at that moment, so a local
      variable bound before a handler ran observes what the handler wrote.
    - Exceptions are values: a computation returns or throws, and the state it
      leaves behind is kept in both cases, as a JavaScript throw keeps every
      mutation made before it. *)

From stdpp Require Import base option list gmap strings.
From Stdlib Require Import ZArith Lia Ascii.

Local Open Scope Z_scope.

(** ** Outcomes and the state-and-exception monad *)

(** What a call can throw.  [AccountNotFound]: a repository lookup of an absent
    wallet.  [AssertionError]: [AppUtils.assert.defined] on [undefined].
    [TypeError]: a property read or a method call on [undefined].
    [StaleReference]: a read through a reference whose wallet a handler removed
    from the repository (handlers mutate wallets in place; the engine itself
    never removes one).  [HandlerError]: whatever a transaction handler or the
    handler registry throws. *)
Inductive error : Type :=
| AccountNotFound
| AssertionError
| TypeError
| StaleReference
| HandlerError (reason : string).

Inductive Outcome (A : Type) : Type :=
| Returned (a : A)
| Thrown (e : error).

Arguments Returned {A} a.
Arguments Thrown {A} e.

(** ** JavaScript numbers

    A JavaScript number is an IEEE 754 double.  The numbers of this code hold
    integers (a counter, a height), and [Z] holds their values.  Every integer
    up to 2^53 in absolute value is a double; beyond, a double keeps 53
    significant bits.  [toNumber z] is the double nearest to the integer [z],
    a tie going to the even significand: it is what [+] and [-] give on two
    numbers whose exact sum or difference is [z].  So [2^53 + 1] is [2^53],
    and a counter that has reached 2^53 stays there under [++].  A double plus
    or minus one never exceeds the largest double, so Infinity is not
    reached. *)
Definition toNumber (z : Z) : Z :=
  let a := Z.abs z in
  if a <=? 2 ^ 53 then z
  else
    let ulp := 2 ^ (Z.log2 a - 52) in
    let q := a / ulp in
    let rest := a mod ulp in
    let q' :=
      if 2 * rest <? ulp then q
      else if ulp <? 2 * rest then q + 1
      else if Z.even q then q else q + 1 in
    Z.sgn z * (q' * ulp).

(** [x + y] and [x - y] on numbers. *)
Definition number_add (x y : Z) : Z := toNumber (x + y).

Definition number_sub (x y : Z) : Z := toNumber (x - y).

#[global] Arguments toNumber : simpl never.
#[global] Arguments number_add : simpl never.
#[global] Arguments number_sub : simpl never.

(** ** Data model *)

(** [Enums.TransactionType] and [Enums.TransactionTypeGroup] of the crypto
    package, by the names the engine uses; the engine only compares them with
    [===]. *)
Inductive TransactionType : Type :=
| Transfer | SecondSignature | DelegateRegistration | Vote | MultiSignature
| Ipfs | MultiPayment | DelegateResignation | HtlcLock | HtlcClaim | HtlcRefund
| OtherType (n : nat).

Inductive TransactionTypeGroup : Type :=
| Test | Core | OtherGroup (n : nat).

#[global] Instance TransactionType_eq_dec : EqDecision TransactionType.
Proof. solve_decision. Defined.

#[global] Instance TransactionTypeGroup_eq_dec : EqDecision TransactionTypeGroup.
Proof. solve_decision. Defined.

(** [Interfaces.IMultiPaymentItem]. *)
Record MultiPaymentItem : Type := mkPayment {
  pay_amount : Z;
  pay_recipientId : string
}.

(** [Interfaces.IHtlcClaimAsset]; the unlock secret is not read by the engine. *)
Record HtlcClaimAsset : Type := mkClaim {
  lockTransactionId : string
}.

(** [Interfaces.ITransactionAsset], the kind-specific payload. *)
Record TransactionAsset : Type := mkAsset {
  votes : option (list string);
  claim : option HtlcClaimAsset;
  payments : option (list MultiPaymentItem)
}.

(** [Interfaces.ITransactionData] of the crypto package, with the fields that
    the engine reads. *)
Record TransactionData : Type := mkTxData {
  tx_id : string;
  tx_type : TransactionType;
  tx_typeGroup : TransactionTypeGroup;
  senderPublicKey : option string;
  recipientId : option string;
  tx_amount : Z;
  tx_fee : Z;
  asset : option TransactionAsset
}.

(** [Interfaces.ITransaction]: the engine reads [transaction.data], and
    [transaction.type] and [transaction.typeGroup], which are those of the
    data. *)
Record Transaction : Type := mkTx {
  tx_data : TransactionData
}.

(** [Interfaces.IBlockData], the header fields the engine reads. *)
Record BlockData : Type := mkBlockData {
  b_id : string;
  b_height : Z;
  b_generatorPublicKey : string;
  b_reward : Z;
  b_totalFee : Z
}.

(** [Interfaces.IBlock]. *)
Record Block : Type := mkBlock {
  b_data : BlockData;
  b_transactions : list Transaction
}.

(** Modelled from the spec: the record kept per lock in the attribute
    [htlc.locks], of which the engine reads [amount]. *)
Record HtlcLockRecord : Type := mkLock {
  lock_amount : Z
}.

(** Modelled from the spec: [Contracts.State.WalletDelegateAttributes], the
    attribute group [delegate.*].  The group is a JavaScript object, so each
    field can be missing: [setAttribute] of [delegate.voteBalance] on a wallet
    without the group creates the group with that field alone.  On
    [producedBlocks], [None] stands for a missing or not-a-number value. *)
Record WalletDelegateAttributes : Type := mkDelegate {
  voteBalance : option Z;
  producedBlocks : option Z;
  forgedFees : option Z;
  forgedRewards : option Z;
  lastBlock : option BlockData
}.

(** Modelled from the spec: [Contracts.State.Wallet], an account.  Its address
    is the key under which the repository holds it. *)
Record Wallet : Type := mkWallet {
  publicKey : option string;
  balance : Z;
  vote : option string;
  delegate : option WalletDelegateAttributes;
  locks : gmap string HtlcLockRecord
}.

(** Modelled from the spec: [Contracts.State.WalletRepository], the account
    ledger.  [byAddress] is the primary index and holds the wallet objects;
    [byPublicKey] and [byLocks] are the secondary indexes (public key, and
    lock-transaction id, to the owning wallet). *)
Record WalletRepository : Type := mkRepo {
  byAddress : gmap string Wallet;
  byPublicKey : gmap string string;
  byLocks : gmap string string
}.

(** What the engine acts on: the repository, and the faults reported to the
    application through [app.terminate].  [app.log] does not affect behaviour
    and is left out. *)
Record World : Type := mkWorld {
  walletRepository : WalletRepository;
  faults : list string
}.

Definition M (A : Type) : Type := World -> Outcome A * World.

Definition ret {A : Type} (a : A) : M A := fun w => (Returned a, w).

Definition throw {A : Type} (e : error) : M A := fun w => (Thrown e, w).

Definition bind {A B : Type} (m : M A) (k : A -> M B) : M B :=
  fun w =>
    match m w with
    | (Returned a, w') => k a w'
    | (Thrown e, w') => (Thrown e, w')
    end.

Notation "'let*' x ':=' m 'in' k" := (bind m (fun x => k))
  (at level 10, x name, m at level 100, k at level 200, only parsing).
Notation "'do' m 'then' k" := (bind m (fun _ => k))
  (at level 10, m at level 100, k at level 200, only parsing).

(** [AppUtils.assert.defined]. *)
Definition assert_defined {A : Type} (o : option A) : M A :=
  match o with
  | Some a => ret a
  | None => throw AssertionError
  end.

(** A property read or method call on a value that may be [undefined]. *)
Definition member {A : Type} (o : option A) : M A :=
  match o with
  | Some a => ret a
  | None => throw TypeError
  end.

Definition when (b : bool) (m : M unit) : M unit :=
  if b then m else ret tt.

(** [for (const x of xs) { f(x) }]. *)
Fixpoint forEach {A : Type} (f : A -> M unit) (xs : list A) : M unit :=
  match xs with
  | [] => ret tt
  | x :: rest => do f x then forEach f rest
  end.

(** A loop that pushes each element onto a local array once [f] has returned
    for it; the array is still in scope when the loop throws. *)
Fixpoint forEachPush {A : Type} (f : A -> M unit) (xs pushed : list A)
  (w : World) : Outcome unit * list A * World :=
  match xs with
  | [] => (Returned tt, pushed, w)
  | x :: rest =>
      match f x w with
      | (Returned _, w') => forEachPush f rest (pushed ++ [x]) w'
      | (Thrown e, w') => (Thrown e, pushed, w')
      end
  end.

(** ** The wallet repository *)

Definition getRepo : M WalletRepository :=
  fun w => (Returned (walletRepository w), w).

Definition setWallets (ws : gmap string Wallet) (r : WalletRepository) : WalletRepository :=
  mkRepo ws (byPublicKey r) (byLocks r).

Definition setRepo (r : WalletRepository) (w : World) : World :=
  mkWorld r (faults w).

(** [app.terminate(message)]: the fault reporter.  The call is not awaited and
    control returns to the engine. *)
Definition terminate (message : string) : M unit :=
  fun w => (Returned tt, mkWorld (walletRepository w) (faults w ++ [message])).

(** Modelled from the spec: [has(key)], true for a known address or a known
    public key. *)
Definition has_key (key : string) (r : WalletRepository) : bool :=
  bool_decide (is_Some (byAddress r !! key)) || bool_decide (is_Some (byPublicKey r !! key)).

Definition has (key : string) : M bool :=
  let* r := getRepo in ret (has_key key r).

(** Modelled from the spec: [hasByAddress(address)]. *)
Definition hasByAddress (addr : string) : M bool :=
  let* r := getRepo in ret (bool_decide (is_Some (byAddress r !! addr))).

(** The wallet an index entry leads to, as a reference. *)
Definition resolve (r : WalletRepository) (entry : option string) : option string :=
  match entry with
  | Some a => if bool_decide (is_Some (byAddress r !! a)) then Some a else None
  | None => None
  end.

Definition found (o : option string) : M string :=
  match o with
  | Some a => ret a
  | None => throw AccountNotFound
  end.

(** Modelled from the spec: [findByAddress], [findByPublicKey] and
    [findByIndex(WalletIndexes.Locks, id)] fail with [AccountNotFound] when the
    wallet is absent. *)
Definition findByAddress (addr : string) : M string :=
  let* r := getRepo in found (resolve r (Some addr)).

Definition findByPublicKey (pk : string) : M string :=
  let* r := getRepo in found (resolve r (byPublicKey r !! pk)).

Definition findByLockId (lockId : string) : M string :=
  let* r := getRepo in found (resolve r (byLocks r !! lockId)).

(** Modelled from the spec: [createWallet(address)] builds a zero-balance wallet
    without attributes; it is not yet in any index.  The address is the key
    under which [reindex] will enter it. *)
Definition createWallet (address : string) : Wallet :=
  mkWallet None 0 None None ∅.

(** Modelled from the spec: [reindex(wallet)] enters the wallet in every index:
    by address, by public key when it has one, and by the id of each of its
    locks. *)
Definition reindex_repo (addr : string) (wal : Wallet) (r : WalletRepository) : WalletRepository :=
  mkRepo (<[addr := wal]> (byAddress r))
         (match publicKey wal with
          | Some pk => <[pk := addr]> (byPublicKey r)
          | None => byPublicKey r
          end)
         (((fun _ => addr) <$> locks wal) ∪ byLocks r).

Definition reindex (addr : string) (wal : Wallet) : M unit :=
  fun w => (Returned tt, setRepo (reindex_repo addr wal (walletRepository w)) w).

(** A read through a wallet reference: the wallet object as it is now. *)
Definition getWallet (ref : string) : M Wallet :=
  let* r := getRepo in
  match byAddress r !! ref with
  | Some wal => ret wal
  | None => throw StaleReference
  end.

(** A write through a wallet reference. *)
Definition alter_wallet (f : Wallet -> Wallet) (ref : string) (r : WalletRepository) : WalletRepository :=
  setWallets (alter f ref (byAddress r)) r.

Definition modifyWallet (ref : string) (f : Wallet -> Wallet) : M unit :=
  fun w => (Returned tt, setRepo (alter_wallet f ref (walletRepository w)) w).

(** ** Wallet attributes *)

Definition set_balance (v : Z) (wal : Wallet) : Wallet :=
  mkWallet (publicKey wal) v (vote wal) (delegate wal) (locks wal).

Definition set_publicKey (pk : string) (wal : Wallet) : Wallet :=
  mkWallet (Some pk) (balance wal) (vote wal) (delegate wal) (locks wal).

Definition set_delegate (d : WalletDelegateAttributes) (wal : Wallet) : Wallet :=
  mkWallet (publicKey wal) (balance wal) (vote wal) (Some d) (locks wal).

(** Modelled from the spec: the attribute accessors of a wallet.
    [wallet.hasVoted()] and [wallet.hasAttribute("vote")] ask whether the
    attribute [vote] is set, and [wallet.getAttribute("vote")] reads it: in the
    engine they are a [match] on [vote].  [getAttribute] of a missing attribute
    is [undefined], or the default when the caller gives one; [setAttribute]
    writes the attribute and creates the group it belongs to. *)

(** [wallet.getAttribute("delegate.voteBalance")], [undefined] when unset. *)
Definition getVoteBalance (wal : Wallet) : option Z :=
  delegate wal ≫= voteBalance.

(** [wallet.getAttribute("delegate.voteBalance", Utils.BigNumber.ZERO)]. *)
Definition getVoteBalanceOrZero (wal : Wallet) : Z :=
  default 0 (getVoteBalance wal).

Definition emptyDelegate : WalletDelegateAttributes :=
  mkDelegate None None None None None.

Definition set_voteBalance (v : Z) (d : WalletDelegateAttributes) : WalletDelegateAttributes :=
  mkDelegate (Some v) (producedBlocks d) (forgedFees d) (forgedRewards d) (lastBlock d).

Definition set_producedBlocks (v : option Z) (d : WalletDelegateAttributes) : WalletDelegateAttributes :=
  mkDelegate (voteBalance d) v (forgedFees d) (forgedRewards d) (lastBlock d).

Definition set_forgedFees (v : Z) (d : WalletDelegateAttributes) : WalletDelegateAttributes :=
  mkDelegate (voteBalance d) (producedBlocks d) (Some v) (forgedRewards d) (lastBlock d).

Definition set_forgedRewards (v : Z) (d : WalletDelegateAttributes) : WalletDelegateAttributes :=
  mkDelegate (voteBalance d) (producedBlocks d) (forgedFees d) (Some v) (lastBlock d).

Definition set_lastBlock (v : option BlockData) (d : WalletDelegateAttributes) : WalletDelegateAttributes :=
  mkDelegate (voteBalance d) (producedBlocks d) (forgedFees d) (forgedRewards d) v.

(** [wallet.setAttribute("delegate.voteBalance", v)]: the other fields of the
    group stay as they are, or stay missing when the group is created. *)
Definition withVoteBalance (v : Z) (wal : Wallet) : Wallet :=
  set_delegate (set_voteBalance v (default emptyDelegate (delegate wal))) wal.

Definition setVoteBalance (ref : string) (v : Z) : M unit :=
  modifyWallet ref (withVoteBalance v).

(** A write to a field of the object that [wallet.getAttribute("delegate")]
    returned. *)
Definition modifyDelegate (ref : string) (f : WalletDelegateAttributes -> WalletDelegateAttributes) : M unit :=
  modifyWallet ref (fun wal =>
    match delegate wal with
    | Some d => set_delegate (f d) wal
    | None => wal
    end).

(** [vote.substr(1)] and [vote.startsWith("+")]. *)
Definition substr_1 (s : string) : string :=
  match s with
  | EmptyString => EmptyString
  | String _ rest => rest
  end.

Definition startsWithPlus (s : string) : bool :=
  match s with
  | String c _ => bool_decide (c = "+"%char)
  | EmptyString => false
  end.

(** [type === ty && typeGroup === Enums.TransactionTypeGroup.Core]. *)
Definition isCore (ty : TransactionType) (t : TransactionData) : bool :=
  bool_decide (tx_type t = ty) && bool_decide (tx_typeGroup t = Core).

(** Truthiness of [transaction.data.recipientId]: defined and not empty. *)
Definition truthy (o : option string) : option string :=
  match o with
  | Some EmptyString => None
  | other => other
  end.

(** [Handlers.TransactionHandler] of core-transactions: the effect of one kind
    of transaction on the repository, and its inverse.  A handler is given the
    wallet repository and nothing else of the engine. *)
Record TransactionHandler : Type := mkHandler {
  handler_apply : Transaction -> WalletRepository -> Outcome unit * WalletRepository;
  handler_revert : Transaction -> WalletRepository -> Outcome unit * WalletRepository
}.

(** A handler call, inside the engine. *)
Definition callHandler (h : WalletRepository -> Outcome unit * WalletRepository) : M unit :=
  fun w => let '(o, r) := h (walletRepository w) in (o, setRepo r w).

(** ** The engine *)

Section BlockState.

(** [Identities.Address.fromPublicKey] of the crypto package. *)
Variable fromPublicKey : string -> string.

(** [Handlers.Registry.get(transaction.data)]: the handler of a transaction's
    kind, or a throw for a kind that is not registered. *)
Variable registry : TransactionData -> Outcome TransactionHandler.

Definition getHandler (t : Transaction) : M TransactionHandler :=
  fun w => (registry (tx_data t), w).

Definition sumPayments (ps : list MultiPaymentItem) : Z :=
  fold_left (fun prev curr => prev + pay_amount curr) ps 0.

(** The vote branch of [updateVoteBalances], lines 271-287: only
    [votes[0]] is read. *)
Definition voteStep (sender : string) (transaction : TransactionData) (revert : bool) : M unit :=
  let* vs := assert_defined (asset transaction ≫= votes) in
  let* vote0 := member (head vs) in
  let* delegateRef := findByPublicKey (substr_1 vote0) in
  let* delegateWallet := getWallet delegateRef in
  let voteBalance0 := getVoteBalanceOrZero delegateWallet in
  let* senderWallet := getWallet sender in
  let voteBalance1 :=
    if startsWithPlus vote0 then
      if revert
      then voteBalance0 - (balance senderWallet - tx_fee transaction)
      else voteBalance0 + balance senderWallet
    else
      if revert
      then voteBalance0 + balance senderWallet
      else voteBalance0 - (balance senderWallet + tx_fee transaction) in
  setVoteBalance delegateRef voteBalance1.

(** Lines 289-335: update vote balance of the sender's delegate. *)
Definition senderStep (sender : string) (transaction : TransactionData)
  (lockTransaction : option HtlcLockRecord) (revert : bool) : M unit :=
  let* senderWallet := getWallet sender in
  match vote senderWallet with
  | Some senderVote =>
      let* delegateRef := findByPublicKey senderVote in
      let* amount :=
        (if isCore MultiPayment transaction then
           let* ps := assert_defined (asset transaction ≫= payments) in
           ret (sumPayments ps)
         else ret (tx_amount transaction)) in
      let total := amount + tx_fee transaction in
      let* delegateWallet := getWallet delegateRef in
      let voteBalance0 := getVoteBalanceOrZero delegateWallet in
      let* newVoteBalance :=
        (if isCore HtlcLock transaction then
           (* HTLC Lock keeps the locked amount as the sender's delegate vote balance *)
           ret (if revert
                then voteBalance0 + tx_fee transaction
                else voteBalance0 - tx_fee transaction)
         else if isCore HtlcClaim transaction then
           let* lock := member lockTransaction in
           ret (if revert
                then voteBalance0 + tx_fee transaction - lock_amount lock
                else voteBalance0 - tx_fee transaction + lock_amount lock)
         else
           (* General case *)
           ret (if revert then voteBalance0 + total else voteBalance0 - total)) in
      setVoteBalance delegateRef newVoteBalance
  | None => ret tt
  end.

(** Lines 337-356: a claim moves the locked amount out of the vote balance of
    the lock owner's delegate. *)
Definition lockOwnerStep (transaction : TransactionData) (lockWallet : option string)
  (lockTransaction : option HtlcLockRecord) (revert : bool) : M unit :=
  if isCore HtlcClaim transaction then
    let* lockRef := member lockWallet in
    let* lockOwner := getWallet lockRef in
    match vote lockOwner with
    | Some ownerVote =>
        let* lockWalletDelegate := findByPublicKey ownerVote in
        let* delegateWallet := getWallet lockWalletDelegate in
        let voteBalance0 := getVoteBalanceOrZero delegateWallet in
        let* lock := member lockTransaction in
        setVoteBalance lockWalletDelegate
          (if revert
           then voteBalance0 + lock_amount lock
           else voteBalance0 - lock_amount lock)
    | None => ret tt
    end
  else ret tt.

(** The body of the loop of lines 365-379, for one payment. *)
Definition paymentStep (revert : bool) (p : MultiPaymentItem) : M unit :=
  let* recipientRef := findByAddress (pay_recipientId p) in
  let* recipientWallet := getWallet recipientRef in
  match vote recipientWallet with
  | Some recipientVote =>
      let* delegateRef := findByPublicKey recipientVote in
      let* delegateWallet := getWallet delegateRef in
      let voteBalance0 := getVoteBalanceOrZero delegateWallet in
      setVoteBalance delegateRef
        (if revert
         then voteBalance0 - pay_amount p
         else voteBalance0 + pay_amount p)
  | None => ret tt
  end.

(** Lines 358-380: go through all payments and update recipients delegates
    vote balance. *)
Definition paymentsStep (transaction : TransactionData) (revert : bool) : M unit :=
  if isCore MultiPayment transaction then
    let* ps := assert_defined (asset transaction ≫= payments) in
    forEach (paymentStep revert) ps
  else ret tt.

(** Lines 382-401: update vote balance of recipient's delegate. *)
Definition recipientStep (recipient : option string) (transaction : TransactionData)
  (revert : bool) : M unit :=
  match recipient with
  | Some recipientRef =>
      let* recipientWallet := getWallet recipientRef in
      match vote recipientWallet with
      | Some recipientVote =>
          if negb (isCore HtlcLock transaction) then
            let* delegateRef := findByPublicKey recipientVote in
            let* delegateWallet := getWallet delegateRef in
            let voteBalance0 := getVoteBalanceOrZero delegateWallet in
            setVoteBalance delegateRef
              (if revert
               then voteBalance0 - tx_amount transaction
               else voteBalance0 + tx_amount transaction)
          else ret tt
      | None => ret tt
      end
  | None => ret tt
  end.

(** [updateVoteBalances], lines 259-403.  [sender], [recipient] and
    [lockWallet] are wallet references, [lockTransaction] is the lock record
    read by the caller. *)
Definition updateVoteBalances (sender : string) (recipient : option string)
  (transaction : TransactionData) (lockWallet : option string)
  (lockTransaction : option HtlcLockRecord) (revert : bool) : M unit :=
  if isCore Vote transaction then
    voteStep sender transaction revert
  else
    do senderStep sender transaction lockTransaction revert then
    do lockOwnerStep transaction lockWallet lockTransaction revert then
    do paymentsStep transaction revert then
    recipientStep recipient transaction revert.

(** [applyVoteBalances] and [revertVoteBalances], lines 187-205. *)
Definition applyVoteBalances (sender : string) (recipient : option string)
  (transaction : TransactionData) (lockWallet : option string)
  (lockTransaction : option HtlcLockRecord) : M unit :=
  updateVoteBalances sender recipient transaction lockWallet lockTransaction false.

Definition revertVoteBalances (sender : string) (recipient : option string)
  (transaction : TransactionData) (lockWallet : option string)
  (lockTransaction : option HtlcLockRecord) : M unit :=
  updateVoteBalances sender recipient transaction lockWallet lockTransaction true.

(** The lock context of a claim, lines 115-126 and 169-180: the wallet that
    owns the lock, found through the lock index, and the lock record read from
    its [htlc.locks]. *)
Definition lockContext (transaction : Transaction) : M (option string * option HtlcLockRecord) :=
  if isCore HtlcClaim (tx_data transaction) then
    let* c := assert_defined (asset (tx_data transaction) ≫= claim) in
    let lockId := lockTransactionId c in
    let* lockWallet := findByLockId lockId in
    let* lockOwner := getWallet lockWallet in
    ret (Some lockWallet, locks lockOwner !! lockId)
  else ret (None, None).

(** The recipient of a transaction, lines 134-141 and 158-165: looked up only
    when [recipientId] is set and the repository knows the address. *)
Definition lookupRecipient (transaction : Transaction) : M (option string) :=
  match truthy (recipientId (tx_data transaction)) with
  | Some rid =>
      let* known := hasByAddress rid in
      if known then
        let* recipient := findByAddress rid in ret (Some recipient)
      else ret None
  | None => ret None
  end.

(** [applyTransaction], lines 110-145. *)
Definition applyTransaction (transaction : Transaction) : M unit :=
  let* transactionHandler := getHandler transaction in
  let* lockCtx := lockContext transaction in
  do callHandler (handler_apply transactionHandler transaction) then
  let* senderKey := assert_defined (senderPublicKey (tx_data transaction)) in
  let* sender := findByPublicKey senderKey in
  let* recipient := lookupRecipient transaction in
  applyVoteBalances sender recipient (tx_data transaction) (fst lockCtx) (snd lockCtx).

(** [revertTransaction], lines 147-184. *)
Definition revertTransaction (transaction : Transaction) : M unit :=
  let data := tx_data transaction in
  let* transactionHandler := getHandler transaction in
  let* senderKey := assert_defined (senderPublicKey data) in
  let* sender := findByPublicKey senderKey in
  let* recipient := lookupRecipient transaction in
  do callHandler (handler_revert transactionHandler transaction) then
  let* lockCtx := lockContext transaction in
  revertVoteBalances sender recipient data (fst lockCtx) (snd lockCtx).

(** The test of lines 208-211 and 227-230: the wallet is the block's generator,
    by public key or by the address derived from it. *)
Definition isGenerator (ref : string) (wal : Wallet) (block : BlockData) : bool :=
  bool_decide (Some (b_generatorPublicKey block) = publicKey wal)
  || bool_decide (fromPublicKey (b_generatorPublicKey block) = ref).

(** [applyBlockToDelegate], lines 207-224. *)
Definition applyBlockToDelegate (wallet : string) (block : BlockData) : M bool :=
  let* wal := getWallet wallet in
  if isGenerator wallet wal block then
    do modifyWallet wallet (set_balance (balance wal + b_reward block + b_totalFee block)) then
    let* d := member (delegate wal) in
    do modifyDelegate wallet (set_producedBlocks ((fun n => number_add n 1) <$> producedBlocks d)) then
    let* fees := member (forgedFees d) in
    do modifyDelegate wallet (set_forgedFees (fees + b_totalFee block)) then
    let* rewards := member (forgedRewards d) in
    do modifyDelegate wallet (set_forgedRewards (rewards + b_reward block)) then
    do modifyDelegate wallet (set_lastBlock (Some block)) then
    ret true
  else ret false.

(** [revertBlockFromDelegate], lines 226-246. *)
Definition revertBlockFromDelegate (wallet : string) (block : BlockData) : M bool :=
  let* wal := getWallet wallet in
  if isGenerator wallet wal block then
    do modifyWallet wallet (set_balance (balance wal - b_reward block - b_totalFee block)) then
    let* d := member (delegate wal) in
    let* fees := member (forgedFees d) in
    do modifyDelegate wallet (set_forgedFees (fees - b_totalFee block)) then
    let* rewards := member (forgedRewards d) in
    do modifyDelegate wallet (set_forgedRewards (rewards - b_reward block)) then
    do modifyDelegate wallet (set_producedBlocks ((fun n => number_sub n 1) <$> producedBlocks d)) then
    (* TODO: get it back from database? *)
    do modifyDelegate wallet (set_lastBlock None) then
    ret true
  else ret false.

(** Lines 48-55 of [applyBlock] and 91-98 of [revertBlock]: the block changed
    the delegate's balance by reward + totalFee, so the vote balance of the
    delegate it voted for follows.  Here [delegate.voteBalance] is read
    without a default. *)
Definition updateVotedDelegate (delegateRef : string) (block : BlockData) (revert : bool) : M unit :=
  let* delegateWallet := getWallet delegateRef in
  match vote delegateWallet with
  | Some delegateVote =>
      let change := b_reward block + b_totalFee block in
      let* votedDelegate := findByPublicKey delegateVote in
      let* votedWallet := getWallet votedDelegate in
      let* voteBalance0 := member (getVoteBalance votedWallet) in
      setVoteBalance votedDelegate
        (if revert then voteBalance0 - change else voteBalance0 + change)
  | None => ret tt
  end.

Definition lookupFailure (block : Block) : string :=
  "Failed to lookup generator '" +:+ b_generatorPublicKey (b_data block)
  +:+ "' of block '" +:+ b_id (b_data block) +:+ "'.".

(** Lines 15-31 of [applyBlock]: the wallet of the block's generator. *)
Definition resolveGenerator (block : Block) : M (option string) :=
  let generatorPublicKey := b_generatorPublicKey (b_data block) in
  let* known := has generatorPublicKey in
  if negb known then
    let generator := fromPublicKey generatorPublicKey in
    if b_height (b_data block) =? 1 then
      do reindex generator (set_publicKey generatorPublicKey (createWallet generator)) then
      ret (Some generator)
    else
      do terminate (lookupFailure block) then
      ret None
  else
    let* delegateRef := findByPublicKey generatorPublicKey in
    ret (Some delegateRef).

(** The [try] block of [applyBlock], lines 37-55, with the local array
    [appliedTransactions] as it stands when the block returns or throws. *)
Definition applyBlockTry (delegateRef : string) (block : Block) (w : World)
  : Outcome unit * list Transaction * World :=
  match forEachPush applyTransaction (b_transactions block) [] w with
  | (Returned _, appliedTransactions, w1) =>
      let '(o, w2) :=
        (let* applied := applyBlockToDelegate delegateRef (b_data block) in
         when applied (updateVotedDelegate delegateRef (b_data block) false)) w1 in
      (o, appliedTransactions, w2)
  | (Thrown e, appliedTransactions, w1) => (Thrown e, appliedTransactions, w1)
  end.

(** [applyBlock], lines 14-66. *)
Definition applyBlock (block : Block) : M unit :=
  let* resolved := resolveGenerator block in
  let* delegateRef := assert_defined resolved in
  fun w =>
    match applyBlockTry delegateRef block w with
    | (Returned _, _, w1) => (Returned tt, w1)
    | (Thrown e, appliedTransactions, w1) =>
        (* Revert the applied transactions from last to first *)
        (do forEach revertTransaction (rev appliedTransactions) then throw e) w1
    end.

(** The [try] block of [revertBlock], lines 78-98, with the local array
    [revertedTransactions]. *)
Definition revertBlockTry (delegateRef : string) (block : Block) (w : World)
  : Outcome unit * list Transaction * World :=
  (* Revert the transactions from last to first *)
  match forEachPush revertTransaction (rev (b_transactions block)) [] w with
  | (Returned _, revertedTransactions, w1) =>
      let '(o, w2) :=
        (let* reverted := revertBlockFromDelegate delegateRef (b_data block) in
         when reverted (updateVotedDelegate delegateRef (b_data block) true)) w1 in
      (o, revertedTransactions, w2)
  | (Thrown e, revertedTransactions, w1) => (Thrown e, revertedTransactions, w1)
  end.

(** [revertBlock], lines 68-108. *)
Definition revertBlock (block : Block) : M unit :=
  let* known := has (b_generatorPublicKey (b_data block)) in
  do when (negb known) (terminate (lookupFailure block)) then
  let* delegateRef := findByPublicKey (b_generatorPublicKey (b_data block)) in
  fun w =>
    match revertBlockTry delegateRef block w with
    | (Returned _, _, w1) => (Returned tt, w1)
    | (Thrown e, revertedTransactions, w1) =>
        (do forEach applyTransaction (rev revertedTransactions) then throw e) w1
    end.

End BlockState.

(** ** Views of the repository used to state the theorems *)

(** The wallet an index entry leads to, with its reference. *)
Definition deref (r : WalletRepository) (entry : option string) : option (string * Wallet) :=
  match entry with
  | Some a =>
      match byAddress r !! a with
      | Some wal => Some (a, wal)
      | None => None
      end
  | None => None
  end.

Definition walletByPublicKey (r : WalletRepository) (pk : string) : option (string * Wallet) :=
  deref r (byPublicKey r !! pk).

Definition walletByAddress (r : WalletRepository) (addr : string) : option (string * Wallet) :=
  deref r (Some addr).

Definition walletByLockId (r : WalletRepository) (lockId : string) : option (string * Wallet) :=
  deref r (byLocks r !! lockId).

(** The repository after [setAttribute("delegate.voteBalance", v)] on the
    wallet behind [ref]. *)
Definition withVotes (ref : string) (v : Z) (r : WalletRepository) : WalletRepository :=
  alter_wallet (withVoteBalance v) ref r.

(** The repository with the wallet behind [ref] replaced. *)
Definition putWallet (ref : string) (wal : Wallet) (r : WalletRepository) : WalletRepository :=
  setWallets (<[ref := wal]> (byAddress r)) r.

(** The vote balance of the wallet behind [ref], zero when unset. *)
Definition votesOf (r : WalletRepository) (ref : string) : Z :=
  match byAddress r !! ref with
  | Some wal => getVoteBalanceOrZero wal
  | None => 0
  end.

(** The delegate that the wallet behind [ref] backs: [None] when the wallet is
    unknown or votes for a public key the repository does not know,
    [Some None] when it has not voted. *)
Definition backedDelegate (r : WalletRepository) (ref : string) : option (option string) :=
  match byAddress r !! ref with
  | Some wal =>
      match vote wal with
      | Some pk =>
          match walletByPublicKey r pk with
          | Some (d, _) => Some (Some d)
          | None => None
          end
      | None => Some None
      end
  | None => None
  end.

(** [V(D) += change] of the spec's table, for the delegate a wallet backs, if
    any. *)
Definition addVotes (d : option string) (change : Z) (r : WalletRepository) : WalletRepository :=
  match d with
  | Some ref => withVotes ref (votesOf r ref + change) r
  | None => r
  end.

(** The same for a wallet that may be absent, as the recipient is. *)
Definition backedBy (r : WalletRepository) (ref : option string) : option (option string) :=
  match ref with
  | Some a => backedDelegate r a
  | None => Some None
  end.

(** The transaction data with [asset.votes] replaced. *)
Definition withVotesList (vs : list string) (t : TransactionData) : TransactionData :=
  mkTxData (tx_id t) (tx_type t) (tx_typeGroup t) (senderPublicKey t) (recipientId t)
    (tx_amount t) (tx_fee t)
    (Some (mkAsset (Some vs) (asset t ≫= claim) (asset t ≫= payments))).

(** The change that the sender's delegate sees, by kind of transaction. *)
Definition senderChange (transaction : TransactionData)
  (lockTransaction : option HtlcLockRecord) (revert : bool) : option Z :=
  let signed (x : Z) := if revert then x else - x in
  if isCore HtlcLock transaction then Some (signed (tx_fee transaction))
  else if isCore HtlcClaim transaction then
    match lockTransaction with
    | Some lock => Some (signed (tx_fee transaction - lock_amount lock))
    | None => None
    end
  else if isCore MultiPayment transaction then
    match asset transaction ≫= payments with
    | Some ps => Some (signed (sumPayments ps + tx_fee transaction))
    | None => None
    end
  else Some (signed (tx_amount transaction + tx_fee transaction)).

(** The payments of a multi-payment, one after the other: the delegate of each
    recipient that votes gains the payment's amount, or loses it on revert. *)
Definition payRecipients (revert : bool) (ps : list MultiPaymentItem)
  (r : WalletRepository) : WalletRepository :=
  fold_left (fun acc p =>
    addVotes (default None (backedDelegate acc (pay_recipientId p)))
             (if revert then - pay_amount p else pay_amount p) acc) ps r.

(** The recipient of a transaction as [lookupRecipient] finds it. *)
Definition recipientOf (r : WalletRepository) (transaction : TransactionData) : option string :=
  match truthy (recipientId transaction) with
  | Some rid => fst <$> walletByAddress r rid
  | None => None
  end.

(** ** A sample registry and ledger

    The handlers of core-transactions are not part of the engine.  To run the
    engine on concrete ledgers, here are handlers that move balances the way
    the spec's examples describe: the sender pays amount and fee, a recipient
    gains the amount, a vote sets or clears the [vote] attribute, a claim
    removes the lock and pays the locked amount to the claimer. *)

Definition sampleAddress (pk : string) : string := "A" +:+ pk.

Definition set_vote (v : option string) (wal : Wallet) : Wallet :=
  mkWallet (publicKey wal) (balance wal) v (delegate wal) (locks wal).

Definition set_locks (l : gmap string HtlcLockRecord) (wal : Wallet) : Wallet :=
  mkWallet (publicKey wal) (balance wal) (vote wal) (delegate wal) l.

Definition senderRef (t : Transaction) (r : WalletRepository) : option string :=
  match senderPublicKey (tx_data t) with
  | Some pk => fst <$> walletByPublicKey r pk
  | None => None
  end.

Definition balanceOf (r : WalletRepository) (ref : string) : Z :=
  match byAddress r !! ref with
  | Some wal => balance wal
  | None => 0
  end.

Definition adjustBalance (change : Z) (ref : string) (r : WalletRepository) : WalletRepository :=
  alter_wallet (fun wal => set_balance (balance wal + change) wal) ref r.

(** A recipient that the repository does not know yet gets a wallet. *)
Definition coldWallet (addr : string) (r : WalletRepository) : WalletRepository :=
  match byAddress r !! addr with
  | Some _ => r
  | None => setWallets (<[addr := createWallet addr]> (byAddress r)) r
  end.

(** The sender pays [cost] and the handler goes on with [k], or the handler
    throws and leaves the repository as it was. *)
Definition spend (t : Transaction) (cost : Z) (r : WalletRepository)
  (k : string -> WalletRepository -> WalletRepository) : Outcome unit * WalletRepository :=
  match senderRef t r with
  | Some s =>
      if balanceOf r s <? cost
      then (Thrown (HandlerError "insufficient balance"), r)
      else (Returned tt, k s (adjustBalance (- cost) s r))
  | None => (Thrown (HandlerError "unknown sender"), r)
  end.

Definition refund (t : Transaction) (cost : Z) (r : WalletRepository)
  (k : string -> WalletRepository -> WalletRepository) : Outcome unit * WalletRepository :=
  match senderRef t r with
  | Some s => (Returned tt, adjustBalance cost s (k s r))
  | None => (Thrown (HandlerError "unknown sender"), r)
  end.

Definition sampleTransfer : TransactionHandler :=
  let amount t := tx_amount (tx_data t) in
  let cost t := tx_amount (tx_data t) + tx_fee (tx_data t) in
  mkHandler
    (fun t r => spend t (cost t) r (fun _ r' =>
       match recipientId (tx_data t) with
       | Some rid => adjustBalance (amount t) rid (coldWallet rid r')
       | None => r'
       end))
    (fun t r => refund t (cost t) r (fun _ r' =>
       match recipientId (tx_data t) with
       | Some rid => adjustBalance (- amount t) rid r'
       | None => r'
       end)).

Definition sampleVote : TransactionHandler :=
  let target (t : Transaction) (voting : bool) :=
    match asset (tx_data t) ≫= votes with
    | Some (v :: _) => if bool_decide (startsWithPlus v = voting) then Some (substr_1 v) else None
    | _ => None
    end in
  mkHandler
    (fun t r => spend t (tx_fee (tx_data t)) r (fun s r' =>
       alter_wallet (set_vote (target t true)) s r'))
    (fun t r => refund t (tx_fee (tx_data t)) r (fun s r' =>
       alter_wallet (set_vote (target t false)) s r')).

Definition sampleMultiPayment : TransactionHandler :=
  let ps t := default [] (asset (tx_data t) ≫= payments) in
  mkHandler
    (fun t r => spend t (sumPayments (ps t) + tx_fee (tx_data t)) r (fun _ r' =>
       fold_left (fun acc p => adjustBalance (pay_amount p) (pay_recipientId p) acc)
         (ps t) r'))
    (fun t r => refund t (sumPayments (ps t) + tx_fee (tx_data t)) r (fun _ r' =>
       fold_left (fun acc p => adjustBalance (- pay_amount p) (pay_recipientId p) acc)
         (ps t) r')).

(** The lock handler: the sender pays amount and fee, and the lock is entered
    in its [htlc.locks] and in the lock index under the transaction's id.  The
    recipient of a lock is not touched. *)
Definition sampleLock : TransactionHandler :=
  let cost t := tx_amount (tx_data t) + tx_fee (tx_data t) in
  let lockId t := tx_id (tx_data t) in
  mkHandler
    (fun t r => spend t (cost t) r (fun s r' =>
       mkRepo (byAddress (alter_wallet (fun wal =>
                 set_locks (<[lockId t := mkLock (tx_amount (tx_data t))]> (locks wal)) wal) s r'))
              (byPublicKey r') (<[lockId t := s]> (byLocks r'))))
    (fun t r => refund t (cost t) r (fun s r' =>
       mkRepo (byAddress (alter_wallet (fun wal =>
                 set_locks (delete (lockId t) (locks wal)) wal) s r'))
              (byPublicKey r') (delete (lockId t) (byLocks r')))).

(** The claim handler takes the lock from the owner's [htlc.locks] and from
    the lock index and pays the locked amount, less the fee, to the claimer; on
    revert it puts the lock back.  The lock and its owner are parameters of the
    sample. *)
Definition sampleClaim (owner : string) (lockId : string) (lock : HtlcLockRecord) : TransactionHandler :=
  mkHandler
    (fun t r => spend t (tx_fee (tx_data t) - lock_amount lock) r (fun _ r' =>
       mkRepo (byAddress (alter_wallet (fun wal => set_locks (delete lockId (locks wal)) wal) owner r'))
              (byPublicKey r') (delete lockId (byLocks r'))))
    (fun t r => refund t (tx_fee (tx_data t) - lock_amount lock) r (fun _ r' =>
       mkRepo (byAddress (alter_wallet (fun wal => set_locks (<[lockId := lock]> (locks wal)) wal) owner r'))
              (byPublicKey r') (<[lockId := owner]> (byLocks r')))).

Definition sampleRegistry (data : TransactionData) : Outcome TransactionHandler :=
  match tx_typeGroup data, tx_type data with
  | Core, Transfer => Returned sampleTransfer
  | Core, Vote => Returned sampleVote
  | Core, MultiPayment => Returned sampleMultiPayment
  | Core, HtlcLock => Returned sampleLock
  | Core, HtlcClaim => Returned (sampleClaim "AS" "lock1" (mkLock 400))
  | _, _ => Thrown (HandlerError "unregistered transaction type")
  end.

Definition samplePreviousBlock : BlockData := mkBlockData "b4" 4 "G" 2 0.

Definition sampleDelegate (votes0 : Z) (last : option BlockData) : option WalletDelegateAttributes :=
  Some (mkDelegate (Some votes0) (Some 7) (Some 30) (Some 14) last).

(** The sample ledger: delegates G, D and E, and voters S (backs D, owns the
    lock [lock1] of 400), C (backs E) and R (backs nobody).  G backs D. *)
Definition sampleWallets : gmap string Wallet :=
  <["AG" := mkWallet (Some "G") 50 (Some "D") (sampleDelegate 0 (Some samplePreviousBlock)) ∅]>
  (<["AD" := mkWallet (Some "D") 0 None (sampleDelegate 1050 None) ∅]>
  (<["AE" := mkWallet (Some "E") 0 None (sampleDelegate 200 None) ∅]>
  (<["AS" := mkWallet (Some "S") 1000 (Some "D") None {["lock1" := mkLock 400]}]>
  (<["AC" := mkWallet (Some "C") 200 (Some "E") None ∅]>
  (<["AR" := mkWallet (Some "R") 300 None None ∅]> ∅))))).

Definition sampleKeys : gmap string string :=
  <["G" := "AG"]> (<["D" := "AD"]> (<["E" := "AE"]> (<["S" := "AS"]>
  (<["C" := "AC"]> (<["R" := "AR"]> ∅))))).

Definition sampleRepository : WalletRepository :=
  mkRepo sampleWallets sampleKeys {["lock1" := "AS"]}.

Definition sampleWorld : World := mkWorld sampleRepository [].

Definition sampleTx (ty : TransactionType) (sender : string) (recipient : option string)
  (amount fee : Z) (a : option TransactionAsset) : Transaction :=
  mkTx (mkTxData "tx" ty Core (Some sender) recipient amount fee a).

(** R votes for D (and the array carries a second entry); S withdraws its vote
    for D; C claims the lock of S; S pays 100 to C and 50 to R; S pays 100 to
    R; S locks 70 for an address that the ledger does not know; S pays to two
    addresses of which the second is not known; C tries to pay more than it
    has; a transaction of a kind that has no handler. *)
Definition sampleVoteTx : Transaction :=
  sampleTx Vote "R" None 0 5 (Some (mkAsset (Some ["+D"; "-E"]) None None)).

Definition sampleUnvoteTx : Transaction :=
  sampleTx Vote "S" None 0 5 (Some (mkAsset (Some ["-D"]) None None)).

Definition sampleClaimTx : Transaction :=
  sampleTx HtlcClaim "C" None 0 5 (Some (mkAsset None (Some (mkClaim "lock1")) None)).

Definition sampleMultiPaymentTx : Transaction :=
  sampleTx MultiPayment "S" None 0 10
    (Some (mkAsset None None (Some [mkPayment 100 "AC"; mkPayment 50 "AR"]))).

Definition sampleTransferTx : Transaction :=
  sampleTx Transfer "S" (Some "AR") 100 10 None.

Definition sampleLockTx : Transaction :=
  sampleTx HtlcLock "S" (Some "AZ") 70 10 None.

Definition sampleStrayPaymentTx : Transaction :=
  sampleTx MultiPayment "S" None 0 10
    (Some (mkAsset None None (Some [mkPayment 100 "AC"; mkPayment 50 "AZ"]))).

Definition sampleOverdraftTx : Transaction :=
  sampleTx Transfer "C" (Some "AR") 5000 1 None.

Definition sampleIpfsTx : Transaction :=
  sampleTx Ipfs "S" None 0 5 None.

(** Block 5, forged by G: a transfer and a claim, fees 10 + 5. *)
Definition sampleBlock : Block :=
  mkBlock (mkBlockData "b5" 5 "G" 2 15) [sampleTransferTx; sampleClaimTx].

(** A block whose third transaction cannot be applied. *)
Definition sampleFailingBlock : Block :=
  mkBlock (mkBlockData "b5" 5 "G" 2 21)
    [sampleTransferTx; sampleVoteTx; sampleOverdraftTx; sampleClaimTx].

(** A block whose second transaction cannot be reverted. *)
Definition sampleStuckBlock : Block :=
  mkBlock (mkBlockData "b5" 5 "G" 2 25) [sampleClaimTx; sampleIpfsTx; sampleTransferTx].

(** Blocks of a generator N that the ledger does not know, at height 1 and at
    height 5. *)
Definition sampleGenesisBlock : Block :=
  mkBlock (mkBlockData "b1" 1 "N" 0 1) [sampleOverdraftTx].

Definition sampleOrphanBlock : Block :=
  mkBlock (mkBlockData "b5" 5 "N" 2 10) [sampleTransferTx].

(** The ledger before the first block. *)
Definition sampleEmptyWorld : World := mkWorld (mkRepo ∅ ∅ ∅) [].

(** The sample ledger once [sampleBlock] has been applied to it, as computed by
    the engine; and the same with the vote of G pointing at R, a wallet that is
    not a delegate and has no vote balance. *)
Definition sampleWorldAfterBlock : World :=
  snd (applyBlock sampleAddress sampleRegistry sampleBlock sampleWorld).

Definition strayVote (w : World) : World :=
  setRepo (alter_wallet (set_vote (Some "R")) "AG" (walletRepository w)) w.

(** [delegate.lastBlock] of the wallet behind a reference. *)
Definition lastBlockOf (r : WalletRepository) (ref : string) : option BlockData :=
  match byAddress r !! ref with
  | Some wal =>
      match delegate wal with
      | Some d => lastBlock d
      | None => None
      end
  | None => None
  end.

(** The wallet behind a reference, for reading off a concrete ledger. *)
Definition walletAt (r : WalletRepository) (ref : string) : Wallet :=
  default (createWallet ref) (byAddress r !! ref).

(** A computation is quiet when it leaves the reported faults as they are. *)
Definition quiet {A : Type} (m : M A) : Prop :=
  forall w : World, faults (snd (m w)) = faults w.

(** ** Views used to state what the engine leaves alone and what it keeps *)

(** Every attribute of a wallet that is not [delegate.voteBalance], as the
    engine reads it. *)
Definition otherAttributes (wal : Wallet)
  : option string * Z * option string * gmap string HtlcLockRecord
    * (option Z * option Z * option Z * option BlockData) :=
  (publicKey wal, balance wal, vote wal, locks wal,
   (delegate wal ≫= producedBlocks, delegate wal ≫= forgedFees,
    delegate wal ≫= forgedRewards, delegate wal ≫= lastBlock)).

(** Two repositories that differ at most in vote balances: the same wallets
    under the same addresses, the same secondary indexes. *)
Definition onlyVotesDiffer (r r' : WalletRepository) : Prop :=
  byPublicKey r' = byPublicKey r /\
  byLocks r' = byLocks r /\
  otherAttributes <$> byAddress r' = otherAttributes <$> byAddress r.

(** A computation that leaves the ledger as it is but for vote balances, and
    the reported faults as they are, whether it returns or throws. *)
Definition keepsLedger {A : Type} (m : M A) : Prop :=
  forall w : World,
    onlyVotesDiffer (walletRepository w) (walletRepository (snd (m w))) /\
    faults (snd (m w)) = faults w.

(** What a change of [c] for the delegate [od] adds to the vote balance of the
    wallet behind [ref]. *)
Definition voteDelta (od : option string) (c : Z) (ref : string) : Z :=
  if decide (od = Some ref) then c else 0.

(** The vote balance that the wallet behind [ref] stores, if any. *)
Definition storedVotes (r : WalletRepository) (ref : string) : option Z :=
  byAddress r !! ref ≫= getVoteBalance.

(** Two repositories with the same voters: the same public-key index, the
    same addresses, and under each address a wallet with the same vote. *)
Definition sameVoters (r r' : WalletRepository) : Prop :=
  byPublicKey r' = byPublicKey r /\
  vote <$> byAddress r' = vote <$> byAddress r.

(** Two repositories with the same wallets: the same public-key index and
    the same addresses. *)
Definition sameWallets (r r' : WalletRepository) : Prop :=
  byPublicKey r' = byPublicKey r /\
  forall a, is_Some (byAddress r' !! a) <-> is_Some (byAddress r !! a).

(** [m'] undoes [m] on vote balances: whenever [m] returns, it has written
    nothing but vote balances, and from any ledger with the same voters as the
    one [m] started on, [m'] returns as well, writes nothing but vote balances,
    takes off every vote balance what [m] had added to it, and leaves a vote
    balance that was stored stored. *)
Definition undoesVotes (m m' : M unit) : Prop :=
  forall w w1 : World,
    m w = (Returned tt, w1) ->
    onlyVotesDiffer (walletRepository w) (walletRepository w1) /\
    faults w1 = faults w /\
    exists delta : string -> Z,
      (forall ref, votesOf (walletRepository w1) ref
                   = votesOf (walletRepository w) ref + delta ref) /\
      forall u : World,
        sameVoters (walletRepository w) (walletRepository u) ->
        exists u1 : World,
          m' u = (Returned tt, u1) /\
          onlyVotesDiffer (walletRepository u) (walletRepository u1) /\
          faults u1 = faults u /\
          (forall ref, votesOf (walletRepository u1) ref
                       = votesOf (walletRepository u) ref - delta ref) /\
          (forall ref, is_Some (storedVotes (walletRepository u) ref) ->
                       is_Some (storedVotes (walletRepository u1) ref)).

(** What a wallet adds to the votes for the delegate with public key [pk]: its
    balance, when it votes for [pk]. *)
Definition voterShare (pk : string) (wal : Wallet) : Z :=
  if decide (vote wal = Some pk) then balance wal else 0.

(** The balances of the wallets that vote for [pk], added up. *)
Definition voterBalance (r : WalletRepository) (pk : string) : Z :=
  map_fold (fun _ wal acc => voterShare pk wal + acc) 0 (byAddress r).

(** Every wallet that the public-key index leads to has, as its vote balance,
    the balances of its voters added up. *)
Definition votesMatchBalances (r : WalletRepository) : Prop :=
  map_Forall (fun pk d => is_Some (byAddress r !! d) -> votesOf r d = voterBalance r pk)
    (byPublicKey r).

(** No two public keys lead to the same wallet. *)
Definition keysDistinct (r : WalletRepository) : Prop :=
  NoDup (snd <$> map_to_list (byPublicKey r)).

#[global] Instance votesMatchBalances_dec (r : WalletRepository) :
  Decision (votesMatchBalances r).
Proof. unfold votesMatchBalances. apply _. Defined.

#[global] Instance keysDistinct_dec (r : WalletRepository) : Decision (keysDistinct r).
Proof. unfold keysDistinct. apply _. Defined.

(** ** The contract of the handlers, and the transactions of a run

    The handlers are parameters of the engine.  What the engine restores
    when it takes a transaction or a block back depends on what the handlers
    restore; the definitions below say what is asked of a handler, for one
    call, in terms of [handler_apply] and [handler_revert] alone. *)

(** The vote of the wallet behind [ref]. *)
Definition voteOf (r : WalletRepository) (ref : string) : option (option string) :=
  vote <$> byAddress r !! ref.

(** The first entry of [asset.votes]. *)
Definition firstVote (t : TransactionData) : option string :=
  (asset t ≫= votes) ≫= head.

(** The vote balance that the vote rule writes, from the vote balance
    [voteBalance0] that it read and the balance of the sender. *)
Definition voteRule (plus revert : bool) (voteBalance0 senderBalance fee : Z) : Z :=
  if plus then
    if revert then voteBalance0 - (senderBalance - fee) else voteBalance0 + senderBalance
  else
    if revert then voteBalance0 + senderBalance else voteBalance0 - (senderBalance + fee).

(** One direction of a handler: [handler.revert] or [handler.apply]. *)
Definition handlerStep (h : TransactionHandler) (revert : bool)
  : Transaction -> WalletRepository -> Outcome unit * WalletRepository :=
  if revert then handler_revert h else handler_apply h.

(** One direction of the engine: [revertTransaction] or [applyTransaction]. *)
Definition engineStep (registry : TransactionData -> Outcome TransactionHandler)
  (revert : bool) (t : Transaction) : M unit :=
  if revert then revertTransaction registry t else applyTransaction registry t.

(** What the engine itself has written on a wallet between the two directions
    of a handler: nothing, or the credit [k] of a block on the wallet [g] of
    its generator. *)
Definition patch (credit : option (string * (Wallet -> Wallet))) (r : WalletRepository)
  : WalletRepository :=
  match credit with
  | Some (g, k) => alter_wallet k g r
  | None => r
  end.

(** The contract of a handler, for one call.  [h] is the handler of [t]; one
    of its directions ([revert] tells which) is called on the repository [r].
    - The call returns, and leaves [a].
    - It adds and removes no public key and no wallet, and leaves every vote
      balance as it reads.
    - For a vote, it charges the fee to the sender (on revert, it gives the fee
      back); on the wallet that the engine credits in between, if there is
      one, it sets or clears the vote as the transaction says when that wallet
      is the sender, and leaves the vote alone otherwise.  For any other
      transaction it leaves the vote of every wallet alone.
    - The other direction of the handler takes the call back, whatever vote
      balances the engine has written in between: called on a repository that
      is [a] with the credit, up to vote balances, it returns and leaves [r]
      with the credit, up to vote balances, and the vote balances it found. *)
Definition undoneByHandler (credit : option (string * (Wallet -> Wallet)))
  (h : TransactionHandler) (revert : bool) (t : Transaction) (r a : WalletRepository) : Prop :=
  handlerStep h revert t r = (Returned tt, a) /\
  byPublicKey a = byPublicKey r /\
  getVoteBalanceOrZero <$> byAddress a = getVoteBalanceOrZero <$> byAddress r /\
  (if isCore Vote (tx_data t) then
     forall s vote0 : string,
       senderRef t r = Some s ->
       firstVote (tx_data t) = Some vote0 ->
       balanceOf a s
         = balanceOf r s + (if revert then tx_fee (tx_data t) else - tx_fee (tx_data t)) /\
       forall (g : string) (k : Wallet -> Wallet),
         credit = Some (g, k) ->
         if decide (g = s) then
           if xorb (startsWithPlus vote0) revert
           then voteOf r g = Some None /\ voteOf a g = Some (Some (substr_1 vote0))
           else voteOf r g = Some (Some (substr_1 vote0)) /\ voteOf a g = Some None
         else voteOf a g = voteOf r g
   else vote <$> byAddress a = vote <$> byAddress r) /\
  forall u : WalletRepository,
    onlyVotesDiffer (patch credit a) u ->
    exists x : WalletRepository,
      handlerStep h (negb revert) t u = (Returned tt, x) /\
      onlyVotesDiffer (patch credit r) x /\
      getVoteBalance <$> byAddress x = getVoteBalance <$> byAddress u.

(** What [applyBlockToDelegate] writes on the wallet of the generator, when
    that wallet has the attributes of a delegate. *)
Definition creditWallet (block : BlockData) (wal : Wallet) : Wallet :=
  let d := default emptyDelegate (delegate wal) in
  mkWallet (publicKey wal) (balance wal + b_reward block + b_totalFee block) (vote wal)
    (Some (mkDelegate (voteBalance d)
             ((fun n => number_add n 1) <$> producedBlocks d)
             ((fun fees => fees + b_totalFee block) <$> forgedFees d)
             ((fun rewards => rewards + b_reward block) <$> forgedRewards d)
             (Some block)))
    (locks wal).

(** The wallet of a generator with [delegate.lastBlock] cleared, as
    [revertBlockFromDelegate] leaves it. *)
Definition withoutLastBlock (wal : Wallet) : Wallet :=
  set_delegate (set_lastBlock None (default emptyDelegate (delegate wal))) wal.

(** A change of the balance of a wallet. *)
Definition addBalance (change : Z) (wal : Wallet) : Wallet :=
  set_balance (balance wal + change) wal.

(** What the lemmas below need of a credit [k] of [beta]: it adds [beta] to
    the balance; it leaves public key, vote, locks and vote balance alone; what
    it leaves of the other attributes depends on the other attributes only;
    and it can be swapped with a write of the balance.  Without a credit,
    [beta] is zero. *)
Definition creditOf (beta : Z) (credit : option (string * (Wallet -> Wallet))) : Prop :=
  match credit with
  | Some (_, k) =>
      forall wal : Wallet,
        publicKey (k wal) = publicKey wal /\
        vote (k wal) = vote wal /\
        locks (k wal) = locks wal /\
        getVoteBalance (k wal) = getVoteBalance wal /\
        balance (k wal) = balance wal + beta /\
        (forall wal' : Wallet,
           otherAttributes wal' = otherAttributes wal ->
           otherAttributes (k wal') = otherAttributes (k wal)) /\
        forall v : Z,
          otherAttributes (k (set_balance v wal))
            = otherAttributes (set_balance (v + beta) (k wal))
  | None => beta = 0
  end.

(** What the credit adds to the balance of the wallet behind [s]. *)
Definition creditTo (beta : Z) (credit : option (string * (Wallet -> Wallet))) (s : string) : Z :=
  if decide (fst <$> credit = Some s) then beta else 0.

(** The vote rule reads the balance of the sender.  When the sender of a vote
    is the wallet that has been credited in between, the two directions of the
    rule read balances that differ by the credit: [voteShift] is what that
    leaves on the vote balance of the wallet behind [ref]. *)
Definition voteShift (beta : Z) (credit : option (string * (Wallet -> Wallet)))
  (revert : bool) (t : Transaction) (r : WalletRepository) (ref : string) : Z :=
  if isCore Vote (tx_data t) then
    match senderRef t r, firstVote (tx_data t) with
    | Some s, Some vote0 =>
        voteDelta (fst <$> walletByPublicKey r (substr_1 vote0))
          (if xorb (startsWithPlus vote0) revert
           then - creditTo beta credit s else creditTo beta credit s) ref
    | _, _ => 0
    end
  else 0.

(** [Ran registry credit revert w ts w']: from [w] the engine takes the
    transactions [ts] in turn, each in the direction [revert]; it returns for
    each of them and reaches [w'], and the handler of each keeps its contract
    ([undoneByHandler]) on the repository it is called on. *)
Inductive Ran (registry : TransactionData -> Outcome TransactionHandler)
  (credit : option (string * (Wallet -> Wallet))) (revert : bool)
  : World -> list Transaction -> World -> Prop :=
| Ran_nil (w : World) : Ran registry credit revert w [] w
| Ran_cons (w w1 w2 : World) (t : Transaction) (ts : list Transaction)
    (h : TransactionHandler) (a : WalletRepository) :
    registry (tx_data t) = Returned h ->
    undoneByHandler credit h revert t (walletRepository w) a ->
    engineStep registry revert t w = (Returned tt, w1) ->
    Ran registry credit revert w1 ts w2 ->
    Ran registry credit revert w (t :: ts) w2.

(** The sample ledger with S voting for R, a wallet without the attributes
    of a delegate. *)
Definition voteForR (w : World) : World :=
  setRepo (alter_wallet (set_vote (Some "R")) "AS" (walletRepository w)) w.

(** A block of G with the sample transfer only. *)
Definition sampleTransferBlock : Block :=
  mkBlock (mkBlockData "b5" 5 "G" 2 10) [sampleTransferTx].

(** A block of G whose second transaction overdraws the sender. *)
Definition sampleHalfBlock : Block :=
  mkBlock (mkBlockData "b5" 5 "G" 2 11) [sampleTransferTx; sampleOverdraftTx].

(** A block of G whose only transaction is a multi-payment to C, which the
    ledger knows, and then to a wallet that it does not know. *)
Definition sampleStrayBlock : Block :=
  mkBlock (mkBlockData "b5" 5 "G" 2 10) [sampleStrayPaymentTx].

(** ** The forger: [Method.createBlock]

    Shallow embedding of the abstract class [Method] of the forger, whose
    [createBlock] adds up the transactions of a block to be forged and hands
    the block data to the block factory. *)

Module Method.

(** [Interfaces.IKeyPair] of the crypto package. *)
Record IKeyPair : Type := mkKeyPair {
  kp_publicKey : string;
  kp_privateKey : string;
  kp_compressed : bool
}.

(** [Interfaces.ITransactionData], with the fields that [createBlock] reads;
    [id] is optional in the interface. *)
Record ITransactionData : Type := mkTransactionData {
  id : option string;
  amount : Z;
  fee : Z
}.

(** [options.previousBlock]. *)
Record PreviousBlock : Type := mkPreviousBlock {
  prev_id : string;
  prev_idHex : string;
  prev_height : Z
}.

(** [options: Record<string, any>], with the entries that [createBlock] reads.
    [previousBlock] may be missing, and reading a property of it then throws. *)
Record Options : Type := mkOptions {
  opt_timestamp : Z;
  opt_previousBlock : option PreviousBlock;
  opt_reward : Z
}.

(** The local object [totals]. *)
Record Totals : Type := mkTotals {
  totals_amount : Z;
  totals_fee : Z
}.

(** The block data that [createBlock] hands to the block factory. *)
Record IBlockData : Type := mkIBlockData {
  version : Z;
  generatorPublicKey : string;
  timestamp : Z;
  previousBlock : string;
  previousBlockHex : string;
  height : Z;
  numberOfTransactions : Z;
  totalAmount : Z;
  totalFee : Z;
  reward : Z;
  payloadLength : Z;
  payloadHash : string;
  transactions : list ITransactionData
}.

Section CreateBlock.

(** Node's [Buffer] and [Buffer.from(id, "hex")]. *)
Variable Buffer : Type.
Variable Buffer_from_hex : string -> Buffer.

(** [HashAlgorithms.sha256(buffers).toString("hex")] of the crypto package. *)
Variable sha256_hex : list Buffer -> string.

(** [Blocks.BlockFactory.make] of core-crypto, which may return [undefined]. *)
Variable IBlock : Type.
Variable make : IBlockData -> IKeyPair -> (Z -> Z) -> option IBlock.

(** The loop of lines 36-43 over the transactions, on the local [totals] and
    [payloadBuffers]. *)
Fixpoint collect (txs : list ITransactionData) (totals : Totals) (payloadBuffers : list Buffer)
  : Outcome (Totals * list Buffer) :=
  match txs with
  | [] => Returned (totals, payloadBuffers)
  | transaction :: rest =>
      match id transaction with
      | None => Thrown AssertionError
      | Some transactionId =>
          collect rest
            (mkTotals (totals_amount totals + amount transaction)
                      (totals_fee totals + fee transaction))
            (payloadBuffers ++ [Buffer_from_hex transactionId])
      end
  end.

(** The object literal of lines 46-62, the first argument of [make]. *)
Definition blockData (keys : IKeyPair) (txs : list ITransactionData) (options : Options)
  : Outcome IBlockData :=
  match collect txs (mkTotals 0 0) [] with
  | Returned (totals, payloadBuffers) =>
      match opt_previousBlock options with
      | Some prev =>
          Returned
            (mkIBlockData 0 (kp_publicKey keys) (opt_timestamp options)
               (prev_id prev) (prev_idHex prev) (number_add (prev_height prev) 1)
               (Z.of_nat (length txs)) (totals_amount totals) (totals_fee totals)
               (opt_reward options) (32 * Z.of_nat (length txs))
               (sha256_hex payloadBuffers) txs)
      | None => Thrown TypeError
      end
  | Thrown e => Thrown e
  end.

(** [createBlock], lines 24-66.  The non-null assertion on the result of
    [make] is erased at run time: what [make] returns is returned. *)
Definition createBlock (keys : IKeyPair) (txs : list ITransactionData) (options : Options)
  (getBlockTimeLookup : Z -> Z) : Outcome (option IBlock) :=
  match blockData keys txs options with
  | Returned data => Returned (make data keys getBlockTimeLookup)
  | Thrown e => Thrown e
  end.

End CreateBlock.

(** The sum of a column of the transactions. *)
Definition sumOf (f : ITransactionData -> Z) (txs : list ITransactionData) : Z :=
  foldr (fun t acc => f t + acc) 0 txs.

(** The ids of the transactions, when every one of them is defined. *)
Definition idsOf (txs : list ITransactionData) : option (list string) :=
  mapM id txs.

End Method.

(** ** The kernel's [AbstractServiceProvider]

    The base class of the service providers: two private fields with their
    accessors, and defaults for the hooks that a provider may override. *)

Module ServiceProvider.

Section Provider.

(** [PackageManifest] and [PackageConfiguration] of the kernel, and
    [PackageManifest.get(key)]. *)
Variable PackageManifest : Type.
Variable PackageConfiguration : Type.
Variable manifest_get : PackageManifest -> string -> option string.

(** The two private fields of [AbstractServiceProvider]; a field that has not
    been assigned is [undefined]. *)
Record AbstractServiceProvider : Type := mkProvider {
  packageConfiguration : option PackageConfiguration;
  packageManifest : option PackageManifest
}.

(** A provider as the constructor leaves it. *)
Definition fresh : AbstractServiceProvider := mkProvider None None.

Definition manifest (p : AbstractServiceProvider) : option PackageManifest :=
  packageManifest p.

Definition setManifest (m : PackageManifest) (p : AbstractServiceProvider)
  : AbstractServiceProvider :=
  mkProvider (packageConfiguration p) (Some m).

Definition name (p : AbstractServiceProvider) : option string :=
  match packageManifest p with
  | Some m => manifest_get m "name"
  | None => None
  end.

Definition version (p : AbstractServiceProvider) : option string :=
  match packageManifest p with
  | Some m => manifest_get m "version"
  | None => None
  end.

Definition config (p : AbstractServiceProvider) : option PackageConfiguration :=
  packageConfiguration p.

Definition setConfig (c : PackageConfiguration) (p : AbstractServiceProvider)
  : AbstractServiceProvider :=
  mkProvider (Some c) (packageManifest p).

(** [boot] and [dispose] have empty bodies. *)
Definition boot (p : AbstractServiceProvider) : AbstractServiceProvider := p.
Definition dispose (p : AbstractServiceProvider) : AbstractServiceProvider := p.

Definition enableWhen (p : AbstractServiceProvider) : bool := true.
Definition disableWhen (p : AbstractServiceProvider) : bool := false.
Definition required (p : AbstractServiceProvider) : bool := false.

(** A call of one of the methods that can change the provider. *)
Inductive Call : Type :=
| CallSetManifest (m : PackageManifest)
| CallSetConfig (c : PackageConfiguration)
| CallBoot
| CallDispose.

Definition call (c : Call) (p : AbstractServiceProvider) : AbstractServiceProvider :=
  match c with
  | CallSetManifest m => setManifest m p
  | CallSetConfig c => setConfig c p
  | CallBoot => boot p
  | CallDispose => dispose p
  end.

(** The calls of a list, made one after the other. *)
Definition calls (cs : list Call) (p : AbstractServiceProvider) : AbstractServiceProvider :=
  foldl (fun acc c => call c acc) p cs.

(** The manifests and the configurations that a list of calls sets, in
    order. *)
Definition manifestsSet (cs : list Call) : list PackageManifest :=
  omap (fun c => match c with CallSetManifest m => Some m | _ => None end) cs.

Definition configsSet (cs : list Call) : list PackageConfiguration :=
  omap (fun c => match c with CallSetConfig x => Some x | _ => None end) cs.

End Provider.

Arguments mkProvider {PackageManifest PackageConfiguration}.
Arguments packageConfiguration {PackageManifest PackageConfiguration}.
Arguments packageManifest {PackageManifest PackageConfiguration}.
Arguments fresh {PackageManifest PackageConfiguration}.
Arguments manifest {PackageManifest PackageConfiguration}.
Arguments setManifest {PackageManifest PackageConfiguration}.
Arguments name {PackageManifest PackageConfiguration}.
Arguments version {PackageManifest PackageConfiguration}.
Arguments config {PackageManifest PackageConfiguration}.
Arguments setConfig {PackageManifest PackageConfiguration}.
Arguments boot {PackageManifest PackageConfiguration}.
Arguments dispose {PackageManifest PackageConfiguration}.
Arguments CallSetManifest {PackageManifest PackageConfiguration}.
Arguments CallSetConfig {PackageManifest PackageConfiguration}.
Arguments CallBoot {PackageManifest PackageConfiguration}.
Arguments CallDispose {PackageManifest PackageConfiguration}.
Arguments call {PackageManifest PackageConfiguration}.
Arguments calls {PackageManifest PackageConfiguration}.
Arguments manifestsSet {PackageManifest PackageConfiguration}.
Arguments configsSet {PackageManifest PackageConfiguration}.

End ServiceProvider.

(** ** Running the monad *)

(** Up to 2^53 a number holds its integer as it is, so a counter below 2^53
    is counted up and down by exactly one. *)
Lemma toNumber_exact (z : Z) : Z.abs z <= 2 ^ 53 -> toNumber z = z.
Proof. intros H. unfold toNumber. cbv zeta. by rewrite (proj2 (Z.leb_le _ _) H). Qed.

Lemma number_add_1 (n : Z) : Z.abs n < 2 ^ 53 -> number_add n 1 = n + 1.
Proof. intros H. apply toNumber_exact. lia. Qed.

Lemma number_sub_1 (n : Z) : Z.abs n < 2 ^ 53 -> number_sub n 1 = n - 1.
Proof. intros H. apply toNumber_exact. lia. Qed.

(** From 2^53 on, [++] no longer counts: 2^53 + 1 is not a double. *)
Lemma number_add_rounds :
  number_add (2 ^ 53) 1 = 2 ^ 53 /\ number_sub (number_add (2 ^ 53) 1) 1 = 2 ^ 53 - 1.
Proof. by vm_compute. Qed.

Lemma bind_returned {A B : Type} (m : M A) (k : A -> M B) (w w' : World) (a : A) :
  m w = (Returned a, w') -> bind m k w = k a w'.
Proof. intros H. unfold bind. by rewrite H. Qed.

Lemma bind_thrown {A B : Type} (m : M A) (k : A -> M B) (w w' : World) (e : error) :
  m w = (Thrown e, w') -> bind m k w = (Thrown e, w').
Proof. intros H. unfold bind. by rewrite H. Qed.

Lemma resolve_deref (r : WalletRepository) (entry : option string) :
  resolve r entry = fst <$> deref r entry.
Proof.
  unfold resolve, deref. destruct entry as [a|]; [|done].
  destruct (byAddress r !! a) as [wal|] eqn:E.
  - rewrite bool_decide_eq_true_2; [done | by eexists].
  - rewrite bool_decide_eq_false_2; [done | by intros [? ?]].
Qed.

Lemma deref_lookup (r : WalletRepository) (entry : option string) (a : string) (wal : Wallet) :
  deref r entry = Some (a, wal) -> byAddress r !! a = Some wal.
Proof.
  unfold deref. destruct entry as [b|]; [|done].
  destruct (byAddress r !! b) as [x|] eqn:E; [|done].
  intros [= <- <-]. exact E.
Qed.

Lemma getWallet_run (ref : string) (wal : Wallet) (w : World) :
  byAddress (walletRepository w) !! ref = Some wal ->
  getWallet ref w = (Returned wal, w).
Proof. intros H. unfold getWallet, bind, getRepo. cbv beta iota. by rewrite H. Qed.

Lemma findByPublicKey_run (pk a : string) (wal : Wallet) (w : World) :
  walletByPublicKey (walletRepository w) pk = Some (a, wal) ->
  findByPublicKey pk w = (Returned a, w).
Proof.
  intros H. unfold findByPublicKey, bind, getRepo. cbv beta iota.
  rewrite resolve_deref. unfold walletByPublicKey in H. by rewrite H.
Qed.

Lemma findByPublicKey_fail (pk : string) (w : World) :
  walletByPublicKey (walletRepository w) pk = None ->
  findByPublicKey pk w = (Thrown AccountNotFound, w).
Proof.
  intros H. unfold findByPublicKey, bind, getRepo. cbv beta iota.
  rewrite resolve_deref. unfold walletByPublicKey in H. by rewrite H.
Qed.

Lemma findByAddress_run (addr a : string) (wal : Wallet) (w : World) :
  walletByAddress (walletRepository w) addr = Some (a, wal) ->
  findByAddress addr w = (Returned a, w).
Proof.
  intros H. unfold findByAddress, bind, getRepo. cbv beta iota.
  rewrite resolve_deref. unfold walletByAddress in H. by rewrite H.
Qed.

Lemma findByAddress_fail (addr : string) (w : World) :
  byAddress (walletRepository w) !! addr = None ->
  findByAddress addr w = (Thrown AccountNotFound, w).
Proof.
  intros H. unfold findByAddress, bind, getRepo. cbv beta iota.
  rewrite resolve_deref. unfold deref. by rewrite H.
Qed.

Lemma findByLockId_run (lockId a : string) (wal : Wallet) (w : World) :
  walletByLockId (walletRepository w) lockId = Some (a, wal) ->
  findByLockId lockId w = (Returned a, w).
Proof.
  intros H. unfold findByLockId, bind, getRepo. cbv beta iota.
  rewrite resolve_deref. unfold walletByLockId in H. by rewrite H.
Qed.

Lemma callHandler_run (h : WalletRepository -> Outcome unit * WalletRepository)
  (w : World) (o : Outcome unit) (r : WalletRepository) :
  h (walletRepository w) = (o, r) -> callHandler h w = (o, setRepo r w).
Proof. intros H. unfold callHandler. by rewrite H. Qed.

Lemma setVoteBalance_run (ref : string) (v : Z) (w : World) :
  setVoteBalance ref v w = (Returned tt, setRepo (withVotes ref v (walletRepository w)) w).
Proof. reflexivity. Qed.

(** The guarded lookup of the recipient never throws and never writes. *)
Lemma lookupRecipient_run (t : Transaction) (w : World) :
  lookupRecipient t w =
    (Returned (recipientOf (walletRepository w) (tx_data t)), w).
Proof.
  unfold lookupRecipient, recipientOf.
  destruct (truthy (recipientId (tx_data t))) as [rid|]; [|done].
  unfold walletByAddress, deref.
  cbv beta iota zeta delta [bind hasByAddress getRepo ret].
  destruct (byAddress (walletRepository w) !! rid) as [wal|] eqn:E.
  - rewrite bool_decide_eq_true_2 by (by eexists).
    erewrite findByAddress_run; [done|].
    unfold walletByAddress, deref. by rewrite E.
  - by rewrite bool_decide_eq_false_2 by (by intros [? ?]).
Qed.

Lemma setRepo_id (w : World) : setRepo (walletRepository w) w = w.
Proof. by destruct w. Qed.

(** *** Writing a vote balance leaves votes, keys and indexes alone *)

Lemma lookup_withVotes (d : string) (v : Z) (r : WalletRepository) (a : string) :
  byAddress (withVotes d v r) !! a =
    if decide (d = a) then withVoteBalance v <$> byAddress r !! a else byAddress r !! a.
Proof.
  unfold withVotes, alter_wallet, setWallets. cbn [byAddress].
  rewrite lookup_alter. by destruct (decide (d = a)) as [->|].
Qed.

Lemma deref_withVotes (d : string) (v : Z) (r : WalletRepository) (entry : option string) :
  fst <$> deref (withVotes d v r) entry = fst <$> deref r entry.
Proof.
  unfold deref. destruct entry as [a|]; [|done].
  rewrite lookup_withVotes.
  destruct (decide (d = a)); destruct (byAddress r !! a); done.
Qed.

Lemma backedDelegate_withVotes (d : string) (v : Z) (r : WalletRepository) (ref : string) :
  backedDelegate (withVotes d v r) ref = backedDelegate r ref.
Proof.
  unfold backedDelegate. rewrite lookup_withVotes.
  assert (Hpk : forall pk,
    match walletByPublicKey (withVotes d v r) pk with
    | Some (x, _) => Some (Some x) | None => None end =
    match walletByPublicKey r pk with
    | Some (x, _) => Some (Some x) | None => None end).
  { intros pk. unfold walletByPublicKey.
    pose proof (deref_withVotes d v r (byPublicKey r !! pk)) as H.
    change (byPublicKey (withVotes d v r)) with (byPublicKey r).
    destruct (deref (withVotes d v r) (byPublicKey r !! pk)) as [[??]|];
      destruct (deref r (byPublicKey r !! pk)) as [[??]|]; simpl in H; congruence. }
  destruct (decide (d = ref)) as [->|]; destruct (byAddress r !! ref) as [wal|]; simpl; try done.
  - destruct (vote wal); [apply Hpk | done].
  - destruct (vote wal); [apply Hpk | done].
Qed.

Lemma backedDelegate_addVotes (d : option string) (change : Z) (r : WalletRepository) (ref : string) :
  backedDelegate (addVotes d change r) ref = backedDelegate r ref.
Proof. destruct d; [apply backedDelegate_withVotes | done]. Qed.

Lemma backedDelegate_Some (r : WalletRepository) (ref : string) (od : option string) :
  backedDelegate r ref = Some od ->
  exists wal, byAddress r !! ref = Some wal /\
    match od with
    | Some d => exists pk wd, vote wal = Some pk /\ walletByPublicKey r pk = Some (d, wd)
    | None => vote wal = None
    end.
Proof.
  unfold backedDelegate. destruct (byAddress r !! ref) as [wal|]; [|done].
  intros H. exists wal. split; [done|].
  destruct (vote wal) as [pk|].
  - destruct (walletByPublicKey r pk) as [[d wd]|] eqn:E; [|done].
    injection H as <-. by exists pk, wd.
  - by injection H as <-.
Qed.

Lemma votesOf_lookup (r : WalletRepository) (ref : string) (wal : Wallet) :
  byAddress r !! ref = Some wal -> votesOf r ref = getVoteBalanceOrZero wal.
Proof. intros H. unfold votesOf. by rewrite H. Qed.

Lemma getWallet_bind {A : Type} (ref : string) (wal : Wallet) (k : Wallet -> M A) (w : World) :
  byAddress (walletRepository w) !! ref = Some wal ->
  bind (getWallet ref) k w = k wal w.
Proof. intros H. apply bind_returned. by apply getWallet_run. Qed.

(** The pattern shared by every rule: find the delegate behind a vote and read
    its vote balance. *)
Lemma findDelegate_bind {A : Type} (pk d : string) (wd : Wallet)
  (k : string -> Wallet -> M A) (w : World) :
  walletByPublicKey (walletRepository w) pk = Some (d, wd) ->
  bind (findByPublicKey pk) (fun ref => bind (getWallet ref) (k ref)) w = k d wd w.
Proof.
  intros H. erewrite bind_returned; [|by eapply findByPublicKey_run].
  apply getWallet_bind. by eapply deref_lookup.
Qed.

(** *** The steps of [updateVoteBalances] *)

(** A transaction has one kind. *)
Lemma isCore_exclusive (ty ty' : TransactionType) (t : TransactionData) :
  ty <> ty' -> isCore ty t = true -> isCore ty' t = false.
Proof.
  unfold isCore. intros Hne [H1 H2]%andb_true_iff.
  apply bool_decide_eq_true in H1. apply andb_false_iff. left.
  apply bool_decide_eq_false. congruence.
Qed.

Ltac run_bind := erewrite bind_returned; [|reflexivity].

Lemma voteStep_run (sender : string) (t : TransactionData) (revert : bool) (w : World)
  (sign : ascii) (key : string) (rest : list string) (ws : Wallet) (d : string) (wd : Wallet) :
  asset t ≫= votes = Some (String sign key :: rest) ->
  byAddress (walletRepository w) !! sender = Some ws ->
  walletByPublicKey (walletRepository w) key = Some (d, wd) ->
  voteStep sender t revert w =
    (Returned tt,
     setRepo (withVotes d
       (if bool_decide (sign = "+"%char) then
          if revert
          then getVoteBalanceOrZero wd - (balance ws - tx_fee t)
          else getVoteBalanceOrZero wd + balance ws
        else
          if revert
          then getVoteBalanceOrZero wd + balance ws
          else getVoteBalanceOrZero wd - (balance ws + tx_fee t))
       (walletRepository w)) w).
Proof.
  intros Hv Hs Hd. unfold voteStep. rewrite Hv.
  erewrite bind_returned; [|reflexivity].
  erewrite bind_returned; [|reflexivity].
  cbn [substr_1]. erewrite findDelegate_bind; [|exact Hd].
  erewrite getWallet_bind; [|exact Hs].
  apply setVoteBalance_run.
Qed.

Lemma senderStep_run (sender : string) (t : TransactionData)
  (lockTransaction : option HtlcLockRecord) (revert : bool) (w : World)
  (od : option string) (change : Z) :
  backedDelegate (walletRepository w) sender = Some od ->
  senderChange t lockTransaction revert = Some change ->
  senderStep sender t lockTransaction revert w =
    (Returned tt, setRepo (addVotes od change (walletRepository w)) w).
Proof.
  intros Hb Hc. apply backedDelegate_Some in Hb as (ws & Hs & Hod).
  unfold senderStep. erewrite getWallet_bind; [|exact Hs].
  destruct od as [d|].
  - destruct Hod as (pk & wd & Hvote & Hd). rewrite Hvote.
    erewrite bind_returned; [|by eapply findByPublicKey_run].
    pose proof (deref_lookup _ _ _ _ Hd) as Hwd.
    unfold addVotes. rewrite (votesOf_lookup _ _ _ Hwd).
    unfold senderChange in Hc.
    destruct (isCore HtlcLock t) eqn:Elock.
    { injection Hc as <-.
      rewrite (isCore_exclusive HtlcLock MultiPayment) by done.
      run_bind. erewrite getWallet_bind; [|exact Hwd]. run_bind.
      rewrite setVoteBalance_run. destruct revert; do 3 f_equal; lia. }
    destruct (isCore HtlcClaim t) eqn:Eclaim.
    { destruct lockTransaction as [lock|]; [|done]. injection Hc as <-.
      rewrite (isCore_exclusive HtlcClaim MultiPayment) by done.
      run_bind. erewrite getWallet_bind; [|exact Hwd]. run_bind.
      rewrite setVoteBalance_run. destruct revert; do 3 f_equal; lia. }
    destruct (isCore MultiPayment t) eqn:Emp.
    { destruct (asset t ≫= payments) as [ps|]; [|done]. injection Hc as <-.
      run_bind. erewrite getWallet_bind; [|exact Hwd]. run_bind.
      rewrite setVoteBalance_run. destruct revert; do 3 f_equal; lia. }
    injection Hc as <-.
    run_bind. erewrite getWallet_bind; [|exact Hwd]. run_bind.
    rewrite setVoteBalance_run. destruct revert; do 3 f_equal; lia.
  - rewrite Hod. unfold addVotes, ret. by rewrite setRepo_id.
Qed.

Lemma lockOwnerStep_skip (t : TransactionData) (lockWallet : option string)
  (lockTransaction : option HtlcLockRecord) (revert : bool) (w : World) :
  isCore HtlcClaim t = false ->
  lockOwnerStep t lockWallet lockTransaction revert w = (Returned tt, w).
Proof. intros H. unfold lockOwnerStep. by rewrite H. Qed.

Lemma lockOwnerStep_run (t : TransactionData) (lockWallet : string)
  (lock : HtlcLockRecord) (revert : bool) (w : World) (od : option string) :
  isCore HtlcClaim t = true ->
  backedDelegate (walletRepository w) lockWallet = Some od ->
  lockOwnerStep t (Some lockWallet) (Some lock) revert w =
    (Returned tt,
     setRepo (addVotes od (if revert then lock_amount lock else - lock_amount lock)
                (walletRepository w)) w).
Proof.
  intros Hk Hb. apply backedDelegate_Some in Hb as (wo & Ho & Hod).
  unfold lockOwnerStep. rewrite Hk. run_bind.
  erewrite getWallet_bind; [|exact Ho].
  destruct od as [d|].
  - destruct Hod as (pk & wd & Hvote & Hd). rewrite Hvote.
    erewrite findDelegate_bind; [|exact Hd]. run_bind.
    pose proof (deref_lookup _ _ _ _ Hd) as Hwd.
    unfold addVotes. rewrite (votesOf_lookup _ _ _ Hwd).
    rewrite setVoteBalance_run. destruct revert; do 3 f_equal; lia.
  - rewrite Hod. unfold addVotes, ret. by rewrite setRepo_id.
Qed.

Lemma paymentStep_run (revert : bool) (p : MultiPaymentItem) (w : World) (od : option string) :
  backedDelegate (walletRepository w) (pay_recipientId p) = Some od ->
  paymentStep revert p w =
    (Returned tt,
     setRepo (addVotes od (if revert then - pay_amount p else pay_amount p)
                (walletRepository w)) w).
Proof.
  intros Hb. apply backedDelegate_Some in Hb as (wr & Hr & Hod).
  unfold paymentStep.
  erewrite bind_returned; [|eapply findByAddress_run; unfold walletByAddress, deref; by rewrite Hr].
  erewrite getWallet_bind; [|exact Hr].
  destruct od as [d|].
  - destruct Hod as (pk & wd & Hvote & Hd). rewrite Hvote.
    erewrite findDelegate_bind; [|exact Hd].
    pose proof (deref_lookup _ _ _ _ Hd) as Hwd.
    unfold addVotes. rewrite (votesOf_lookup _ _ _ Hwd).
    rewrite setVoteBalance_run. destruct revert; do 3 f_equal; lia.
  - rewrite Hod. unfold addVotes, ret. by rewrite setRepo_id.
Qed.

(** A payment to an address the repository does not know throws, and throws
    before anything is written for that payment. *)
Lemma paymentStep_unknown (revert : bool) (p : MultiPaymentItem) (w : World) :
  byAddress (walletRepository w) !! pay_recipientId p = None ->
  paymentStep revert p w = (Thrown AccountNotFound, w).
Proof.
  intros H. unfold paymentStep. apply bind_thrown. by apply findByAddress_fail.
Qed.

Lemma payments_run (revert : bool) (ps : list MultiPaymentItem) (w : World) :
  Forall (fun p => is_Some (backedDelegate (walletRepository w) (pay_recipientId p))) ps ->
  forEach (paymentStep revert) ps w =
    (Returned tt, setRepo (payRecipients revert ps (walletRepository w)) w).
Proof.
  revert w. induction ps as [|p ps IH]; intros w Hall.
  - unfold payRecipients. cbn. by rewrite setRepo_id.
  - apply Forall_cons in Hall as [[od Hod] Hall].
    cbn [forEach]. erewrite bind_returned; [|by apply paymentStep_run].
    rewrite IH.
    + unfold payRecipients. cbn [fold_left walletRepository setRepo]. by rewrite Hod.
    + cbn [walletRepository setRepo].
      eapply Forall_impl; [exact Hall|]. intros q Hq. cbn beta in Hq |- *.
      by rewrite backedDelegate_addVotes.
Qed.

Lemma paymentsStep_skip (t : TransactionData) (revert : bool) (w : World) :
  isCore MultiPayment t = false -> paymentsStep t revert w = (Returned tt, w).
Proof. intros H. unfold paymentsStep. by rewrite H. Qed.

Lemma paymentsStep_run (t : TransactionData) (revert : bool) (ps : list MultiPaymentItem) (w : World) :
  isCore MultiPayment t = true ->
  asset t ≫= payments = Some ps ->
  Forall (fun p => is_Some (backedDelegate (walletRepository w) (pay_recipientId p))) ps ->
  paymentsStep t revert w =
    (Returned tt, setRepo (payRecipients revert ps (walletRepository w)) w).
Proof.
  intros Hk Hps Hall. unfold paymentsStep. rewrite Hk, Hps. run_bind.
  by apply payments_run.
Qed.

Lemma recipientStep_none (t : TransactionData) (revert : bool) (w : World) :
  recipientStep None t revert w = (Returned tt, w).
Proof. reflexivity. Qed.

Lemma recipientStep_run (recipient : string) (t : TransactionData) (revert : bool)
  (w : World) (od : option string) :
  backedDelegate (walletRepository w) recipient = Some od ->
  recipientStep (Some recipient) t revert w =
    (Returned tt,
     setRepo (addVotes (if isCore HtlcLock t then None else od)
                (if revert then - tx_amount t else tx_amount t)
                (walletRepository w)) w).
Proof.
  intros Hb. apply backedDelegate_Some in Hb as (wr & Hr & Hod).
  unfold recipientStep. erewrite getWallet_bind; [|exact Hr].
  destruct od as [d|].
  - destruct Hod as (pk & wd & Hvote & Hd). rewrite Hvote.
    destruct (isCore HtlcLock t); cbn [negb].
    + unfold addVotes, ret. by rewrite setRepo_id.
    + erewrite findDelegate_bind; [|exact Hd].
      pose proof (deref_lookup _ _ _ _ Hd) as Hwd.
      unfold addVotes. rewrite (votesOf_lookup _ _ _ Hwd).
      rewrite setVoteBalance_run. destruct revert; do 3 f_equal; lia.
  - rewrite Hod. destruct (isCore HtlcLock t); unfold addVotes, ret; by rewrite setRepo_id.
Qed.

Lemma recipientStep_run_opt (recipient : option string) (t : TransactionData) (revert : bool)
  (w : World) (od : option string) :
  backedBy (walletRepository w) recipient = Some od ->
  recipientStep recipient t revert w =
    (Returned tt,
     setRepo (addVotes (if isCore HtlcLock t then None else od)
                (if revert then - tx_amount t else tx_amount t)
                (walletRepository w)) w).
Proof.
  destruct recipient as [rc|]; [apply recipientStep_run|].
  intros [= <-]. rewrite recipientStep_none.
  destruct (isCore HtlcLock t); cbn [addVotes]; by rewrite setRepo_id.
Qed.

Lemma backedBy_addVotes (d : option string) (change : Z) (r : WalletRepository)
  (ref : option string) :
  backedBy (addVotes d change r) ref = backedBy r ref.
Proof. destruct ref; [apply backedDelegate_addVotes | done]. Qed.

Lemma backedDelegate_payRecipients (revert : bool) (ps : list MultiPaymentItem)
  (r : WalletRepository) (ref : string) :
  backedDelegate (payRecipients revert ps r) ref = backedDelegate r ref.
Proof.
  revert r. induction ps as [|p ps IH]; intros r; [done|].
  unfold payRecipients in *. cbn [fold_left]. rewrite IH.
  apply backedDelegate_addVotes.
Qed.

(** *** [applyTransaction] and [revertTransaction] around the handler *)

Section Transactions.

Variable registry : TransactionData -> Outcome TransactionHandler.

Lemma lockContext_skip (t : Transaction) (w : World) :
  isCore HtlcClaim (tx_data t) = false ->
  lockContext t w = (Returned (None, None), w).
Proof. intros H. unfold lockContext. by rewrite H. Qed.

Lemma lockContext_run (t : Transaction) (w : World) (c : HtlcClaimAsset)
  (lockWallet : string) (owner : Wallet) :
  isCore HtlcClaim (tx_data t) = true ->
  asset (tx_data t) ≫= claim = Some c ->
  walletByLockId (walletRepository w) (lockTransactionId c) = Some (lockWallet, owner) ->
  lockContext t w =
    (Returned (Some lockWallet, locks owner !! lockTransactionId c), w).
Proof.
  intros Hk Hc Hl. unfold lockContext. rewrite Hk, Hc. run_bind.
  erewrite bind_returned; [|by eapply findByLockId_run].
  erewrite getWallet_bind; [done|]. by eapply deref_lookup.
Qed.

(** Apply: the lock context is read first, the handler runs, and the vote
    balances are updated in the repository that the handler left. *)
Lemma applyTransaction_run (t : Transaction) (h : TransactionHandler) (w : World)
  (lockCtx : option string * option HtlcLockRecord) (r1 : WalletRepository)
  (spk s : string) (ws : Wallet) :
  registry (tx_data t) = Returned h ->
  lockContext t w = (Returned lockCtx, w) ->
  handler_apply h t (walletRepository w) = (Returned tt, r1) ->
  senderPublicKey (tx_data t) = Some spk ->
  walletByPublicKey r1 spk = Some (s, ws) ->
  applyTransaction registry t w =
    updateVoteBalances s (recipientOf r1 (tx_data t)) (tx_data t)
      (fst lockCtx) (snd lockCtx) false (setRepo r1 w).
Proof.
  intros Hreg Hlock Hap Hspk Hs. unfold applyTransaction.
  erewrite bind_returned; [|unfold getHandler; by rewrite Hreg].
  erewrite bind_returned; [|exact Hlock].
  erewrite bind_returned; [|by apply callHandler_run].
  rewrite Hspk. run_bind.
  erewrite bind_returned; [|by eapply findByPublicKey_run].
  erewrite bind_returned; [|apply lookupRecipient_run].
  reflexivity.
Qed.

(** Revert: sender and recipient are looked up first, the handler runs, the
    lock context is read from what the handler left, and the vote balances are
    updated there. *)
Lemma revertTransaction_run (t : Transaction) (h : TransactionHandler) (w : World)
  (lockCtx : option string * option HtlcLockRecord) (r1 : WalletRepository)
  (spk s : string) (ws0 : Wallet) :
  registry (tx_data t) = Returned h ->
  senderPublicKey (tx_data t) = Some spk ->
  walletByPublicKey (walletRepository w) spk = Some (s, ws0) ->
  handler_revert h t (walletRepository w) = (Returned tt, r1) ->
  lockContext t (setRepo r1 w) = (Returned lockCtx, setRepo r1 w) ->
  revertTransaction registry t w =
    updateVoteBalances s (recipientOf (walletRepository w) (tx_data t)) (tx_data t)
      (fst lockCtx) (snd lockCtx) true (setRepo r1 w).
Proof.
  intros Hreg Hspk Hs Hre Hlock. unfold revertTransaction.
  erewrite bind_returned; [|unfold getHandler; by rewrite Hreg].
  rewrite Hspk. run_bind.
  erewrite bind_returned; [|by eapply findByPublicKey_run].
  erewrite bind_returned; [|apply lookupRecipient_run].
  erewrite bind_returned; [|by apply callHandler_run].
  erewrite bind_returned; [|exact Hlock].
  reflexivity.
Qed.

(** ** The vote rule *)

(** C3: for a vote transaction, the vote balance of the delegate named by the
    vote changes as follows.  On apply a vote signed [+] adds the sender's
    balance, and any other sign (the unvote [-]) subtracts the sender's balance
    plus the fee.  On revert the [+] vote subtracts the sender's balance minus
    the fee, and the unvote adds the sender's balance.  In both directions the
    balance is the one in the repository that the handler left: the update
    runs after the handler. *)
Theorem vote_rule_after_handler (t : Transaction) (h : TransactionHandler)
  (sign : ascii) (key : string) (rest : list string) (spk : string) :
  isCore Vote (tx_data t) = true ->
  registry (tx_data t) = Returned h ->
  asset (tx_data t) ≫= votes = Some (String sign key :: rest) ->
  senderPublicKey (tx_data t) = Some spk ->
  (forall (w : World) (r1 : WalletRepository) (s : string) (ws : Wallet)
          (d : string) (wd : Wallet),
     handler_apply h t (walletRepository w) = (Returned tt, r1) ->
     walletByPublicKey r1 spk = Some (s, ws) ->
     walletByPublicKey r1 key = Some (d, wd) ->
     applyTransaction registry t w =
       (Returned tt,
        setRepo (withVotes d
          (if bool_decide (sign = "+"%char)
           then getVoteBalanceOrZero wd + balance ws
           else getVoteBalanceOrZero wd - (balance ws + tx_fee (tx_data t))) r1) w))
  /\
  (forall (w : World) (r1 : WalletRepository) (s : string) (ws0 ws : Wallet)
          (d : string) (wd : Wallet),
     walletByPublicKey (walletRepository w) spk = Some (s, ws0) ->
     handler_revert h t (walletRepository w) = (Returned tt, r1) ->
     byAddress r1 !! s = Some ws ->
     walletByPublicKey r1 key = Some (d, wd) ->
     revertTransaction registry t w =
       (Returned tt,
        setRepo (withVotes d
          (if bool_decide (sign = "+"%char)
           then getVoteBalanceOrZero wd - (balance ws - tx_fee (tx_data t))
           else getVoteBalanceOrZero wd + balance ws) r1) w)).
Proof.
  intros Hk Hreg Hv Hspk.
  assert (Hnc : isCore HtlcClaim (tx_data t) = false)
    by (by apply (isCore_exclusive Vote)).
  split.
  - intros w r1 s ws d wd Hap Hs Hd.
    erewrite applyTransaction_run; [|done|by apply lockContext_skip|done..].
    unfold updateVoteBalances. rewrite Hk.
    erewrite voteStep_run; [done|done|by eapply deref_lookup|done].
  - intros w r1 s ws0 ws d wd Hs Hre Hws Hd.
    erewrite revertTransaction_run; [|done|done|done|done|by apply lockContext_skip].
    unfold updateVoteBalances. rewrite Hk.
    erewrite voteStep_run; [done|done|done|done].
Qed.

(** ** The claim rule *)

(** What [updateVoteBalances] does for a claim, in either direction. *)
Lemma updateVoteBalances_claim (s : string) (rc : option string) (t : TransactionData)
  (lockWallet : string) (lock : HtlcLockRecord) (revert : bool) (w : World)
  (od od' odr : option string) :
  isCore HtlcClaim t = true ->
  backedDelegate (walletRepository w) s = Some od ->
  backedDelegate (walletRepository w) lockWallet = Some od' ->
  backedBy (walletRepository w) rc = Some odr ->
  updateVoteBalances s rc t (Some lockWallet) (Some lock) revert w =
    (Returned tt,
     setRepo
       (addVotes odr (if revert then - tx_amount t else tx_amount t)
         (addVotes od' (if revert then lock_amount lock else - lock_amount lock)
           (addVotes od (if revert then tx_fee t - lock_amount lock
                         else - tx_fee t + lock_amount lock)
              (walletRepository w)))) w).
Proof.
  intros Hk Hs Ho Hr. unfold updateVoteBalances.
  rewrite (isCore_exclusive HtlcClaim Vote) by done.
  erewrite bind_returned; [|eapply senderStep_run; [exact Hs|]].
  2: { unfold senderChange. rewrite (isCore_exclusive HtlcClaim HtlcLock) by done.
       rewrite Hk. reflexivity. }
  erewrite bind_returned;
    [|eapply lockOwnerStep_run; [done|cbn [walletRepository setRepo];
                                 by rewrite backedDelegate_addVotes]].
  erewrite bind_returned;
    [|apply paymentsStep_skip; by apply (isCore_exclusive HtlcClaim)].
  erewrite recipientStep_run_opt;
    [|cbn [walletRepository setRepo]; by rewrite !backedBy_addVotes].
  rewrite (isCore_exclusive HtlcClaim HtlcLock) by done.
  cbn [walletRepository setRepo].
  destruct revert; unfold setRepo; cbn [faults]; do 2 f_equal;
    f_equal; f_equal; f_equal; lia.
Qed.

(** C4: for a claim of a timed lock.  The lock is found through the lock index
    and its record is read from the owner's [htlc.locks]; the amount of that
    record is the locked amount.  If the claimer backs a delegate D, applying
    subtracts the fee from V(D) and adds the locked amount, and reverting adds
    the fee and subtracts the locked amount.  If the owner of the lock backs a
    delegate D', applying subtracts the locked amount from V(D') and reverting
    adds it back.  ([addVotes None] changes nothing: the rule of a wallet that
    backs nobody.  The last, outer change is the rule of the recipient, for a
    claim that names one.) *)
Theorem claim_rule (t : Transaction) (h : TransactionHandler) (c : HtlcClaimAsset)
  (spk : string) :
  isCore HtlcClaim (tx_data t) = true ->
  registry (tx_data t) = Returned h ->
  asset (tx_data t) ≫= claim = Some c ->
  senderPublicKey (tx_data t) = Some spk ->
  (forall (w : World) (lockWallet : string) (owner0 : Wallet) (lock : HtlcLockRecord)
          (r1 : WalletRepository) (s : string) (ws : Wallet) (od od' odr : option string),
     walletByLockId (walletRepository w) (lockTransactionId c) = Some (lockWallet, owner0) ->
     locks owner0 !! lockTransactionId c = Some lock ->
     handler_apply h t (walletRepository w) = (Returned tt, r1) ->
     walletByPublicKey r1 spk = Some (s, ws) ->
     backedDelegate r1 s = Some od ->
     backedDelegate r1 lockWallet = Some od' ->
     backedBy r1 (recipientOf r1 (tx_data t)) = Some odr ->
     applyTransaction registry t w =
       (Returned tt,
        setRepo
          (addVotes odr (tx_amount (tx_data t))
            (addVotes od' (- lock_amount lock)
              (addVotes od (- tx_fee (tx_data t) + lock_amount lock) r1))) w))
  /\
  (forall (w : World) (s : string) (ws0 : Wallet) (r1 : WalletRepository)
          (lockWallet : string) (owner : Wallet) (lock : HtlcLockRecord)
          (od od' odr : option string),
     walletByPublicKey (walletRepository w) spk = Some (s, ws0) ->
     handler_revert h t (walletRepository w) = (Returned tt, r1) ->
     walletByLockId r1 (lockTransactionId c) = Some (lockWallet, owner) ->
     locks owner !! lockTransactionId c = Some lock ->
     backedDelegate r1 s = Some od ->
     backedDelegate r1 lockWallet = Some od' ->
     backedBy r1 (recipientOf (walletRepository w) (tx_data t)) = Some odr ->
     revertTransaction registry t w =
       (Returned tt,
        setRepo
          (addVotes odr (- tx_amount (tx_data t))
            (addVotes od' (lock_amount lock)
              (addVotes od (tx_fee (tx_data t) - lock_amount lock) r1))) w)).
Proof.
  intros Hk Hreg Hc Hspk. split.
  - intros w lockWallet owner0 lock r1 s ws od od' odr Hl Hlock Hap Hs Hod Hod' Hodr.
    erewrite applyTransaction_run; [|done|by eapply lockContext_run|done..].
    cbn [fst snd]. rewrite Hlock.
    by erewrite updateVoteBalances_claim.
  - intros w s ws0 r1 lockWallet owner lock od od' odr Hs Hre Hl Hlock Hod Hod' Hodr.
    erewrite revertTransaction_run;
      [|done|done|done|done|by eapply lockContext_run].
    cbn [fst snd]. rewrite Hlock.
    by erewrite updateVoteBalances_claim.
Qed.

(** ** The multi-payment rule *)

Lemma updateVoteBalances_multiPayment (s : string) (rc : option string) (t : TransactionData)
  (lockWallet : option string) (lockTransaction : option HtlcLockRecord)
  (ps : list MultiPaymentItem) (revert : bool) (w : World) (od odr : option string) :
  isCore MultiPayment t = true ->
  asset t ≫= payments = Some ps ->
  backedDelegate (walletRepository w) s = Some od ->
  Forall (fun p => is_Some (backedDelegate (walletRepository w) (pay_recipientId p))) ps ->
  backedBy (walletRepository w) rc = Some odr ->
  updateVoteBalances s rc t lockWallet lockTransaction revert w =
    (Returned tt,
     setRepo
       (addVotes odr (if revert then - tx_amount t else tx_amount t)
         (payRecipients revert ps
           (addVotes od (if revert then sumPayments ps + tx_fee t
                         else - (sumPayments ps + tx_fee t))
              (walletRepository w)))) w).
Proof.
  intros Hk Hps Hs Hall Hr. unfold updateVoteBalances.
  rewrite (isCore_exclusive MultiPayment Vote) by done.
  erewrite bind_returned; [|eapply senderStep_run; [exact Hs|]].
  2: { unfold senderChange.
       rewrite (isCore_exclusive MultiPayment HtlcLock) by done.
       rewrite (isCore_exclusive MultiPayment HtlcClaim) by done.
       rewrite Hk, Hps. reflexivity. }
  erewrite bind_returned;
    [|apply lockOwnerStep_skip; by apply (isCore_exclusive MultiPayment)].
  erewrite bind_returned; [|eapply paymentsStep_run; [done|done|]].
  2: { cbn [walletRepository setRepo]. eapply Forall_impl; [exact Hall|].
       intros p Hp. cbn beta in *. by rewrite backedDelegate_addVotes. }
  erewrite recipientStep_run_opt.
  2: { cbn [walletRepository setRepo]. destruct rc as [a|]; [|done]. cbn [backedBy] in *.
       by rewrite backedDelegate_payRecipients, backedDelegate_addVotes. }
  rewrite (isCore_exclusive MultiPayment HtlcLock) by done.
  cbn [walletRepository setRepo]. by destruct revert.
Qed.

(** C5: for a multi-payment, the delegate that the sender backs is charged the
    sum of the amounts of the payments in [asset.payments] plus the fee (the
    top-level [amount] is not what is charged), and for each payment the
    delegate that its recipient backs gains the payment's amount on apply and
    loses it on revert ([payRecipients]). *)
Theorem multiPayment_rule (t : Transaction) (h : TransactionHandler)
  (ps : list MultiPaymentItem) (spk : string) :
  isCore MultiPayment (tx_data t) = true ->
  registry (tx_data t) = Returned h ->
  asset (tx_data t) ≫= payments = Some ps ->
  senderPublicKey (tx_data t) = Some spk ->
  (forall (w : World) (r1 : WalletRepository) (s : string) (ws : Wallet)
          (od odr : option string),
     handler_apply h t (walletRepository w) = (Returned tt, r1) ->
     walletByPublicKey r1 spk = Some (s, ws) ->
     backedDelegate r1 s = Some od ->
     Forall (fun p => is_Some (backedDelegate r1 (pay_recipientId p))) ps ->
     backedBy r1 (recipientOf r1 (tx_data t)) = Some odr ->
     applyTransaction registry t w =
       (Returned tt,
        setRepo
          (addVotes odr (tx_amount (tx_data t))
            (payRecipients false ps
              (addVotes od (- (sumPayments ps + tx_fee (tx_data t))) r1))) w))
  /\
  (forall (w : World) (s : string) (ws0 : Wallet) (r1 : WalletRepository)
          (od odr : option string),
     walletByPublicKey (walletRepository w) spk = Some (s, ws0) ->
     handler_revert h t (walletRepository w) = (Returned tt, r1) ->
     backedDelegate r1 s = Some od ->
     Forall (fun p => is_Some (backedDelegate r1 (pay_recipientId p))) ps ->
     backedBy r1 (recipientOf (walletRepository w) (tx_data t)) = Some odr ->
     revertTransaction registry t w =
       (Returned tt,
        setRepo
          (addVotes odr (- tx_amount (tx_data t))
            (payRecipients true ps
              (addVotes od (sumPayments ps + tx_fee (tx_data t)) r1))) w)).
Proof.
  intros Hk Hreg Hps Hspk.
  assert (Hnc : isCore HtlcClaim (tx_data t) = false)
    by (by apply (isCore_exclusive MultiPayment)).
  split.
  - intros w r1 s ws od odr Hap Hs Hod Hall Hodr.
    erewrite applyTransaction_run; [|done|by apply lockContext_skip|done..].
    by erewrite updateVoteBalances_multiPayment.
  - intros w s ws0 r1 od odr Hs Hre Hod Hall Hodr.
    erewrite revertTransaction_run; [|done|done|done|done|by apply lockContext_skip].
    by erewrite updateVoteBalances_multiPayment.
Qed.

(** ** A recipient that the repository does not know *)

Lemma bind_unit_ret (m : M unit) (w : World) :
  bind m (fun _ => ret tt) w = m w.
Proof. unfold bind, ret. by destruct (m w) as [[[]|e] w']. Qed.

Lemma bind_ext {A B : Type} (m : M A) (k k' : A -> M B) (w : World) :
  (forall a w', k a w' = k' a w') -> bind m k w = bind m k' w.
Proof. intros H. unfold bind. destruct (m w) as [[a|e] w']; [apply H | done]. Qed.

Lemma recipientOf_unknown (r : WalletRepository) (t : TransactionData) (rid : string) :
  truthy (recipientId t) = Some rid ->
  byAddress r !! rid = None ->
  recipientOf r t = None.
Proof.
  intros Hrid Hno. unfold recipientOf, walletByAddress, deref. by rewrite Hrid, Hno.
Qed.

Lemma updateVoteBalances_no_recipient (s : string) (t : TransactionData)
  (lockWallet : option string) (lockTransaction : option HtlcLockRecord)
  (revert : bool) (w : World) :
  updateVoteBalances s None t lockWallet lockTransaction revert w =
    (if isCore Vote t then voteStep s t revert
     else
       do senderStep s t lockTransaction revert then
       do lockOwnerStep t lockWallet lockTransaction revert then
       paymentsStep t revert) w.
Proof.
  unfold updateVoteBalances. destruct (isCore Vote t); [done|].
  apply bind_ext. intros _ w1. apply bind_ext. intros _ w2.
  apply bind_unit_ret.
Qed.

(** C9: a transaction whose [recipientId] names an address that the repository
    does not know.  The recipient is looked up behind [hasByAddress], so the
    lookup does not throw; the transaction is applied (and reverted) with the
    sender's rule, the lock owner's rule and the payments' rule, and the
    recipient's rule is left out.  The recipients of the payments of a
    multi-payment are looked up without that guard: a payment to an unknown
    address throws [AccountNotFound], after the handler and the earlier
    payments have written. *)
Theorem unknown_recipient_is_skipped :
  (forall (t : Transaction) (h : TransactionHandler) (spk rid : string) (w : World)
          (lockCtx : option string * option HtlcLockRecord) (r1 : WalletRepository)
          (s : string) (ws : Wallet),
     registry (tx_data t) = Returned h ->
     senderPublicKey (tx_data t) = Some spk ->
     truthy (recipientId (tx_data t)) = Some rid ->
     lockContext t w = (Returned lockCtx, w) ->
     handler_apply h t (walletRepository w) = (Returned tt, r1) ->
     walletByPublicKey r1 spk = Some (s, ws) ->
     byAddress r1 !! rid = None ->
     lookupRecipient t (setRepo r1 w) = (Returned None, setRepo r1 w) /\
     applyTransaction registry t w =
       (if isCore Vote (tx_data t) then voteStep s (tx_data t) false
        else
          do senderStep s (tx_data t) (snd lockCtx) false then
          do lockOwnerStep (tx_data t) (fst lockCtx) (snd lockCtx) false then
          paymentsStep (tx_data t) false) (setRepo r1 w))
  /\
  (forall (t : Transaction) (h : TransactionHandler) (spk rid : string) (w : World)
          (s : string) (ws0 : Wallet) (r1 : WalletRepository)
          (lockCtx : option string * option HtlcLockRecord),
     registry (tx_data t) = Returned h ->
     senderPublicKey (tx_data t) = Some spk ->
     truthy (recipientId (tx_data t)) = Some rid ->
     walletByPublicKey (walletRepository w) spk = Some (s, ws0) ->
     byAddress (walletRepository w) !! rid = None ->
     handler_revert h t (walletRepository w) = (Returned tt, r1) ->
     lockContext t (setRepo r1 w) = (Returned lockCtx, setRepo r1 w) ->
     lookupRecipient t w = (Returned None, w) /\
     revertTransaction registry t w =
       (if isCore Vote (tx_data t) then voteStep s (tx_data t) true
        else
          do senderStep s (tx_data t) (snd lockCtx) true then
          do lockOwnerStep (tx_data t) (fst lockCtx) (snd lockCtx) true then
          paymentsStep (tx_data t) true) (setRepo r1 w))
  /\
  (forall (t : Transaction) (h : TransactionHandler) (spk : string) (w : World)
          (r1 : WalletRepository) (s : string) (ws : Wallet) (od : option string)
          (known : list MultiPaymentItem) (p : MultiPaymentItem)
          (rest : list MultiPaymentItem),
     isCore MultiPayment (tx_data t) = true ->
     registry (tx_data t) = Returned h ->
     senderPublicKey (tx_data t) = Some spk ->
     asset (tx_data t) ≫= payments = Some (known ++ p :: rest) ->
     handler_apply h t (walletRepository w) = (Returned tt, r1) ->
     walletByPublicKey r1 spk = Some (s, ws) ->
     backedDelegate r1 s = Some od ->
     Forall (fun q => is_Some (backedDelegate r1 (pay_recipientId q))) known ->
     byAddress r1 !! pay_recipientId p = None ->
     applyTransaction registry t w =
       (Thrown AccountNotFound,
        setRepo
          (payRecipients false known
            (addVotes od (- (sumPayments (known ++ p :: rest) + tx_fee (tx_data t))) r1))
          w)).
Proof.
  split; [|split].
  - intros t h spk rid w lockCtx r1 s ws Hreg Hspk Hrid Hlock Hap Hs Hno.
    pose proof (recipientOf_unknown r1 (tx_data t) rid Hrid Hno) as Hrc.
    split.
    + rewrite lookupRecipient_run. cbn [walletRepository setRepo]. by rewrite Hrc.
    + erewrite applyTransaction_run; [|done..].
      rewrite Hrc. apply updateVoteBalances_no_recipient.
  - intros t h spk rid w s ws0 r1 lockCtx Hreg Hspk Hrid Hs Hno Hre Hlock.
    pose proof (recipientOf_unknown (walletRepository w) (tx_data t) rid Hrid Hno) as Hrc.
    split.
    + rewrite lookupRecipient_run. by rewrite Hrc.
    + erewrite revertTransaction_run; [|done..].
      rewrite Hrc. apply updateVoteBalances_no_recipient.
  - intros t h spk w r1 s ws od known p rest Hk Hreg Hspk Hps Hap Hs Hod Hall Hno.
    erewrite applyTransaction_run;
      [|done|apply lockContext_skip; by apply (isCore_exclusive MultiPayment)|done..].
    unfold updateVoteBalances.
    rewrite (isCore_exclusive MultiPayment Vote) by done.
    erewrite bind_returned; [|eapply senderStep_run; [exact Hod|]].
    2: { unfold senderChange.
         rewrite (isCore_exclusive MultiPayment HtlcLock) by done.
         rewrite (isCore_exclusive MultiPayment HtlcClaim) by done.
         rewrite Hk, Hps. reflexivity. }
    erewrite bind_returned;
      [|apply lockOwnerStep_skip; by apply (isCore_exclusive MultiPayment)].
    apply bind_thrown. unfold paymentsStep. rewrite Hk, Hps. run_bind.
    cbn [walletRepository setRepo].
    set (r2 := addVotes od _ r1).
    assert (Hall2 : Forall (fun q => is_Some (backedDelegate r2 (pay_recipientId q))) known).
    { eapply Forall_impl; [exact Hall|]. intros q Hq. cbn beta in *.
      unfold r2. by rewrite backedDelegate_addVotes. }
    assert (Hno2 : byAddress r2 !! pay_recipientId p = None).
    { unfold r2, addVotes. destruct od as [d|]; [|done].
      rewrite lookup_withVotes. destruct (decide (d = pay_recipientId p)) as [->|]; [|done].
      by rewrite Hno. }
    clearbody r2. clear Hall Hno Hod Hs Hap Hps.
    revert r2 Hall2 Hno2. induction known as [|q known IH]; intros r2 Hall2 Hno2.
    + cbn [app forEach]. apply bind_thrown.
      unfold payRecipients. cbn [fold_left]. by apply paymentStep_unknown.
    + apply Forall_cons in Hall2 as [[oq Hoq] Hall2].
      cbn [app forEach].
      erewrite bind_returned; [|by apply paymentStep_run].
      cbn [walletRepository setRepo].
      unfold payRecipients. cbn [fold_left]. rewrite Hoq. cbn [default].
      apply IH.
      * eapply Forall_impl; [exact Hall2|]. intros q' Hq'. cbn beta in *.
        by rewrite backedDelegate_addVotes.
      * unfold addVotes. destruct oq as [d|]; [|done].
        rewrite lookup_withVotes. destruct (decide (d = pay_recipientId p)) as [->|]; [|done].
        by rewrite Hno2.
Qed.

End Transactions.

(** ** Only the first vote counts *)

(** C10: of the votes array only the first element is read.  Replacing the
    other elements changes nothing of what [updateVoteBalances] does; and for a
    vote, the first element names the one delegate whose vote balance is
    written and chooses the sign, and no other wallet is written. *)
Theorem only_first_vote_is_read :
  (forall (s : string) (rc : option string) (t : TransactionData)
          (lockWallet : option string) (lockTransaction : option HtlcLockRecord)
          (revert : bool) (w : World) (v : string) (rest rest' : list string),
     updateVoteBalances s rc (withVotesList (v :: rest) t) lockWallet lockTransaction revert w =
     updateVoteBalances s rc (withVotesList (v :: rest') t) lockWallet lockTransaction revert w)
  /\
  (forall (s : string) (rc : option string) (t : TransactionData)
          (lockWallet : option string) (lockTransaction : option HtlcLockRecord)
          (revert : bool) (w : World) (sign : ascii) (key : string) (rest : list string)
          (ws : Wallet) (d : string) (wd : Wallet),
     isCore Vote t = true ->
     asset t ≫= votes = Some (String sign key :: rest) ->
     byAddress (walletRepository w) !! s = Some ws ->
     walletByPublicKey (walletRepository w) key = Some (d, wd) ->
     exists v : Z,
       updateVoteBalances s rc t lockWallet lockTransaction revert w =
         (Returned tt, setRepo (withVotes d v (walletRepository w)) w) /\
       v = (if bool_decide (sign = "+"%char) then
              if revert
              then getVoteBalanceOrZero wd - (balance ws - tx_fee t)
              else getVoteBalanceOrZero wd + balance ws
            else
              if revert
              then getVoteBalanceOrZero wd + balance ws
              else getVoteBalanceOrZero wd - (balance ws + tx_fee t)) /\
       forall ref : string, ref <> d ->
         byAddress (withVotes d v (walletRepository w)) !! ref =
         byAddress (walletRepository w) !! ref).
Proof.
  split.
  - intros s rc t lockWallet lockTransaction revert w v rest rest'.
    unfold updateVoteBalances.
    change (isCore Vote (withVotesList (v :: rest) t)) with (isCore Vote t).
    change (isCore Vote (withVotesList (v :: rest') t)) with (isCore Vote t).
    destruct (isCore Vote t); reflexivity.
  - intros s rc t lockWallet lockTransaction revert w sign key rest ws d wd Hk Hv Hs Hd.
    eexists. split; [|split; [reflexivity|]].
    + unfold updateVoteBalances. rewrite Hk. by erewrite voteStep_run.
    + intros ref Hne. rewrite lookup_withVotes. by destruct (decide (d = ref)).
Qed.

(** ** Blocks *)

Lemma alter_wallet_lookup (f : Wallet -> Wallet) (ref : string) (wal : Wallet)
  (r : WalletRepository) :
  byAddress r !! ref = Some wal ->
  alter_wallet f ref r = putWallet ref (f wal) r.
Proof.
  intros H. unfold alter_wallet, putWallet. f_equal.
  apply map_eq. intros a. rewrite lookup_alter, lookup_insert.
  destruct (decide (ref = a)) as [<-|]; [by rewrite H | done].
Qed.

Lemma lookup_putWallet_eq (ref : string) (wal : Wallet) (r : WalletRepository) :
  byAddress (putWallet ref wal r) !! ref = Some wal.
Proof. unfold putWallet, setWallets. cbn [byAddress]. apply lookup_insert_eq. Qed.

Lemma putWallet_putWallet (ref : string) (x y : Wallet) (r : WalletRepository) :
  putWallet ref y (putWallet ref x r) = putWallet ref y r.
Proof.
  unfold putWallet, setWallets. cbn [byAddress byPublicKey byLocks].
  by rewrite insert_insert_eq.
Qed.

Lemma alter_putWallet (f : Wallet -> Wallet) (ref : string) (wal : Wallet)
  (r : WalletRepository) :
  alter_wallet f ref (putWallet ref wal r) = putWallet ref (f wal) r.
Proof.
  rewrite (alter_wallet_lookup f ref wal) by apply lookup_putWallet_eq.
  apply putWallet_putWallet.
Qed.

Lemma forEach_app {A : Type} (f : A -> M unit) (xs ys : list A) (w : World) :
  forEach f (xs ++ ys) w = bind (forEach f xs) (fun _ => forEach f ys) w.
Proof.
  revert w. induction xs as [|x xs IH]; intros w; [done|].
  cbn [app forEach].
  destruct (f x w) as [[[]|e] w1] eqn:E.
  - erewrite bind_returned; [|exact E]. rewrite IH.
    symmetry. unfold bind at 1. erewrite bind_returned; [|exact E]. reflexivity.
  - erewrite bind_thrown; [|exact E].
    symmetry. apply bind_thrown. by apply bind_thrown.
Qed.

Section Blocks.

Variable fromPublicKey : string -> string.
Variable registry : TransactionData -> Outcome TransactionHandler.

Lemma resolveGenerator_known (block : Block) (w : World) (g : string) (wg : Wallet) :
  has_key (b_generatorPublicKey (b_data block)) (walletRepository w) = true ->
  walletByPublicKey (walletRepository w) (b_generatorPublicKey (b_data block)) = Some (g, wg) ->
  resolveGenerator fromPublicKey block w = (Returned (Some g), w).
Proof.
  intros Hhas Hg. unfold resolveGenerator.
  erewrite bind_returned; [|reflexivity]. cbn [walletRepository]. rewrite Hhas. cbn [negb].
  erewrite bind_returned; [done | by eapply findByPublicKey_run].
Qed.

Lemma resolveGenerator_genesis (block : Block) (w : World) :
  has_key (b_generatorPublicKey (b_data block)) (walletRepository w) = false ->
  b_height (b_data block) = 1 ->
  resolveGenerator fromPublicKey block w =
    (Returned (Some (fromPublicKey (b_generatorPublicKey (b_data block)))),
     setRepo (reindex_repo (fromPublicKey (b_generatorPublicKey (b_data block)))
                (mkWallet (Some (b_generatorPublicKey (b_data block))) 0 None None ∅)
                (walletRepository w)) w).
Proof.
  intros Hhas Hh. unfold resolveGenerator.
  erewrite bind_returned; [|reflexivity]. cbn [walletRepository]. rewrite Hhas, Hh.
  reflexivity.
Qed.

Lemma resolveGenerator_unknown (block : Block) (w : World) :
  has_key (b_generatorPublicKey (b_data block)) (walletRepository w) = false ->
  b_height (b_data block) <> 1 ->
  resolveGenerator fromPublicKey block w =
    (Returned None, mkWorld (walletRepository w) (faults w ++ [lookupFailure block])).
Proof.
  intros Hhas Hh. unfold resolveGenerator.
  erewrite bind_returned; [|reflexivity]. cbn [walletRepository]. rewrite Hhas.
  apply Z.eqb_neq in Hh. rewrite Hh. reflexivity.
Qed.

Lemma applyBlockToDelegate_other (g : string) (wg : Wallet) (bd : BlockData) (w : World) :
  byAddress (walletRepository w) !! g = Some wg ->
  isGenerator fromPublicKey g wg bd = false ->
  applyBlockToDelegate fromPublicKey g bd w = (Returned false, w).
Proof.
  intros Hg Hno. unfold applyBlockToDelegate.
  erewrite getWallet_bind; [|exact Hg]. by rewrite Hno.
Qed.

Lemma applyBlockToDelegate_run (g : string) (wg : Wallet) (bd : BlockData) (w : World)
  (dg : WalletDelegateAttributes) (ff fr : Z) :
  byAddress (walletRepository w) !! g = Some wg ->
  isGenerator fromPublicKey g wg bd = true ->
  delegate wg = Some dg ->
  forgedFees dg = Some ff ->
  forgedRewards dg = Some fr ->
  applyBlockToDelegate fromPublicKey g bd w =
    (Returned true,
     setRepo (putWallet g
       (mkWallet (publicKey wg) (balance wg + b_reward bd + b_totalFee bd) (vote wg)
          (Some (mkDelegate (voteBalance dg) ((fun n => number_add n 1) <$> producedBlocks dg)
                   (Some (ff + b_totalFee bd)) (Some (fr + b_reward bd)) (Some bd)))
          (locks wg))
       (walletRepository w)) w).
Proof.
  intros Hg Hgen Hd Hff Hfr. unfold applyBlockToDelegate.
  erewrite getWallet_bind; [|exact Hg]. rewrite Hgen.
  destruct wg as [pk bal vt dl lk]. cbn in Hd. subst dl.
  destruct dg as [vb pb ffo fro lb]. cbn in Hff, Hfr. subst ffo fro.
  unfold modifyDelegate, modifyWallet. repeat run_bind.
  unfold ret. f_equal. cbn [walletRepository setRepo faults].
  rewrite (alter_wallet_lookup _ _ _ _ Hg). rewrite !alter_putWallet. reflexivity.
Qed.

Lemma revertBlockFromDelegate_other (g : string) (wg : Wallet) (bd : BlockData) (w : World) :
  byAddress (walletRepository w) !! g = Some wg ->
  isGenerator fromPublicKey g wg bd = false ->
  revertBlockFromDelegate fromPublicKey g bd w = (Returned false, w).
Proof.
  intros Hg Hno. unfold revertBlockFromDelegate.
  erewrite getWallet_bind; [|exact Hg]. by rewrite Hno.
Qed.

Lemma revertBlockFromDelegate_run (g : string) (wg : Wallet) (bd : BlockData) (w : World)
  (dg : WalletDelegateAttributes) (ff fr : Z) :
  byAddress (walletRepository w) !! g = Some wg ->
  isGenerator fromPublicKey g wg bd = true ->
  delegate wg = Some dg ->
  forgedFees dg = Some ff ->
  forgedRewards dg = Some fr ->
  revertBlockFromDelegate fromPublicKey g bd w =
    (Returned true,
     setRepo (putWallet g
       (mkWallet (publicKey wg) (balance wg - b_reward bd - b_totalFee bd) (vote wg)
          (Some (mkDelegate (voteBalance dg) ((fun n => number_sub n 1) <$> producedBlocks dg)
                   (Some (ff - b_totalFee bd)) (Some (fr - b_reward bd)) None))
          (locks wg))
       (walletRepository w)) w).
Proof.
  intros Hg Hgen Hd Hff Hfr. unfold revertBlockFromDelegate.
  erewrite getWallet_bind; [|exact Hg]. rewrite Hgen.
  destruct wg as [pk bal vt dl lk]. cbn in Hd. subst dl.
  destruct dg as [vb pb ffo fro lb]. cbn in Hff, Hfr. subst ffo fro.
  unfold modifyDelegate, modifyWallet. repeat run_bind.
  unfold ret. f_equal. cbn [walletRepository setRepo faults].
  rewrite (alter_wallet_lookup _ _ _ _ Hg). rewrite !alter_putWallet. reflexivity.
Qed.

Lemma updateVotedDelegate_none (g : string) (wg : Wallet) (bd : BlockData) (revert : bool)
  (w : World) :
  byAddress (walletRepository w) !! g = Some wg ->
  vote wg = None ->
  updateVotedDelegate g bd revert w = (Returned tt, w).
Proof.
  intros Hg Hv. unfold updateVotedDelegate.
  erewrite getWallet_bind; [|exact Hg]. by rewrite Hv.
Qed.

Lemma updateVotedDelegate_run (g : string) (wg : Wallet) (bd : BlockData) (revert : bool)
  (w : World) (pk v : string) (wv : Wallet) (vb : Z) :
  byAddress (walletRepository w) !! g = Some wg ->
  vote wg = Some pk ->
  walletByPublicKey (walletRepository w) pk = Some (v, wv) ->
  getVoteBalance wv = Some vb ->
  updateVotedDelegate g bd revert w =
    (Returned tt,
     setRepo (withVotes v
       (if revert then vb - (b_reward bd + b_totalFee bd)
        else vb + (b_reward bd + b_totalFee bd))
       (walletRepository w)) w).
Proof.
  intros Hg Hv Hd Hvb. unfold updateVotedDelegate.
  erewrite getWallet_bind; [|exact Hg]. rewrite Hv.
  erewrite findDelegate_bind; [|exact Hd]. rewrite Hvb. run_bind.
  apply setVoteBalance_run.
Qed.

End Blocks.

(** *** Only [app.terminate] reports a fault *)

Lemma quiet_ret {A : Type} (a : A) : quiet (ret a).
Proof. by intros w. Qed.

Lemma quiet_throw {A : Type} (e : error) : quiet (@throw A e).
Proof. by intros w. Qed.

Lemma quiet_bind {A B : Type} (m : M A) (k : A -> M B) :
  quiet m -> (forall a, quiet (k a)) -> quiet (bind m k).
Proof.
  intros Hm Hk w. unfold bind. specialize (Hm w).
  destruct (m w) as [[a|e] w1]; cbn [snd] in *; [|done].
  by rewrite Hk.
Qed.

Lemma quiet_getRepo : quiet getRepo.
Proof. by intros w. Qed.

Lemma quiet_modifyWallet (ref : string) (f : Wallet -> Wallet) : quiet (modifyWallet ref f).
Proof. by intros w. Qed.

Lemma quiet_callHandler (h : WalletRepository -> Outcome unit * WalletRepository) :
  quiet (callHandler h).
Proof. intros w. unfold callHandler. by destruct (h (walletRepository w)). Qed.

Lemma quiet_reindex (addr : string) (wal : Wallet) : quiet (reindex addr wal).
Proof. by intros w. Qed.

Lemma quiet_forEach {A : Type} (f : A -> M unit) (xs : list A) :
  (forall x, quiet (f x)) -> quiet (forEach f xs).
Proof.
  intros Hf. induction xs as [|x xs IH]; [apply quiet_ret|].
  cbn [forEach]. apply quiet_bind; [apply Hf | by intros _].
Qed.

Ltac quiet_step :=
  first
    [ apply quiet_ret | apply quiet_throw | apply quiet_getRepo
    | apply quiet_modifyWallet | apply quiet_callHandler | apply quiet_reindex
    | apply quiet_bind; [|intros ?]
    | match goal with
      | |- quiet (match ?x with _ => _ end) => destruct x
      | |- quiet (let _ := _ in _) => cbv zeta
      end ].

Ltac quiet_auto := repeat quiet_step.

Lemma quiet_findByPublicKey (pk : string) : quiet (findByPublicKey pk).
Proof. unfold findByPublicKey, found. quiet_auto. Qed.

Lemma quiet_findByAddress (addr : string) : quiet (findByAddress addr).
Proof. unfold findByAddress, found. quiet_auto. Qed.

Lemma quiet_findByLockId (lockId : string) : quiet (findByLockId lockId).
Proof. unfold findByLockId, found. quiet_auto. Qed.

Lemma quiet_getWallet (ref : string) : quiet (getWallet ref).
Proof. unfold getWallet. quiet_auto. Qed.

Lemma quiet_member {A : Type} (o : option A) : quiet (member o).
Proof. unfold member. quiet_auto. Qed.

Lemma quiet_assert_defined {A : Type} (o : option A) : quiet (assert_defined o).
Proof. unfold assert_defined. quiet_auto. Qed.

Ltac quiet_engine :=
  repeat first
    [ apply quiet_findByPublicKey | apply quiet_findByAddress | apply quiet_findByLockId
    | apply quiet_getWallet | apply quiet_member | apply quiet_assert_defined
    | apply quiet_forEach; intros ?
    | quiet_step ].

Lemma quiet_updateVoteBalances (s : string) (rc : option string) (t : TransactionData)
  (lockWallet : option string) (lockTransaction : option HtlcLockRecord) (revert : bool) :
  quiet (updateVoteBalances s rc t lockWallet lockTransaction revert).
Proof.
  unfold updateVoteBalances, voteStep, senderStep, lockOwnerStep, paymentsStep,
    paymentStep, recipientStep, setVoteBalance.
  quiet_engine.
Qed.

Lemma quiet_lockContext (t : Transaction) : quiet (lockContext t).
Proof. unfold lockContext. quiet_engine. Qed.

Lemma quiet_lookupRecipient (t : Transaction) : quiet (lookupRecipient t).
Proof. unfold lookupRecipient, hasByAddress. quiet_engine. Qed.

Section Quiet.

Variable fromPublicKey : string -> string.
Variable registry : TransactionData -> Outcome TransactionHandler.

Lemma quiet_applyTransaction (t : Transaction) : quiet (applyTransaction registry t).
Proof.
  unfold applyTransaction, applyVoteBalances.
  apply quiet_bind; [by intros w|intros h].
  apply quiet_bind; [apply quiet_lockContext|intros lc].
  apply quiet_bind; [apply quiet_callHandler|intros _].
  apply quiet_bind; [apply quiet_assert_defined|intros spk].
  apply quiet_bind; [apply quiet_findByPublicKey|intros s].
  apply quiet_bind; [apply quiet_lookupRecipient|intros rc].
  apply quiet_updateVoteBalances.
Qed.

Lemma quiet_revertTransaction (t : Transaction) : quiet (revertTransaction registry t).
Proof.
  unfold revertTransaction, revertVoteBalances. cbv zeta.
  apply quiet_bind; [by intros w|intros h].
  apply quiet_bind; [apply quiet_assert_defined|intros spk].
  apply quiet_bind; [apply quiet_findByPublicKey|intros s].
  apply quiet_bind; [apply quiet_lookupRecipient|intros rc].
  apply quiet_bind; [apply quiet_callHandler|intros _].
  apply quiet_bind; [apply quiet_lockContext|intros lc].
  apply quiet_updateVoteBalances.
Qed.

Lemma quiet_applyBlockToDelegate (g : string) (bd : BlockData) :
  quiet (applyBlockToDelegate fromPublicKey g bd).
Proof. unfold applyBlockToDelegate, modifyDelegate. quiet_engine. Qed.

Lemma quiet_updateVotedDelegate (g : string) (bd : BlockData) (revert : bool) :
  quiet (updateVotedDelegate g bd revert).
Proof. unfold updateVotedDelegate, setVoteBalance. quiet_engine. Qed.

Lemma quiet_forEachPush (f : Transaction -> M unit) (xs acc : list Transaction) (w : World) :
  (forall x, quiet (f x)) ->
  faults (snd (forEachPush f xs acc w)) = faults w.
Proof.
  intros Hf. revert acc w. induction xs as [|x xs IH]; intros acc w; [done|].
  cbn [forEachPush]. specialize (Hf x w).
  destruct (f x w) as [[[]|e] w1]; cbn [snd] in *; [|done].
  by rewrite IH.
Qed.

(** [applyBlock], once the generator is resolved, reports no fault. *)
Lemma applyBlock_known_quiet (block : Block) (w : World) (g : string) (wg : Wallet) :
  has_key (b_generatorPublicKey (b_data block)) (walletRepository w) = true ->
  walletByPublicKey (walletRepository w) (b_generatorPublicKey (b_data block)) = Some (g, wg) ->
  faults (snd (applyBlock fromPublicKey registry block w)) = faults w.
Proof.
  intros Hhas Hg. unfold applyBlock.
  erewrite bind_returned; [|by eapply resolveGenerator_known].
  erewrite bind_returned; [|reflexivity].
  unfold applyBlockTry.
  pose proof (quiet_forEachPush (applyTransaction registry) (b_transactions block) [] w
                quiet_applyTransaction) as Hloop.
  destruct (forEachPush (applyTransaction registry) (b_transactions block) [] w)
    as [[[[]|e] applied] w1]; cbn [snd] in Hloop.
  - assert (Hq : quiet (bind (applyBlockToDelegate fromPublicKey g (b_data block))
                 (fun applied0 => when applied0 (updateVotedDelegate g (b_data block) false)))).
    { apply quiet_bind; [apply quiet_applyBlockToDelegate|].
      intros [|]; [apply quiet_updateVotedDelegate | apply quiet_ret]. }
    specialize (Hq w1).
    destruct (bind _ _ w1) as [[[]|e] w2]; cbn [snd] in Hq.
    + cbn [snd]. congruence.
    + rewrite <- Hloop, <- Hq.
      apply (quiet_bind (forEach (revertTransaction registry) (rev applied))
               (fun _ => throw e)).
      * apply quiet_forEach. apply quiet_revertTransaction.
      * intros _. apply quiet_throw.
  - rewrite <- Hloop.
    apply (quiet_bind (forEach (revertTransaction registry) (rev applied))
             (fun _ => throw e)).
    + apply quiet_forEach. apply quiet_revertTransaction.
    + intros _. apply quiet_throw.
Qed.

End Quiet.

(** ** The claims about blocks *)

Section BlockClaims.

Variable fromPublicKey : string -> string.
Variable registry : TransactionData -> Outcome TransactionHandler.

(** What [applyBlock] does once every transaction has been applied. *)
Lemma applyBlock_after_transactions (block : Block) (w w0 w1 : World) (g : string)
  (applied : list Transaction) :
  resolveGenerator fromPublicKey block w = (Returned (Some g), w0) ->
  forEachPush (applyTransaction registry) (b_transactions block) [] w0
    = (Returned tt, applied, w1) ->
  forall (o : Outcome unit) (w2 : World),
  (let* credited := applyBlockToDelegate fromPublicKey g (b_data block) in
   when credited (updateVotedDelegate g (b_data block) false)) w1 = (o, w2) ->
  applyBlock fromPublicKey registry block w =
    match o with
    | Returned _ => (Returned tt, w2)
    | Thrown e => (do forEach (revertTransaction registry) (rev applied) then throw e) w2
    end.
Proof.
  intros Hres Hloop o w2 Hcredit. unfold applyBlock.
  erewrite bind_returned; [|exact Hres].
  erewrite bind_returned; [|reflexivity].
  unfold applyBlockTry. rewrite Hloop, Hcredit. by destruct o as [[]|e].
Qed.

(** C6: once every transaction of the block has been applied, the wallet of the
    generator (the one the block's public key resolved to, or the one created
    at height 1) is credited: its balance grows by reward + totalFee, its
    [producedBlocks] by one, its [forgedFees] by totalFee, its [forgedRewards]
    by reward, and the block becomes its [lastBlock].  This happens only if the
    wallet is the generator of the block by public key or by derived address
    ([isGenerator]); otherwise nothing is written.  If the generator has voted,
    the vote balance of the delegate it backs grows by reward + totalFee as
    well.  The wallet is a validator's: it carries the delegate attributes,
    and its [producedBlocks], a JavaScript number, is below 2^53, where [++]
    adds one exactly. *)
Theorem block_credits_generator(block : Block) (w w0 w1 : World) (g : string)
  (wg : Wallet) (applied : list Transaction) :
  resolveGenerator fromPublicKey block w = (Returned (Some g), w0) ->
  forEachPush (applyTransaction registry) (b_transactions block) [] w0
    = (Returned tt, applied, w1) ->
  byAddress (walletRepository w1) !! g = Some wg ->
  (isGenerator fromPublicKey g wg (b_data block) = false ->
   applyBlock fromPublicKey registry block w = (Returned tt, w1))
  /\
  (isGenerator fromPublicKey g wg (b_data block) = true ->
   forall (dg : WalletDelegateAttributes) (n ff fr : Z),
     delegate wg = Some dg ->
     producedBlocks dg = Some n ->
     Z.abs n < 2 ^ 53 ->
     forgedFees dg = Some ff ->
     forgedRewards dg = Some fr ->
     let credited :=
       mkWallet (publicKey wg)
         (balance wg + b_reward (b_data block) + b_totalFee (b_data block))
         (vote wg)
         (Some (mkDelegate (voteBalance dg) (Some (n + 1))
                  (Some (ff + b_totalFee (b_data block)))
                  (Some (fr + b_reward (b_data block)))
                  (Some (b_data block))))
         (locks wg) in
     let r2 := putWallet g credited (walletRepository w1) in
     (vote wg = None ->
      applyBlock fromPublicKey registry block w = (Returned tt, setRepo r2 w1))
     /\
     (forall (pk v : string) (wv : Wallet) (vb : Z),
        vote wg = Some pk ->
        walletByPublicKey r2 pk = Some (v, wv) ->
        getVoteBalance wv = Some vb ->
        applyBlock fromPublicKey registry block w =
          (Returned tt,
           setRepo (withVotes v
             (vb + (b_reward (b_data block) + b_totalFee (b_data block))) r2) w1))).
Proof.
  intros Hres Hloop Hg. split.
  - intros Hno.
    erewrite applyBlock_after_transactions; [|done..|].
    2: { erewrite bind_returned; [|by eapply applyBlockToDelegate_other]. reflexivity. }
    reflexivity.
  - intros Hgen dg n ff fr Hd Hn Hsafe Hff Hfr credited r2.
    assert (Hcredit : applyBlockToDelegate fromPublicKey g (b_data block) w1
                      = (Returned true, setRepo r2 w1)).
    { erewrite applyBlockToDelegate_run; [|done..]. rewrite Hn.
      cbn [fmap option_fmap option_map]. by rewrite number_add_1. }
    assert (Hlook : byAddress (walletRepository (setRepo r2 w1)) !! g = Some credited)
      by apply lookup_putWallet_eq.
    split.
    + intros Hv.
      erewrite applyBlock_after_transactions; [|done..|].
      2: { erewrite bind_returned; [|exact Hcredit]. cbn [when].
           by eapply updateVotedDelegate_none. }
      reflexivity.
    + intros pk v wv vb Hv Hdv Hvb.
      erewrite applyBlock_after_transactions; [|done..|].
      2: { erewrite bind_returned; [|exact Hcredit]. cbn [when].
           by eapply updateVotedDelegate_run. }
      reflexivity.
Qed.

(** C7: a block whose generator the repository does not know.  At height 1 the
    generator's wallet is created with a zero balance, bound to the public key
    and entered in the indexes: [applyBlock] goes on as it does on the
    repository that holds that wallet, and reports no fault.  At any other
    height [applyBlock] reports the fault to the application and stops on the
    assertion, before any handler is called: the repository is left as it
    was. *)
Theorem unknown_generator (block : Block) (w : World) :
  has_key (b_generatorPublicKey (b_data block)) (walletRepository w) = false ->
  (b_height (b_data block) = 1 ->
   let gpk := b_generatorPublicKey (b_data block) in
   let created := mkWallet (Some gpk) 0 None None ∅ in
   let w' := setRepo (reindex_repo (fromPublicKey gpk) created (walletRepository w)) w in
   walletByPublicKey (walletRepository w') gpk = Some (fromPublicKey gpk, created) /\
   walletByAddress (walletRepository w') (fromPublicKey gpk) = Some (fromPublicKey gpk, created) /\
   applyBlock fromPublicKey registry block w = applyBlock fromPublicKey registry block w' /\
   faults (snd (applyBlock fromPublicKey registry block w)) = faults w)
  /\
  (b_height (b_data block) <> 1 ->
   applyBlock fromPublicKey registry block w =
     (Thrown AssertionError,
      mkWorld (walletRepository w) (faults w ++ [lookupFailure block]))).
Proof.
  intros Hhas. split.
  - intros Hh gpk created w'.
    assert (Hpk : walletByPublicKey (walletRepository w') gpk
                  = Some (fromPublicKey gpk, created)).
    { unfold walletByPublicKey, deref, w', reindex_repo. cbn.
      rewrite lookup_insert_eq. by rewrite lookup_insert_eq. }
    assert (Hhas' : has_key gpk (walletRepository w') = true).
    { unfold has_key. apply orb_true_iff. right. apply bool_decide_eq_true.
      unfold w', reindex_repo. cbn. rewrite lookup_insert_eq. by eexists. }
    assert (Heq : applyBlock fromPublicKey registry block w
                  = applyBlock fromPublicKey registry block w').
    { unfold applyBlock.
      erewrite bind_returned; [|by apply resolveGenerator_genesis].
      symmetry. erewrite bind_returned; [|by eapply resolveGenerator_known].
      reflexivity. }
    split; [exact Hpk|]. split.
    { unfold walletByAddress, deref, w', reindex_repo. cbn. by rewrite lookup_insert_eq. }
    split; [exact Heq|].
    rewrite Heq. by erewrite applyBlock_known_quiet.
  - intros Hh. unfold applyBlock.
    erewrite bind_returned; [|by apply resolveGenerator_unknown].
    reflexivity.
Qed.

(** What [revertBlock] does when its [try] block throws. *)
Lemma revertBlock_known (block : Block) (w : World) (g : string) (wg : Wallet) :
  has_key (b_generatorPublicKey (b_data block)) (walletRepository w) = true ->
  walletByPublicKey (walletRepository w) (b_generatorPublicKey (b_data block)) = Some (g, wg) ->
  revertBlock fromPublicKey registry block w =
    match revertBlockTry fromPublicKey registry g block w with
    | (Returned _, _, w1) => (Returned tt, w1)
    | (Thrown e, revertedTransactions, w1) =>
        (do forEach (applyTransaction registry) (rev revertedTransactions) then throw e) w1
    end.
Proof.
  intros Hhas Hg. unfold revertBlock.
  erewrite bind_returned; [|reflexivity]. cbn [walletRepository]. rewrite Hhas. cbn [negb when].
  erewrite bind_returned; [|reflexivity].
  erewrite bind_returned; [|by eapply findByPublicKey_run].
  reflexivity.
Qed.

(** What [revertBlock] does once every transaction has been reverted: a throw
    of the steps that take the credit back is followed by the re-application of
    the transactions, from the state in which those steps stopped. *)
Lemma revertBlock_after_transactions (block : Block) (w w1 : World) (g : string)
  (wg : Wallet) (reverted : list Transaction) :
  has_key (b_generatorPublicKey (b_data block)) (walletRepository w) = true ->
  walletByPublicKey (walletRepository w) (b_generatorPublicKey (b_data block)) = Some (g, wg) ->
  forEachPush (revertTransaction registry) (rev (b_transactions block)) [] w
    = (Returned tt, reverted, w1) ->
  forall (o : Outcome unit) (w2 : World),
  (let* uncredited := revertBlockFromDelegate fromPublicKey g (b_data block) in
   when uncredited (updateVotedDelegate g (b_data block) true)) w1 = (o, w2) ->
  revertBlock fromPublicKey registry block w =
    match o with
    | Returned _ => (Returned tt, w2)
    | Thrown e => (do forEach (applyTransaction registry) (rev reverted) then throw e) w2
    end.
Proof.
  intros Hhas Hg Hloop o w2 Huncredit.
  erewrite revertBlock_known; [|done..].
  unfold revertBlockTry. rewrite Hloop, Huncredit. by destruct o as [[]|e].
Qed.

End BlockClaims.

(** ** The engine on the sample ledger *)

(** Undoing the credit of a block: the balance and the forged totals come back
    and the counter goes back by one, but [lastBlock] is cleared, whatever it
    was before the block was applied. *)
Lemma revertBlockFromDelegate_after_apply (fromPublicKey : string -> string)
  (g : string) (wg : Wallet) (bd : BlockData) (w : World)
  (dg : WalletDelegateAttributes) (n ff fr : Z) :
  byAddress (walletRepository w) !! g = Some wg ->
  isGenerator fromPublicKey g wg bd = true ->
  delegate wg = Some dg ->
  producedBlocks dg = Some n ->
  Z.abs n < 2 ^ 53 ->
  forgedFees dg = Some ff ->
  forgedRewards dg = Some fr ->
  (let* _ := applyBlockToDelegate fromPublicKey g bd in
   revertBlockFromDelegate fromPublicKey g bd) w =
    (Returned true,
     setRepo (putWallet g
       (mkWallet (publicKey wg) (balance wg) (vote wg)
          (Some (mkDelegate (voteBalance dg) (Some n) (Some ff) (Some fr) None))
          (locks wg))
       (walletRepository w)) w).
Proof.
  intros Hg Hgen Hd Hn Hsafe Hff Hfr.
  erewrite bind_returned; [|by eapply applyBlockToDelegate_run].
  erewrite revertBlockFromDelegate_run;
    [|apply lookup_putWallet_eq|exact Hgen|reflexivity..].
  cbn [walletRepository setRepo faults publicKey balance vote locks voteBalance producedBlocks].
  rewrite putWallet_putWallet, Hn. unfold setRepo. cbn [fmap option_fmap option_map].
  rewrite number_add_1 by done. unfold number_sub. rewrite toNumber_exact by lia.
  do 5 f_equal; try lia. do 2 f_equal; lia.
Qed.

(** The vote rule on the sample ledger: R (balance 300) votes for D with a fee
    of 5, and V(D) grows from 1050 by the 295 that R has left; reverting takes
    off 300 - 5 and the ledger is the sample ledger again.  S (balance 1000)
    withdraws its vote for D, and V(D) drops by 995 + 5. *)
Lemma vote_rule_witness :
  let r1 := snd (handler_apply sampleVote sampleVoteTx sampleRepository) in
  let w2 := setRepo (withVotes "AD" (1050 + 295) r1) sampleWorld in
  let r3 := snd (handler_revert sampleVote sampleVoteTx (walletRepository w2)) in
  let r4 := snd (handler_apply sampleVote sampleUnvoteTx sampleRepository) in
  applyTransaction sampleRegistry sampleVoteTx sampleWorld = (Returned tt, w2) /\
  revertTransaction sampleRegistry sampleVoteTx w2
    = (Returned tt, setRepo (withVotes "AD" (1345 - (300 - 5)) r3) w2) /\
  setRepo (withVotes "AD" (1345 - (300 - 5)) r3) w2 = sampleWorld /\
  applyTransaction sampleRegistry sampleUnvoteTx sampleWorld
    = (Returned tt, setRepo (withVotes "AD" (1050 - (995 + 5)) r4) sampleWorld).
Proof.
  intros r1 w2 r3 r4.
  destruct (vote_rule_after_handler sampleRegistry sampleVoteTx sampleVote
              "+" "D" ["-E"%string] "R" eq_refl eq_refl eq_refl eq_refl) as [Ha Hr].
  destruct (vote_rule_after_handler sampleRegistry sampleUnvoteTx sampleVote
              "-" "D" [] "S" eq_refl eq_refl eq_refl eq_refl) as [Hu _].
  split; [|split; [|split]].
  - apply (Ha sampleWorld r1 "AR"%string (walletAt r1 "AR") "AD"%string (walletAt r1 "AD"));
      vm_compute; reflexivity.
  - apply (Hr w2 r3 "AR"%string (walletAt (walletRepository w2) "AR") (walletAt r3 "AR")
              "AD"%string (walletAt r3 "AD"));
      vm_compute; reflexivity.
  - vm_compute. reflexivity.
  - apply (Hu sampleWorld r4 "AS"%string (walletAt r4 "AS") "AD"%string (walletAt r4 "AD"));
      vm_compute; reflexivity.
Defined.

(** The claim rule on the sample ledger, the spec's lock example: C, who backs
    E, claims the lock of 400 that S, who backs D, holds, with a fee of 5.
    V(E) gains 400 - 5 and V(D) loses 400; reverting gives the sample ledger
    back. *)
Lemma claim_rule_witness :
  let h := sampleClaim "AS" "lock1" (mkLock 400) in
  let r1 := snd (handler_apply h sampleClaimTx sampleRepository) in
  let w2 := setRepo (addVotes None 0 (addVotes (Some "AD") (- 400)
                      (addVotes (Some "AE") (- 5 + 400) r1))) sampleWorld in
  let r3 := snd (handler_revert h sampleClaimTx (walletRepository w2)) in
  let w4 := setRepo (addVotes None (- 0) (addVotes (Some "AD") 400
                      (addVotes (Some "AE") (5 - 400) r3))) w2 in
  applyTransaction sampleRegistry sampleClaimTx sampleWorld = (Returned tt, w2) /\
  votesOf sampleRepository "AE" = 200 /\ votesOf (walletRepository w2) "AE" = 595 /\
  votesOf sampleRepository "AD" = 1050 /\ votesOf (walletRepository w2) "AD" = 650 /\
  revertTransaction sampleRegistry sampleClaimTx w2 = (Returned tt, w4) /\
  w4 = sampleWorld.
Proof.
  intros h r1 w2 r3 w4.
  destruct (claim_rule sampleRegistry sampleClaimTx h (mkClaim "lock1") "C"
              eq_refl eq_refl eq_refl eq_refl) as [Ha Hr].
  split.
  { apply (Ha sampleWorld "AS"%string (walletAt sampleRepository "AS") (mkLock 400) r1
              "AC"%string (walletAt r1 "AC") (Some "AE"%string) (Some "AD"%string) None);
      vm_compute; reflexivity. }
  do 4 (split; [vm_compute; reflexivity|]).
  split; [|vm_compute; reflexivity].
  apply (Hr w2 "AC"%string (walletAt (walletRepository w2) "AC") r3
            "AS"%string (walletAt r3 "AS") (mkLock 400)
            (Some "AE"%string) (Some "AD"%string) None);
    vm_compute; reflexivity.
Defined.

(** The multi-payment rule on the sample ledger, the spec's multi-payment
    example: S, who backs D, pays 100 to C, who backs E, and 50 to R, who backs
    nobody, with a fee of 10.  V(D) loses 100 + 50 + 10, V(E) gains 100;
    reverting gives the sample ledger back. *)
Lemma multiPayment_rule_witness :
  let ps := [mkPayment 100 "AC"; mkPayment 50 "AR"] in
  let r1 := snd (handler_apply sampleMultiPayment sampleMultiPaymentTx sampleRepository) in
  let w2 := setRepo (addVotes None 0 (payRecipients false ps
                      (addVotes (Some "AD") (- (sumPayments ps + 10)) r1))) sampleWorld in
  let r3 := snd (handler_revert sampleMultiPayment sampleMultiPaymentTx (walletRepository w2)) in
  let w4 := setRepo (addVotes None (- 0) (payRecipients true ps
                      (addVotes (Some "AD") (sumPayments ps + 10) r3))) w2 in
  applyTransaction sampleRegistry sampleMultiPaymentTx sampleWorld = (Returned tt, w2) /\
  votesOf (walletRepository w2) "AD" = 1050 - 160 /\
  votesOf (walletRepository w2) "AE" = 200 + 100 /\
  revertTransaction sampleRegistry sampleMultiPaymentTx w2 = (Returned tt, w4) /\
  w4 = sampleWorld.
Proof.
  intros ps r1 w2 r3 w4.
  destruct (multiPayment_rule sampleRegistry sampleMultiPaymentTx sampleMultiPayment ps "S"
              eq_refl eq_refl eq_refl eq_refl) as [Ha Hr].
  split.
  { apply (Ha sampleWorld r1 "AS"%string (walletAt r1 "AS") (Some "AD"%string) None);
      try (vm_compute; reflexivity).
    repeat constructor.
    - apply (mk_is_Some _ (Some "AE"%string)). vm_compute. reflexivity.
    - apply (mk_is_Some _ None). vm_compute. reflexivity. }
  do 2 (split; [vm_compute; reflexivity|]).
  split; [|vm_compute; reflexivity].
  apply (Hr w2 "AS"%string (walletAt (walletRepository w2) "AS") r3 (Some "AD"%string) None);
    try (vm_compute; reflexivity).
  repeat constructor.
  - apply (mk_is_Some _ (Some "AE"%string)). vm_compute. reflexivity.
  - apply (mk_is_Some _ None). vm_compute. reflexivity.
Defined.

(** A lock for an address that the ledger does not know, applied and reverted:
    both return, and only V(D), the delegate of the sender, moves by the fee.
    A multi-payment whose second payment goes to an unknown address throws
    after the first payment has been counted for E. *)
Lemma unknown_recipient_witness :
  let applied := applyTransaction sampleRegistry sampleLockTx sampleWorld in
  let reverted := revertTransaction sampleRegistry sampleLockTx (snd applied) in
  let stray := applyTransaction sampleRegistry sampleStrayPaymentTx sampleWorld in
  byAddress sampleRepository !! "AZ" = None /\
  fst applied = Returned tt /\
  byAddress (walletRepository (snd applied)) !! "AZ" = None /\
  votesOf (walletRepository (snd applied)) "AD" = 1050 - 10 /\
  reverted = (Returned tt, sampleWorld) /\
  fst stray = Thrown AccountNotFound /\
  votesOf (walletRepository (snd stray)) "AD" = 1050 - 160 /\
  votesOf (walletRepository (snd stray)) "AE" = 200 + 100.
Proof.
  intros applied reverted stray.
  destruct (unknown_recipient_is_skipped sampleRegistry) as (Ha & Hr & Hs).
  set (r1 := snd (handler_apply sampleLock sampleLockTx sampleRepository)).
  assert (Happ : applied = (Returned tt, setRepo (withVotes "AD" 1040 r1) sampleWorld)).
  { unfold applied.
    destruct (Ha sampleLockTx sampleLock "S"%string "AZ"%string sampleWorld (None, None) r1
                "AS"%string (walletAt r1 "AS")) as [_ ->]; vm_compute; reflexivity. }
  set (w2 := setRepo (withVotes "AD" 1040 r1) sampleWorld) in Happ.
  set (r3 := snd (handler_revert sampleLock sampleLockTx (walletRepository w2))).
  assert (Hrev : revertTransaction sampleRegistry sampleLockTx w2 = (Returned tt, sampleWorld)).
  { destruct (Hr sampleLockTx sampleLock "S"%string "AZ"%string w2
                "AS"%string (walletAt (walletRepository w2) "AS") r3 (None, None))
      as [_ ->]; vm_compute; reflexivity. }
  set (r5 := snd (handler_apply sampleMultiPayment sampleStrayPaymentTx sampleRepository)).
  assert (Hstray : stray =
    (Thrown AccountNotFound,
     setRepo (payRecipients false [mkPayment 100 "AC"]
                (addVotes (Some "AD") (- (150 + 10)) r5)) sampleWorld)).
  { unfold stray.
    apply (Hs sampleStrayPaymentTx sampleMultiPayment "S"%string sampleWorld r5
              "AS"%string (walletAt r5 "AS") (Some "AD"%string)
              [mkPayment 100 "AC"] (mkPayment 50 "AZ") []);
      try (vm_compute; reflexivity).
    repeat constructor. apply (mk_is_Some _ (Some "AE"%string)). vm_compute. reflexivity. }
  unfold reverted. rewrite Happ, Hstray. cbn [fst snd]. rewrite Hrev.
  repeat split; vm_compute; reflexivity.
Defined.

(** Only [votes[0]] is read: with or without the second entry, the vote of R
    writes V(D) = 1050 + 300 and nothing else. *)
Lemma only_first_vote_witness :
  let data := tx_data sampleVoteTx in
  updateVoteBalances "AR" None (withVotesList ["+D"; "-E"] data) None None false sampleWorld
  = updateVoteBalances "AR" None (withVotesList ["+D"] data) None None false sampleWorld /\
  exists v : Z,
    updateVoteBalances "AR" None data None None false sampleWorld
      = (Returned tt, setRepo (withVotes "AD" v sampleRepository) sampleWorld) /\
    v = 1050 + 300 /\
    byAddress (withVotes "AD" v sampleRepository) !! "AE" = byAddress sampleRepository !! "AE".
Proof.
  intros data. destruct only_first_vote_is_read as [Hrest Hfirst]. split.
  - apply Hrest.
  - destruct (Hfirst "AR"%string None data None None false sampleWorld "+"%char "D"%string
                ["-E"%string] (walletAt sampleRepository "AR") "AD"%string
                (walletAt sampleRepository "AD"))
      as (v & Heq & Hv & Hother); try (vm_compute; reflexivity).
    exists v. split; [exact Heq|]. split; [rewrite Hv; vm_compute; reflexivity|].
    apply Hother. discriminate.
Defined.

(** [sampleBlock] on the sample ledger: the two transactions apply, then G is
    credited with 2 + 15, counts one more block and more fees and rewards, and
    has the block as its last block; D, whom G backs, gains the same 17 in
    vote balance. *)
Lemma block_credits_generator_witness :
  let loop := forEachPush (applyTransaction sampleRegistry)
                (b_transactions sampleBlock) [] sampleWorld in
  let w1 := snd loop in
  let credited :=
    mkWallet (Some "G") (50 + 2 + 15) (Some "D")
      (Some (mkDelegate (Some 0) (Some (7 + 1)) (Some (30 + 15)) (Some (14 + 2))
               (Some (b_data sampleBlock)))) ∅ in
  let r2 := putWallet "AG" credited (walletRepository w1) in
  resolveGenerator sampleAddress sampleBlock sampleWorld = (Returned (Some "AG"), sampleWorld) /\
  fst loop = (Returned tt, b_transactions sampleBlock) /\
  votesOf (walletRepository w1) "AD" = 540 /\
  applyBlock sampleAddress sampleRegistry sampleBlock sampleWorld
    = (Returned tt, setRepo (withVotes "AD" (540 + (2 + 15)) r2) w1).
Proof.
  intros loop w1 credited r2.
  do 3 (split; [vm_compute; reflexivity|]).
  destruct (block_credits_generator sampleAddress sampleRegistry sampleBlock
              sampleWorld sampleWorld w1 "AG" (walletAt (walletRepository w1) "AG")
              (b_transactions sampleBlock)
              ltac:(vm_compute; reflexivity) ltac:(vm_compute; reflexivity)
              ltac:(vm_compute; reflexivity)) as [_ Hyes].
  destruct (Hyes ltac:(vm_compute; reflexivity)
              (mkDelegate (Some 0) (Some 7) (Some 30) (Some 14) (Some samplePreviousBlock))
              7 30 14 ltac:(vm_compute; reflexivity) eq_refl ltac:(vm_compute; reflexivity)
              eq_refl eq_refl) as [_ Hvote].
  apply (Hvote "D"%string "AD"%string (walletAt r2 "AD") 540); vm_compute; reflexivity.
Defined.

(** The generator N is not in the ledger.  At height 1, on the empty ledger,
    its wallet is created and found by public key and by address, and no fault
    is reported; at height 5 the fault is reported and the ledger is not
    touched. *)
Lemma unknown_generator_witness :
  let created := mkWallet (Some "N") 0 None None ∅ in
  let w' := setRepo (reindex_repo "AN" created (walletRepository sampleEmptyWorld))
              sampleEmptyWorld in
  has_key "N" (walletRepository sampleEmptyWorld) = false /\
  walletByPublicKey (walletRepository w') "N" = Some ("AN", created) /\
  walletByAddress (walletRepository w') "AN" = Some ("AN", created) /\
  applyBlock sampleAddress sampleRegistry sampleGenesisBlock sampleEmptyWorld
    = applyBlock sampleAddress sampleRegistry sampleGenesisBlock w' /\
  faults (snd (applyBlock sampleAddress sampleRegistry sampleGenesisBlock sampleEmptyWorld)) = [] /\
  applyBlock sampleAddress sampleRegistry sampleOrphanBlock sampleWorld
    = (Thrown AssertionError,
       mkWorld sampleRepository ["Failed to lookup generator 'N' of block 'b5'."]).
Proof.
  intros created w'.
  destruct (unknown_generator sampleAddress sampleRegistry sampleGenesisBlock sampleEmptyWorld
              eq_refl) as [Hgenesis _].
  destruct (unknown_generator sampleAddress sampleRegistry sampleOrphanBlock sampleWorld
              eq_refl) as [_ Horphan].
  destruct (Hgenesis eq_refl) as (H1 & H2 & H3 & H4).
  split; [reflexivity|]. split; [exact H1|]. split; [exact H2|].
  split; [exact H3|]. split; [exact H4|].
  apply Horphan. discriminate.
Defined.

(** * More of the engine, the forger and the service provider *)

(** ** What [updateVoteBalances] leaves alone *)

Lemma onlyVotesDiffer_refl (r : WalletRepository) : onlyVotesDiffer r r.
Proof. by repeat split. Qed.

Lemma onlyVotesDiffer_trans (r1 r2 r3 : WalletRepository) :
  onlyVotesDiffer r1 r2 -> onlyVotesDiffer r2 r3 -> onlyVotesDiffer r1 r3.
Proof.
  intros (H1 & H2 & H3) (K1 & K2 & K3). repeat split; congruence.
Qed.

Lemma onlyVotesDiffer_withVotes (d : string) (v : Z) (r : WalletRepository) :
  onlyVotesDiffer r (withVotes d v r).
Proof.
  repeat split. apply map_eq. intros a.
  rewrite !lookup_fmap, lookup_withVotes.
  destruct (decide (d = a)); [|done].
  destruct (byAddress r !! a) as [wal|]; [|done]. cbn.
  f_equal. unfold otherAttributes, withVoteBalance, set_delegate. cbn.
  by destruct (delegate wal).
Qed.

Lemma keepsLedger_ret {A : Type} (a : A) : keepsLedger (ret a).
Proof. intros w. split; [apply onlyVotesDiffer_refl | done]. Qed.

Lemma keepsLedger_throw {A : Type} (e : error) : keepsLedger (@throw A e).
Proof. intros w. split; [apply onlyVotesDiffer_refl | done]. Qed.

Lemma keepsLedger_bind {A B : Type} (m : M A) (k : A -> M B) :
  keepsLedger m -> (forall a, keepsLedger (k a)) -> keepsLedger (bind m k).
Proof.
  intros Hm Hk w. unfold bind. specialize (Hm w).
  destruct (m w) as [[a|e] w1]; cbn [snd] in *; [|done].
  destruct Hm as [Hm1 Hm2]. destruct (Hk a w1) as [Hk1 Hk2].
  split; [by eapply onlyVotesDiffer_trans | congruence].
Qed.

Lemma keepsLedger_getRepo : keepsLedger getRepo.
Proof. intros w. split; [apply onlyVotesDiffer_refl | done]. Qed.

Lemma keepsLedger_setVoteBalance (ref : string) (v : Z) : keepsLedger (setVoteBalance ref v).
Proof. intros w. split; [apply onlyVotesDiffer_withVotes | done]. Qed.

Lemma keepsLedger_forEach {A : Type} (f : A -> M unit) (xs : list A) :
  (forall x, keepsLedger (f x)) -> keepsLedger (forEach f xs).
Proof.
  intros Hf. induction xs as [|x xs IH]; [apply keepsLedger_ret|].
  cbn [forEach]. apply keepsLedger_bind; [apply Hf | by intros _].
Qed.

Ltac keeps_step :=
  first
    [ apply keepsLedger_ret | apply keepsLedger_throw | apply keepsLedger_getRepo
    | apply keepsLedger_setVoteBalance
    | apply keepsLedger_forEach; intros ?
    | apply keepsLedger_bind; [|intros ?]
    | match goal with
      | |- keepsLedger (match ?x with _ => _ end) => destruct x
      | |- keepsLedger (let _ := _ in _) => cbv zeta
      end ].

Lemma keepsLedger_updateVoteBalances (s : string) (rc : option string) (t : TransactionData)
  (lockWallet : option string) (lockTransaction : option HtlcLockRecord) (revert : bool) :
  keepsLedger (updateVoteBalances s rc t lockWallet lockTransaction revert).
Proof.
  unfold updateVoteBalances, voteStep, senderStep, lockOwnerStep, paymentsStep,
    paymentStep, recipientStep, findByPublicKey, findByAddress, found, getWallet,
    member, assert_defined.
  repeat keeps_step.
Qed.

(** X3: [updateVoteBalances] writes vote balances and nothing else.  Whatever
    its arguments, and whether it returns or throws: the public-key index and
    the lock index are as before, the same addresses hold wallets, every
    wallet has its public key, balance, vote, locks and the other delegate
    attributes as before, and no fault is reported. *)
Theorem updateVoteBalances_writes_vote_balances_only
  (sender : string) (recipient : option string) (transaction : TransactionData)
  (lockWallet : option string) (lockTransaction : option HtlcLockRecord) (revert : bool)
  (w : World) :
  let w' := snd (updateVoteBalances sender recipient transaction lockWallet
                   lockTransaction revert w) in
  byPublicKey (walletRepository w') = byPublicKey (walletRepository w) /\
  byLocks (walletRepository w') = byLocks (walletRepository w) /\
  otherAttributes <$> byAddress (walletRepository w')
    = otherAttributes <$> byAddress (walletRepository w) /\
  faults w' = faults w.
Proof.
  destruct (keepsLedger_updateVoteBalances sender recipient transaction lockWallet
              lockTransaction revert w) as [(H1 & H2 & H3) H4].
  by repeat split.
Qed.

Lemma lockContext_reads (t : Transaction) (w : World) : snd (lockContext t w) = w.
Proof.
  unfold lockContext. destruct (isCore HtlcClaim (tx_data t)); [|done].
  destruct (asset (tx_data t) ≫= claim) as [c|]; [|done].
  unfold bind at 1. cbn [assert_defined ret].
  unfold findByLockId, bind, getRepo. cbv beta iota.
  destruct (resolve _ _) as [a|]; [|done]. cbn [found ret].
  unfold getWallet, bind, getRepo. cbv beta iota.
  by destruct (byAddress (walletRepository w) !! a).
Qed.

Lemma findByPublicKey_reads (pk : string) (w : World) : snd (findByPublicKey pk w) = w.
Proof.
  unfold findByPublicKey, bind, getRepo. cbv beta iota. by destruct (resolve _ _).
Qed.

Section Frame.
Variable registry : TransactionData -> Outcome TransactionHandler.

Lemma applyTransaction_frame (t : Transaction) (w w' : World) (o : Outcome unit) :
  applyTransaction registry t w = (o, w') ->
  faults w' = faults w /\
  (walletRepository w' = walletRepository w \/
   exists h, registry (tx_data t) = Returned h /\
     onlyVotesDiffer (snd (handler_apply h t (walletRepository w))) (walletRepository w')).
Proof.
  unfold applyTransaction, getHandler. unfold bind at 1.
  destruct (registry (tx_data t)) as [h|e] eqn:Hreg; [|intros [= _ <-]; by split; [|left]].
  unfold bind at 1. pose proof (lockContext_reads t w) as Hl.
  destruct (lockContext t w) as [[lc|e] w0]; cbn [snd] in Hl; subst w0;
    [|intros [= _ <-]; by split; [|left]].
  unfold bind at 1, callHandler.
  destruct (handler_apply h t (walletRepository w)) as [[[]|e] r1] eqn:Hap.
  2: { intros [= _ <-]. split; [done|]. right. exists h. split; [done|].
       rewrite Hap. apply onlyVotesDiffer_refl. }
  intros H.
  assert (Hrest : keepsLedger
    (let* senderKey := assert_defined (senderPublicKey (tx_data t)) in
     let* sender := findByPublicKey senderKey in
     let* recipient := lookupRecipient t in
     applyVoteBalances sender recipient (tx_data t) (fst lc) (snd lc))).
  { unfold applyVoteBalances.
    apply keepsLedger_bind; [unfold assert_defined; repeat keeps_step|intros spk].
    apply keepsLedger_bind; [unfold findByPublicKey, found; repeat keeps_step|intros s].
    apply keepsLedger_bind; [|intros rc; apply keepsLedger_updateVoteBalances].
    unfold lookupRecipient, hasByAddress, findByAddress, found. repeat keeps_step. }
  destruct (Hrest (setRepo r1 w)) as [Hk Hf]. rewrite H in Hk, Hf. cbn [snd] in Hk, Hf.
  split; [exact Hf|]. right. exists h. split; [done|]. by rewrite Hap.
Qed.

Lemma revertTransaction_frame (t : Transaction) (w w' : World) (o : Outcome unit) :
  revertTransaction registry t w = (o, w') ->
  faults w' = faults w /\
  (walletRepository w' = walletRepository w \/
   exists h, registry (tx_data t) = Returned h /\
     onlyVotesDiffer (snd (handler_revert h t (walletRepository w))) (walletRepository w')).
Proof.
  unfold revertTransaction, getHandler. cbv zeta. unfold bind at 1.
  destruct (registry (tx_data t)) as [h|e] eqn:Hreg; [|intros [= _ <-]; by split; [|left]].
  unfold bind at 1.
  destruct (senderPublicKey (tx_data t)) as [spk|]; [|intros [= _ <-]; by split; [|left]].
  cbn [assert_defined ret].
  unfold bind at 1. pose proof (findByPublicKey_reads spk w) as Hs.
  destruct (findByPublicKey spk w) as [[s|e] w0]; cbn [snd] in Hs; subst w0;
    [|intros [= _ <-]; by split; [|left]].
  erewrite bind_returned; [|apply lookupRecipient_run].
  unfold bind at 1, callHandler.
  destruct (handler_revert h t (walletRepository w)) as [[[]|e] r1] eqn:Hre.
  2: { intros [= _ <-]. split; [done|]. right. exists h. split; [done|].
       rewrite Hre. apply onlyVotesDiffer_refl. }
  intros H.
  assert (Hrest : keepsLedger
    (let* lockCtx := lockContext t in
     revertVoteBalances s (recipientOf (walletRepository w) (tx_data t)) (tx_data t)
       (fst lockCtx) (snd lockCtx))).
  { unfold revertVoteBalances.
    apply keepsLedger_bind; [|intros lc; apply keepsLedger_updateVoteBalances].
    unfold lockContext, findByLockId, found, getWallet, assert_defined.
    repeat keeps_step. }
  destruct (Hrest (setRepo r1 w)) as [Hk Hf]. rewrite H in Hk, Hf. cbn [snd] in Hk, Hf.
  split; [exact Hf|]. right. exists h. split; [done|]. by rewrite Hre.
Qed.

(** X4: [applyTransaction] and [revertTransaction] change the ledger through
    the handler only.  Whether they return or throw, no fault is reported, and
    either the repository is untouched (the handler was not reached) or it is
    the repository that the handler left, up to vote balances. *)
Theorem transactions_write_through_the_handler
  (t : Transaction) (w : World) :
  (let w' := snd (applyTransaction registry t w) in
   faults w' = faults w /\
   (walletRepository w' = walletRepository w \/
    exists h, registry (tx_data t) = Returned h /\
      onlyVotesDiffer (snd (handler_apply h t (walletRepository w))) (walletRepository w')))
  /\
  (let w' := snd (revertTransaction registry t w) in
   faults w' = faults w /\
   (walletRepository w' = walletRepository w \/
    exists h, registry (tx_data t) = Returned h /\
      onlyVotesDiffer (snd (handler_revert h t (walletRepository w))) (walletRepository w'))).
Proof.
  split; cbv zeta.
  - destruct (applyTransaction registry t w) as [o w'] eqn:E. by eapply applyTransaction_frame.
  - destruct (revertTransaction registry t w) as [o w'] eqn:E. by eapply revertTransaction_frame.
Qed.

End Frame.

(** ** The rule of a lock *)

(** The recipient's rule does nothing for a lock, whoever the recipient backs. *)
Lemma recipientStep_lock (recipient : option string) (t : TransactionData) (revert : bool)
  (w : World) :
  isCore HtlcLock t = true ->
  (forall rc, recipient = Some rc -> is_Some (byAddress (walletRepository w) !! rc)) ->
  recipientStep recipient t revert w = (Returned tt, w).
Proof.
  intros Hk Hrc. destruct recipient as [rc|]; [|done].
  destruct (Hrc rc eq_refl) as [wr Hwr].
  unfold recipientStep. erewrite getWallet_bind; [|exact Hwr].
  rewrite Hk. by destruct (vote wr).
Qed.

Lemma lookup_addVotes_is_Some (d : option string) (c : Z) (r : WalletRepository) (a : string) :
  is_Some (byAddress (addVotes d c r) !! a) <-> is_Some (byAddress r !! a).
Proof.
  destruct d as [d|]; [|done]. unfold addVotes. rewrite lookup_withVotes.
  destruct (decide (d = a)); [|done]. by rewrite fmap_is_Some.
Qed.

Lemma recipientOf_known (r : WalletRepository) (t : TransactionData) (rc : string) :
  recipientOf r t = Some rc -> is_Some (byAddress r !! rc).
Proof.
  unfold recipientOf, walletByAddress, deref.
  destruct (truthy (recipientId t)) as [rid|]; [|done].
  destruct (byAddress r !! rid) as [wal|] eqn:E; [|done].
  intros [= <-]. by eexists.
Qed.

Lemma updateVoteBalances_lock (s : string) (rc : option string) (t : TransactionData)
  (lockWallet : option string) (lockTransaction : option HtlcLockRecord) (revert : bool)
  (w : World) (od : option string) :
  isCore HtlcLock t = true ->
  backedDelegate (walletRepository w) s = Some od ->
  (forall a, rc = Some a -> is_Some (byAddress (walletRepository w) !! a)) ->
  updateVoteBalances s rc t lockWallet lockTransaction revert w =
    (Returned tt,
     setRepo (addVotes od (if revert then tx_fee t else - tx_fee t) (walletRepository w)) w).
Proof.
  intros Hk Hs Hrc. unfold updateVoteBalances.
  rewrite (isCore_exclusive HtlcLock Vote) by done.
  erewrite bind_returned; [|eapply senderStep_run; [exact Hs|]].
  2: { unfold senderChange. rewrite Hk. reflexivity. }
  erewrite bind_returned; [|apply lockOwnerStep_skip; by apply (isCore_exclusive HtlcLock)].
  erewrite bind_returned; [|apply paymentsStep_skip; by apply (isCore_exclusive HtlcLock)].
  apply recipientStep_lock; [done|].
  intros a Ha. cbn [walletRepository setRepo]. apply lookup_addVotes_is_Some. by apply Hrc.
Qed.

Section LockRule.
Variable registry : TransactionData -> Outcome TransactionHandler.

(** X1: a lock (a core HtlcLock).  The vote balance of the delegate that the
    sender backs loses the fee on apply and gains it on revert: the locked
    amount stays in it.  The delegate that the recipient backs is not
    credited, whether or not the recipient is known and has voted. *)
Theorem lock_rule (t : Transaction) (h : TransactionHandler) (spk : string) :
  isCore HtlcLock (tx_data t) = true ->
  registry (tx_data t) = Returned h ->
  senderPublicKey (tx_data t) = Some spk ->
  (forall (w : World) (r1 : WalletRepository) (s : string) (ws : Wallet) (od : option string),
     handler_apply h t (walletRepository w) = (Returned tt, r1) ->
     walletByPublicKey r1 spk = Some (s, ws) ->
     backedDelegate r1 s = Some od ->
     applyTransaction registry t w =
       (Returned tt, setRepo (addVotes od (- tx_fee (tx_data t)) r1) w))
  /\
  (forall (w : World) (s : string) (ws0 : Wallet) (r1 : WalletRepository) (od : option string),
     walletByPublicKey (walletRepository w) spk = Some (s, ws0) ->
     handler_revert h t (walletRepository w) = (Returned tt, r1) ->
     backedDelegate r1 s = Some od ->
     (forall rc, recipientOf (walletRepository w) (tx_data t) = Some rc ->
                 is_Some (byAddress r1 !! rc)) ->
     revertTransaction registry t w =
       (Returned tt, setRepo (addVotes od (tx_fee (tx_data t)) r1) w)).
Proof.
  intros Hk Hreg Hspk.
  assert (Hnc : isCore HtlcClaim (tx_data t) = false)
    by (by apply (isCore_exclusive HtlcLock)).
  split.
  - intros w r1 s ws od Hap Hs Hod.
    erewrite applyTransaction_run; [|done|by apply lockContext_skip|done..].
    erewrite updateVoteBalances_lock; [done|done|done|].
    intros a Ha. cbn [walletRepository setRepo]. by eapply recipientOf_known.
  - intros w s ws0 r1 od Hs Hre Hod Hrc.
    erewrite revertTransaction_run; [|done|done|done|done|by apply lockContext_skip].
    by erewrite updateVoteBalances_lock.
Qed.
End LockRule.
(** ** [revertVoteBalances] after [applyVoteBalances] *)

Lemma bind_inv {A B : Type} (m : M A) (k : A -> M B) (w w2 : World) (b : B) :
  bind m k w = (Returned b, w2) ->
  exists a w1, m w = (Returned a, w1) /\ k a w1 = (Returned b, w2).
Proof.
  unfold bind. destruct (m w) as [[a|e] w1]; [|done]. intros H. by exists a, w1.
Qed.

Lemma getWallet_inv (ref : string) (w w1 : World) (wal : Wallet) :
  getWallet ref w = (Returned wal, w1) ->
  w1 = w /\ byAddress (walletRepository w) !! ref = Some wal.
Proof.
  unfold getWallet, bind, getRepo. cbv beta iota.
  destruct (byAddress (walletRepository w) !! ref) as [x|]; [|done].
  by intros [= <- <-].
Qed.

Lemma findByPublicKey_inv (pk : string) (w w1 : World) (a : string) :
  findByPublicKey pk w = (Returned a, w1) ->
  w1 = w /\ exists wal, walletByPublicKey (walletRepository w) pk = Some (a, wal).
Proof.
  unfold findByPublicKey, bind, getRepo. cbv beta iota. rewrite resolve_deref.
  unfold walletByPublicKey.
  destruct (deref (walletRepository w) (byPublicKey (walletRepository w) !! pk))
    as [[x wal]|]; [|done].
  cbn. intros [= <- <-]. split; [done|]. by exists wal.
Qed.

Lemma findByAddress_inv (addr : string) (w w1 : World) (a : string) :
  findByAddress addr w = (Returned a, w1) ->
  w1 = w /\ a = addr /\ is_Some (byAddress (walletRepository w) !! addr).
Proof.
  unfold findByAddress, bind, getRepo. cbv beta iota. rewrite resolve_deref.
  unfold deref.
  destruct (byAddress (walletRepository w) !! addr) as [wal|]; [|done].
  cbn. intros [= <- <-]. split; [done|]. split; [done|]. by eexists.
Qed.

(** A wallet whose lookups succeed backs a delegate, or nobody. *)
Lemma backedDelegate_voted (r : WalletRepository) (ref pk d : string) (wal wd : Wallet) :
  byAddress r !! ref = Some wal -> vote wal = Some pk ->
  walletByPublicKey r pk = Some (d, wd) ->
  backedDelegate r ref = Some (Some d).
Proof. intros H1 H2 H3. unfold backedDelegate. by rewrite H1, H2, H3. Qed.

Lemma backedDelegate_unvoted (r : WalletRepository) (ref : string) (wal : Wallet) :
  byAddress r !! ref = Some wal -> vote wal = None ->
  backedDelegate r ref = Some None.
Proof. intros H1 H2. unfold backedDelegate. by rewrite H1, H2. Qed.

Lemma senderChange_opp (t : TransactionData) (lt : option HtlcLockRecord) (rv : bool) :
  senderChange t lt (negb rv) = Z.opp <$> senderChange t lt rv.
Proof.
  unfold senderChange.
  destruct (isCore HtlcLock t); [destruct rv; cbn; f_equal; lia|].
  destruct (isCore HtlcClaim t).
  { destruct lt; [|done]. destruct rv; cbn; f_equal; lia. }
  destruct (isCore MultiPayment t).
  { destruct (asset t ≫= payments); [|done]. destruct rv; cbn; f_equal; lia. }
  destruct rv; cbn; f_equal; lia.
Qed.

(** When the sender's rule returns, it is the closed form of [senderStep_run]. *)
Lemma senderStep_inv (s : string) (t : TransactionData) (lt : option HtlcLockRecord)
  (rv : bool) (w w1 : World) :
  senderStep s t lt rv w = (Returned tt, w1) ->
  exists od,
    backedDelegate (walletRepository w) s = Some od /\
    (od = None \/ is_Some (senderChange t lt rv)).
Proof.
  unfold senderStep. intros H.
  apply bind_inv in H as (ws & w' & Hs & H). apply getWallet_inv in Hs as [-> Hs].
  destruct (vote ws) as [pk|] eqn:Hv.
  - apply bind_inv in H as (d & w' & Hd & H). apply findByPublicKey_inv in Hd as [-> [wd Hd]].
    exists (Some d). split; [by eapply backedDelegate_voted|]. right.
    apply bind_inv in H as (amount & w' & Ha & H).
    unfold senderChange.
    destruct (isCore MultiPayment t) eqn:Emp.
    + rewrite (isCore_exclusive MultiPayment HtlcLock) by done.
      rewrite (isCore_exclusive MultiPayment HtlcClaim) by done.
      destruct (asset t ≫= payments); [by eexists | done].
    + destruct (isCore HtlcLock t); [by eexists|].
      destruct (isCore HtlcClaim t); [|by eexists].
      injection Ha as <- <-.
      apply bind_inv in H as (wd' & w' & _ & H).
      apply bind_inv in H as (nv & w'' & Hm & _).
      destruct lt; [by eexists | done].
  - exists None. split; [by eapply backedDelegate_unvoted | by left].
Qed.

Lemma senderStep_closed (s : string) (t : TransactionData) (lt : option HtlcLockRecord)
  (rv : bool) (w : World) (od : option string) :
  backedDelegate (walletRepository w) s = Some od ->
  od = None \/ is_Some (senderChange t lt rv) ->
  senderStep s t lt rv w =
    (Returned tt,
     setRepo (addVotes od (default 0 (senderChange t lt rv)) (walletRepository w)) w).
Proof.
  intros Hb [->|[c Hc]].
  - apply backedDelegate_Some in Hb as (ws & Hs & Hv).
    unfold senderStep. erewrite getWallet_bind; [|exact Hs]. rewrite Hv.
    unfold ret. cbn [addVotes]. by rewrite setRepo_id.
  - rewrite Hc. by apply senderStep_run.
Qed.

Lemma lockOwnerStep_inv (t : TransactionData) (lw : option string)
  (lt : option HtlcLockRecord) (rv : bool) (w w1 : World) :
  isCore HtlcClaim t = true ->
  lockOwnerStep t lw lt rv w = (Returned tt, w1) ->
  exists lockWallet od,
    lw = Some lockWallet /\
    backedDelegate (walletRepository w) lockWallet = Some od /\
    (od = None \/ is_Some lt).
Proof.
  intros Hk. unfold lockOwnerStep. rewrite Hk. intros H.
  apply bind_inv in H as (lockWallet & w' & Hl & H).
  destruct lw as [x|]; [|done]. injection Hl as <- <-.
  apply bind_inv in H as (wo & w' & Ho & H). apply getWallet_inv in Ho as [-> Ho].
  exists x.
  destruct (vote wo) as [pk|] eqn:Hv.
  - apply bind_inv in H as (d & w' & Hd & H). apply findByPublicKey_inv in Hd as [-> [wd Hd]].
    exists (Some d). split; [done|]. split; [by eapply backedDelegate_voted|]. right.
    apply bind_inv in H as (wd' & w' & _ & H).
    apply bind_inv in H as (lock & w'' & Hm & _).
    destruct lt; [by eexists | done].
  - exists None. split; [done|]. split; [by eapply backedDelegate_unvoted | by left].
Qed.

Lemma lockOwnerStep_closed (t : TransactionData) (lockWallet : string)
  (lt : option HtlcLockRecord) (rv : bool) (w : World) (od : option string) :
  isCore HtlcClaim t = true ->
  backedDelegate (walletRepository w) lockWallet = Some od ->
  od = None \/ is_Some lt ->
  lockOwnerStep t (Some lockWallet) lt rv w =
    (Returned tt,
     setRepo (addVotes od (let a := default 0 (lock_amount <$> lt) in if rv then a else - a)
                (walletRepository w)) w).
Proof.
  intros Hk Hb [->|[lock ->]].
  - apply backedDelegate_Some in Hb as (wo & Ho & Hv).
    unfold lockOwnerStep. rewrite Hk. run_bind.
    erewrite getWallet_bind; [|exact Ho]. rewrite Hv.
    unfold ret. cbn [addVotes]. by rewrite setRepo_id.
  - by erewrite lockOwnerStep_run.
Qed.

Lemma paymentStep_inv (rv : bool) (p : MultiPaymentItem) (w w1 : World) :
  paymentStep rv p w = (Returned tt, w1) ->
  is_Some (backedDelegate (walletRepository w) (pay_recipientId p)).
Proof.
  unfold paymentStep. intros H.
  apply bind_inv in H as (a & w' & Ha & H). apply findByAddress_inv in Ha as (-> & -> & _).
  apply bind_inv in H as (wr & w' & Hr & H). apply getWallet_inv in Hr as [-> Hr].
  destruct (vote wr) as [pk|] eqn:Hv.
  - apply bind_inv in H as (d & w' & Hd & H). apply findByPublicKey_inv in Hd as [-> [wd Hd]].
    exists (Some d). by eapply backedDelegate_voted.
  - exists None. by eapply backedDelegate_unvoted.
Qed.

Lemma payments_inv (rv : bool) (ps : list MultiPaymentItem) (w w1 : World) :
  forEach (paymentStep rv) ps w = (Returned tt, w1) ->
  Forall (fun p => is_Some (backedDelegate (walletRepository w) (pay_recipientId p))) ps.
Proof.
  revert w. induction ps as [|p ps IH]; intros w H; [constructor|].
  cbn [forEach] in H. apply bind_inv in H as ([] & w' & Hp & H).
  pose proof (paymentStep_inv _ _ _ _ Hp) as Hsome.
  constructor; [exact Hsome|].
  destruct Hsome as [od Hod].
  erewrite paymentStep_run in Hp; [|exact Hod]. injection Hp as <-.
  apply IH in H. cbn [walletRepository setRepo] in H.
  eapply Forall_impl; [exact H|]. intros q Hq. cbn beta in *.
  by rewrite backedDelegate_addVotes in Hq.
Qed.

Lemma recipientStep_inv (rc : option string) (t : TransactionData) (rv : bool) (w w1 : World) :
  recipientStep rc t rv w = (Returned tt, w1) ->
  match rc with
  | Some a =>
      is_Some (byAddress (walletRepository w) !! a) /\
      (isCore HtlcLock t = true \/ is_Some (backedDelegate (walletRepository w) a))
  | None => True
  end.
Proof.
  destruct rc as [a|]; [|done]. unfold recipientStep. intros H.
  apply bind_inv in H as (wr & w' & Hr & H). apply getWallet_inv in Hr as [-> Hr].
  split; [by eexists|].
  destruct (isCore HtlcLock t); [by left|right].
  destruct (vote wr) as [pk|] eqn:Hv.
  - cbn [negb] in H.
    apply bind_inv in H as (d & w' & Hd & H). apply findByPublicKey_inv in Hd as [-> [wd Hd]].
    exists (Some d). by eapply backedDelegate_voted.
  - exists None. by eapply backedDelegate_unvoted.
Qed.

Lemma onlyVotesDiffer_sym (r r' : WalletRepository) :
  onlyVotesDiffer r r' -> onlyVotesDiffer r' r.
Proof. intros (H1 & H2 & H3). by repeat split. Qed.

Lemma onlyVotesDiffer_lookup (r r' : WalletRepository) (a : string) :
  onlyVotesDiffer r r' ->
  otherAttributes <$> byAddress r' !! a = otherAttributes <$> byAddress r !! a.
Proof. intros (_ & _ & H). by rewrite <- !lookup_fmap, H. Qed.

Lemma onlyVotesDiffer_is_Some (r r' : WalletRepository) (a : string) :
  onlyVotesDiffer r r' ->
  is_Some (byAddress r' !! a) <-> is_Some (byAddress r !! a).
Proof.
  intros H. pose proof (onlyVotesDiffer_lookup r r' a H) as Ha.
  rewrite <- !not_eq_None_Some.
  destruct (byAddress r' !! a), (byAddress r !! a); cbn in Ha; done.
Qed.

Lemma onlyVotesDiffer_backedDelegate (r r' : WalletRepository) (a : string) :
  onlyVotesDiffer r r' -> backedDelegate r' a = backedDelegate r a.
Proof.
  intros H. pose proof (onlyVotesDiffer_lookup r r' a H) as Ha.
  unfold backedDelegate.
  destruct (byAddress r' !! a) as [x|], (byAddress r !! a) as [y|]; cbn in Ha; try done.
  assert (Hv : vote x = vote y) by (unfold otherAttributes in Ha; congruence).
  rewrite Hv. destruct (vote y) as [pk|]; [|done].
  unfold walletByPublicKey, deref. rewrite (proj1 H).
  destruct (byPublicKey r !! pk) as [d|]; [|done].
  pose proof (onlyVotesDiffer_is_Some r r' d H) as Hd.
  rewrite <- !not_eq_None_Some in Hd.
  destruct (byAddress r' !! d), (byAddress r !! d); try done.
  - exfalso. by apply (proj1 Hd).
  - exfalso. by apply (proj2 Hd).
Qed.

Lemma votesOf_addVotes (od : option string) (c : Z) (r : WalletRepository) (ref : string) :
  (forall d, od = Some d -> is_Some (byAddress r !! d)) ->
  votesOf (addVotes od c r) ref = votesOf r ref + voteDelta od c ref.
Proof.
  intros Hex. unfold voteDelta. destruct od as [d|]; cbn [addVotes].
  - destruct (Hex d eq_refl) as [wd Hwd].
    unfold votesOf at 1. rewrite lookup_withVotes.
    destruct (decide (d = ref)) as [<-|Hne].
    + rewrite decide_True by done. rewrite Hwd. cbn. lia.
    + rewrite decide_False by congruence. unfold votesOf. lia.
  - rewrite decide_False by done. lia.
Qed.

Lemma onlyVotesDiffer_addVotes (od : option string) (c : Z) (r : WalletRepository) :
  onlyVotesDiffer r (addVotes od c r).
Proof.
  destruct od; [apply onlyVotesDiffer_withVotes | apply onlyVotesDiffer_refl].
Qed.

Lemma backedDelegate_exists (r : WalletRepository) (a d : string) :
  backedDelegate r a = Some (Some d) -> is_Some (byAddress r !! d).
Proof.
  intros H. apply backedDelegate_Some in H as (wal & _ & pk & wd & _ & Hd).
  apply deref_lookup in Hd. by eexists.
Qed.

Lemma sameVoters_refl (r : WalletRepository) : sameVoters r r.
Proof. by split. Qed.

Lemma sameVoters_sym (r r' : WalletRepository) : sameVoters r r' -> sameVoters r' r.
Proof. intros [H1 H2]. by split. Qed.

Lemma sameVoters_trans (r1 r2 r3 : WalletRepository) :
  sameVoters r1 r2 -> sameVoters r2 r3 -> sameVoters r1 r3.
Proof. intros [H1 H2] [K1 K2]. split; congruence. Qed.

Lemma onlyVotesDiffer_sameVoters (r r' : WalletRepository) :
  onlyVotesDiffer r r' -> sameVoters r r'.
Proof.
  intros (H1 & _ & H3). split; [done|].
  apply map_eq. intros a. rewrite !lookup_fmap.
  assert (Ha : otherAttributes <$> byAddress r' !! a = otherAttributes <$> byAddress r !! a)
    by (by rewrite <- !lookup_fmap, H3).
  destruct (byAddress r' !! a) as [x|], (byAddress r !! a) as [y|]; cbn in Ha |- *; try done.
  unfold otherAttributes in Ha. congruence.
Qed.

Lemma sameVoters_lookup (r r' : WalletRepository) (a : string) :
  sameVoters r r' -> vote <$> byAddress r' !! a = vote <$> byAddress r !! a.
Proof. intros [_ H]. by rewrite <- !lookup_fmap, H. Qed.

Lemma sameVoters_is_Some (r r' : WalletRepository) (a : string) :
  sameVoters r r' -> is_Some (byAddress r' !! a) <-> is_Some (byAddress r !! a).
Proof.
  intros H. pose proof (sameVoters_lookup r r' a H) as Ha.
  rewrite <- !not_eq_None_Some.
  destruct (byAddress r' !! a), (byAddress r !! a); cbn in Ha; done.
Qed.

Lemma sameVoters_walletByPublicKey (r r' : WalletRepository) (pk : string) :
  sameVoters r r' ->
  fst <$> walletByPublicKey r' pk = fst <$> walletByPublicKey r pk.
Proof.
  intros H. unfold walletByPublicKey, deref. rewrite (proj1 H).
  destruct (byPublicKey r !! pk) as [d|]; [|done].
  pose proof (sameVoters_is_Some r r' d H) as Hd.
  rewrite <- !not_eq_None_Some in Hd.
  destruct (byAddress r' !! d), (byAddress r !! d); try done.
  - exfalso. by apply (proj1 Hd).
  - exfalso. by apply (proj2 Hd).
Qed.

Lemma sameVoters_backedDelegate (r r' : WalletRepository) (a : string) :
  sameVoters r r' -> backedDelegate r' a = backedDelegate r a.
Proof.
  intros H. pose proof (sameVoters_lookup r r' a H) as Ha.
  unfold backedDelegate.
  destruct (byAddress r' !! a) as [x|], (byAddress r !! a) as [y|]; cbn in Ha; try done.
  injection Ha as ->. destruct (vote y) as [pk|]; [|done].
  pose proof (sameVoters_walletByPublicKey r r' pk H) as Hpk.
  destruct (walletByPublicKey r' pk) as [[??]|], (walletByPublicKey r pk) as [[??]|];
    cbn in Hpk; congruence.
Qed.

Lemma storedVotes_withVotes (d : string) (v : Z) (r : WalletRepository) (ref : string) :
  storedVotes (withVotes d v r) ref =
    if decide (d = ref) then (fun _ => v) <$> byAddress r !! ref else storedVotes r ref.
Proof.
  unfold storedVotes. rewrite lookup_withVotes.
  destruct (decide (d = ref)); [|done]. by destruct (byAddress r !! ref).
Qed.

Lemma storedVotes_addVotes (od : option string) (c : Z) (r : WalletRepository) (ref : string) :
  is_Some (storedVotes r ref) -> is_Some (storedVotes (addVotes od c r) ref).
Proof.
  destruct od as [d|]; [|done]. cbn [addVotes]. rewrite storedVotes_withVotes.
  destruct (decide (d = ref)); [|done].
  unfold storedVotes. destruct (byAddress r !! ref); [by eexists | done].
Qed.

Lemma votesOf_storedVotes (r : WalletRepository) (ref : string) :
  votesOf r ref = default 0 (storedVotes r ref).
Proof. unfold votesOf, storedVotes. by destruct (byAddress r !! ref). Qed.

Lemma undoesVotes_ret : undoesVotes (ret tt) (ret tt).
Proof.
  intros w w1 [= <-]. split; [apply onlyVotesDiffer_refl|]. split; [done|].
  exists (fun _ => 0). split; [intros; lia|].
  intros u _. exists u. split; [done|]. split; [apply onlyVotesDiffer_refl|].
  split; [done|]. split; [intros; lia | done].
Qed.

Lemma undoesVotes_bind (m1 m1' m2 m2' : M unit) :
  undoesVotes m1 m1' -> undoesVotes m2 m2' ->
  undoesVotes (bind m1 (fun _ => m2)) (bind m1' (fun _ => m2')).
Proof.
  intros H1 H2 w w2 H.
  apply bind_inv in H as ([] & w1 & Hm1 & Hm2).
  destruct (H1 w w1 Hm1) as (Ha & Hfa & da & Hda & Hua).
  destruct (H2 w1 w2 Hm2) as (Hb & Hfb & db & Hdb & Hub).
  split; [by eapply onlyVotesDiffer_trans|]. split; [congruence|].
  exists (fun ref => da ref + db ref). split.
  { intros ref. rewrite Hdb, Hda. lia. }
  intros u Hu.
  destruct (Hua u Hu) as (u1 & Hr1 & Hk1 & Hf1 & Hv1 & Hs1).
  assert (Hu1 : sameVoters (walletRepository w1) (walletRepository u1)).
  { eapply sameVoters_trans; [apply sameVoters_sym, onlyVotesDiffer_sameVoters; exact Ha|].
    eapply sameVoters_trans; [exact Hu | by apply onlyVotesDiffer_sameVoters]. }
  destruct (Hub u1 Hu1) as (u2 & Hr2 & Hk2 & Hf2 & Hv2 & Hs2).
  exists u2. split; [by erewrite bind_returned; [|exact Hr1]|].
  split; [by eapply onlyVotesDiffer_trans|]. split; [congruence|]. split.
  - intros ref. rewrite Hv2, Hv1. lia.
  - intros ref Hs. by apply Hs2, Hs1.
Qed.

Lemma undoesVotes_forEach {A : Type} (f f' : A -> M unit) (xs : list A) :
  (forall x, undoesVotes (f x) (f' x)) ->
  undoesVotes (forEach f xs) (forEach f' xs).
Proof.
  intros Hf. induction xs as [|x xs IH]; [apply undoesVotes_ret|].
  cbn [forEach]. by apply undoesVotes_bind.
Qed.

Lemma undoesVotes_step (m m' : M unit) :
  (forall w w1, m w = (Returned tt, w1) ->
     exists (od : option string) (c : Z),
       (forall d, od = Some d -> is_Some (byAddress (walletRepository w) !! d)) /\
       w1 = setRepo (addVotes od c (walletRepository w)) w /\
       forall u, sameVoters (walletRepository w) (walletRepository u) ->
         m' u = (Returned tt, setRepo (addVotes od (- c) (walletRepository u)) u)) ->
  undoesVotes m m'.
Proof.
  intros Hm w w1 H. destruct (Hm w w1 H) as (od & c & Hex & -> & Hu).
  cbn [walletRepository setRepo faults].
  split; [apply onlyVotesDiffer_addVotes|]. split; [done|].
  exists (voteDelta od c). split; [intros ref; by apply votesOf_addVotes|].
  intros u Hdiff. eexists. split; [by apply Hu|].
  cbn [walletRepository setRepo faults].
  split; [apply onlyVotesDiffer_addVotes|]. split; [done|]. split.
  - intros ref. rewrite votesOf_addVotes.
    + unfold voteDelta. destruct (decide (od = Some ref)); lia.
    + intros d Hd. apply (sameVoters_is_Some _ _ d Hdiff). by apply Hex.
  - intros ref. apply storedVotes_addVotes.
Qed.

Lemma undoesVotes_senderStep (s : string) (t : TransactionData)
  (lt : option HtlcLockRecord) (rv : bool) :
  undoesVotes (senderStep s t lt rv) (senderStep s t lt (negb rv)).
Proof.
  apply undoesVotes_step. intros w w1 H.
  destruct (senderStep_inv _ _ _ _ _ _ H) as (od & Hb & Hc).
  rewrite (senderStep_closed _ _ _ _ _ _ Hb Hc) in H. injection H as <-.
  exists od, (default 0 (senderChange t lt rv)). split; [|split; [done|]].
  { intros d ->. by eapply backedDelegate_exists. }
  intros u Hu.
  rewrite (senderStep_closed s t lt (negb rv) u od).
  - rewrite senderChange_opp. destruct Hc as [->|[c ->]]; [done|]. reflexivity.
  - by rewrite (sameVoters_backedDelegate _ _ s Hu).
  - destruct Hc as [->|[c Hc]]; [by left|right].
    rewrite senderChange_opp, Hc. by eexists.
Qed.

Lemma undoesVotes_lockOwnerStep (t : TransactionData) (lw : option string)
  (lt : option HtlcLockRecord) (rv : bool) :
  undoesVotes (lockOwnerStep t lw lt rv) (lockOwnerStep t lw lt (negb rv)).
Proof.
  destruct (isCore HtlcClaim t) eqn:Hk.
  2: { unfold lockOwnerStep. rewrite Hk. apply undoesVotes_ret. }
  apply undoesVotes_step. intros w w1 H.
  destruct (lockOwnerStep_inv _ _ _ _ _ _ Hk H) as (lockWallet & od & -> & Hb & Hc).
  rewrite (lockOwnerStep_closed _ _ _ _ _ _ Hk Hb Hc) in H. injection H as <-.
  eexists od, _. split; [|split; [reflexivity|]].
  { intros d ->. by eapply backedDelegate_exists. }
  intros u Hu.
  rewrite (lockOwnerStep_closed t lockWallet lt (negb rv) u od);
    [|done|by rewrite (sameVoters_backedDelegate _ _ _ Hu)|done].
  cbv zeta. destruct rv; cbn [negb]; do 3 f_equal; lia.
Qed.

Lemma undoesVotes_paymentStep (rv : bool) (p : MultiPaymentItem) :
  undoesVotes (paymentStep rv p) (paymentStep (negb rv) p).
Proof.
  apply undoesVotes_step. intros w w1 H.
  destruct (paymentStep_inv _ _ _ _ H) as [od Hb].
  rewrite (paymentStep_run _ _ _ _ Hb) in H. injection H as <-.
  eexists od, _. split; [|split; [reflexivity|]].
  { intros d ->. by eapply backedDelegate_exists. }
  intros u Hu.
  rewrite (paymentStep_run (negb rv) p u od)
    by (by rewrite (sameVoters_backedDelegate _ _ _ Hu)).
  destruct rv; cbn [negb]; do 3 f_equal; lia.
Qed.

Lemma undoesVotes_paymentsStep (t : TransactionData) (rv : bool) :
  undoesVotes (paymentsStep t rv) (paymentsStep t (negb rv)).
Proof.
  unfold paymentsStep. destruct (isCore MultiPayment t); [|apply undoesVotes_ret].
  destruct (asset t ≫= payments) as [ps|]; [|by intros w w1 H].
  intros w w1 H. erewrite bind_returned in H; [|reflexivity].
  destruct (undoesVotes_forEach (paymentStep rv) (paymentStep (negb rv)) ps
              (undoesVotes_paymentStep rv) w w1 H) as (H1 & H2 & delta & H3 & H4).
  split; [done|]. split; [done|]. exists delta. split; [done|].
  intros u Hu. destruct (H4 u Hu) as (u1 & Hr & Hrest). exists u1.
  split; [|done]. by erewrite bind_returned; [|reflexivity].
Qed.

Lemma undoesVotes_recipientStep (rc : option string) (t : TransactionData) (rv : bool) :
  undoesVotes (recipientStep rc t rv) (recipientStep rc t (negb rv)).
Proof.
  apply undoesVotes_step. intros w w1 H.
  pose proof (recipientStep_inv _ _ _ _ _ H) as Hinv.
  destruct rc as [a|].
  2: { injection H as <-. exists None, 0. cbn [addVotes]. split; [done|]. split; [by rewrite setRepo_id|].
       intros u _. by rewrite setRepo_id. }
  destruct Hinv as [Hex [Hk|[od Hb]]].
  - rewrite recipientStep_lock in H; [|done|by intros ? [= <-]]. injection H as <-.
    exists None, 0. cbn [addVotes]. split; [done|]. split; [by rewrite setRepo_id|].
    intros u Hu. rewrite setRepo_id.
    apply recipientStep_lock; [done|]. intros ? [= <-].
    by apply (sameVoters_is_Some _ _ a Hu).
  - rewrite (recipientStep_run _ _ _ _ _ Hb) in H. injection H as <-.
    eexists (if isCore HtlcLock t then None else od), _. split; [|split; [reflexivity|]].
    { intros d Hd. destruct (isCore HtlcLock t); [done|]. subst od.
      by eapply backedDelegate_exists. }
    intros u Hu.
    rewrite (recipientStep_run a t (negb rv) u od)
      by (by rewrite (sameVoters_backedDelegate _ _ _ Hu)).
    destruct rv; cbn [negb]; do 3 f_equal; lia.
Qed.

Lemma undoesVotes_updateVoteBalances (s : string) (rc : option string)
  (t : TransactionData) (lw : option string) (lt : option HtlcLockRecord) (rv : bool) :
  isCore Vote t = false ->
  undoesVotes (updateVoteBalances s rc t lw lt rv) (updateVoteBalances s rc t lw lt (negb rv)).
Proof.
  intros Hk. unfold updateVoteBalances. rewrite Hk.
  apply undoesVotes_bind; [apply undoesVotes_senderStep|].
  apply undoesVotes_bind; [apply undoesVotes_lockOwnerStep|].
  apply undoesVotes_bind; [apply undoesVotes_paymentsStep|].
  apply undoesVotes_recipientStep.
Qed.

(** X5: for a transaction that is not a core vote, the two directions of
    [updateVoteBalances] undo each other.  If one direction returns, the other
    direction, run with the same arguments on the ledger that the first left,
    returns as well, and every wallet has the vote balance it had before the
    first (read with the default zero: a vote balance that was missing may now
    be a stored zero); nothing but vote balances has changed. *)
Theorem revertVoteBalances_undoes_applyVoteBalances
  (sender : string) (recipient : option string) (transaction : TransactionData)
  (lockWallet : option string) (lockTransaction : option HtlcLockRecord)
  (revert : bool) (w w1 : World) :
  isCore Vote transaction = false ->
  updateVoteBalances sender recipient transaction lockWallet lockTransaction revert w
    = (Returned tt, w1) ->
  exists w2 : World,
    updateVoteBalances sender recipient transaction lockWallet lockTransaction
      (negb revert) w1 = (Returned tt, w2) /\
    (forall ref, votesOf (walletRepository w2) ref = votesOf (walletRepository w) ref) /\
    onlyVotesDiffer (walletRepository w) (walletRepository w2) /\
    faults w2 = faults w.
Proof.
  intros Hk H.
  destruct (undoesVotes_updateVoteBalances sender recipient transaction lockWallet
              lockTransaction revert Hk w w1 H) as (Hd & Hf & delta & Hdelta & Hback).
  destruct (Hback w1 (onlyVotesDiffer_sameVoters _ _ Hd)) as (w2 & Hr & Hd2 & Hf2 & Hv & _).
  exists w2. split; [exact Hr|]. split.
  - intros ref. rewrite Hv, Hdelta. lia.
  - split; [by eapply onlyVotesDiffer_trans | congruence].
Qed.

(** ** The general rule *)

Lemma updateVoteBalances_general (s : string) (rc : option string) (t : TransactionData)
  (lockWallet : option string) (lockTransaction : option HtlcLockRecord) (revert : bool)
  (w : World) (od odr : option string) :
  isCore Vote t = false ->
  isCore HtlcLock t = false ->
  isCore HtlcClaim t = false ->
  isCore MultiPayment t = false ->
  backedDelegate (walletRepository w) s = Some od ->
  backedBy (walletRepository w) rc = Some odr ->
  updateVoteBalances s rc t lockWallet lockTransaction revert w =
    (Returned tt,
     setRepo
       (addVotes odr (if revert then - tx_amount t else tx_amount t)
         (addVotes od (if revert then tx_amount t + tx_fee t else - (tx_amount t + tx_fee t))
            (walletRepository w))) w).
Proof.
  intros Hv Hl Hc Hm Hs Hr. unfold updateVoteBalances. rewrite Hv.
  erewrite bind_returned; [|eapply senderStep_run; [exact Hs|]].
  2: { unfold senderChange. rewrite Hl, Hc, Hm. reflexivity. }
  erewrite bind_returned; [|by apply lockOwnerStep_skip].
  erewrite bind_returned; [|by apply paymentsStep_skip].
  erewrite recipientStep_run_opt;
    [|cbn [walletRepository setRepo]; by rewrite backedBy_addVotes].
  rewrite Hl. cbn [walletRepository setRepo]. by destruct revert.
Qed.

Section General.
Variable registry : TransactionData -> Outcome TransactionHandler.

(** X2: a transaction that is not a core vote, lock, claim or multi-payment (a
    transfer, or any kind of another type group).  On apply the delegate that
    the sender backs loses amount + fee and the delegate that the recipient
    backs gains the amount; on revert the signs are exchanged.  When both back
    the same delegate, its vote balance moves by the fee alone. *)
Theorem general_rule (t : Transaction) (h : TransactionHandler) (spk : string) :
  isCore Vote (tx_data t) = false ->
  isCore HtlcLock (tx_data t) = false ->
  isCore HtlcClaim (tx_data t) = false ->
  isCore MultiPayment (tx_data t) = false ->
  registry (tx_data t) = Returned h ->
  senderPublicKey (tx_data t) = Some spk ->
  (forall (w : World) (r1 : WalletRepository) (s : string) (ws : Wallet)
          (od odr : option string),
     handler_apply h t (walletRepository w) = (Returned tt, r1) ->
     walletByPublicKey r1 spk = Some (s, ws) ->
     backedDelegate r1 s = Some od ->
     backedBy r1 (recipientOf r1 (tx_data t)) = Some odr ->
     applyTransaction registry t w =
       (Returned tt,
        setRepo
          (addVotes odr (tx_amount (tx_data t))
            (addVotes od (- (tx_amount (tx_data t) + tx_fee (tx_data t))) r1)) w)
     /\
     (forall d, od = Some d -> odr = Some d ->
        votesOf (walletRepository (snd (applyTransaction registry t w))) d
          = votesOf r1 d - tx_fee (tx_data t)))
  /\
  (forall (w : World) (s : string) (ws0 : Wallet) (r1 : WalletRepository)
          (od odr : option string),
     walletByPublicKey (walletRepository w) spk = Some (s, ws0) ->
     handler_revert h t (walletRepository w) = (Returned tt, r1) ->
     backedDelegate r1 s = Some od ->
     backedBy r1 (recipientOf (walletRepository w) (tx_data t)) = Some odr ->
     revertTransaction registry t w =
       (Returned tt,
        setRepo
          (addVotes odr (- tx_amount (tx_data t))
            (addVotes od (tx_amount (tx_data t) + tx_fee (tx_data t)) r1)) w)
     /\
     (forall d, od = Some d -> odr = Some d ->
        votesOf (walletRepository (snd (revertTransaction registry t w))) d
          = votesOf r1 d + tx_fee (tx_data t))).
Proof.
  intros Hv Hl Hc Hm Hreg Hspk. split.
  - intros w r1 s ws od odr Hap Hs Hod Hodr.
    assert (Heq : applyTransaction registry t w =
       (Returned tt,
        setRepo
          (addVotes odr (tx_amount (tx_data t))
            (addVotes od (- (tx_amount (tx_data t) + tx_fee (tx_data t))) r1)) w)).
    { erewrite applyTransaction_run; [|done|by apply lockContext_skip|done..].
      by erewrite updateVoteBalances_general. }
    split; [exact Heq|].
    intros d -> ->. rewrite Heq. cbn [snd walletRepository setRepo].
    assert (Hex : is_Some (byAddress r1 !! d)) by (by eapply backedDelegate_exists).
    rewrite !votesOf_addVotes.
    + unfold voteDelta. rewrite !decide_True by done. lia.
    + by intros ? [= <-].
    + intros ? [= <-]. by apply lookup_addVotes_is_Some.
  - intros w s ws0 r1 od odr Hs Hre Hod Hodr.
    assert (Heq : revertTransaction registry t w =
       (Returned tt,
        setRepo
          (addVotes odr (- tx_amount (tx_data t))
            (addVotes od (tx_amount (tx_data t) + tx_fee (tx_data t)) r1)) w)).
    { erewrite revertTransaction_run; [|done|done|done|done|by apply lockContext_skip].
      by erewrite updateVoteBalances_general. }
    split; [exact Heq|].
    intros d -> ->. rewrite Heq. cbn [snd walletRepository setRepo].
    assert (Hex : is_Some (byAddress r1 !! d)) by (by eapply backedDelegate_exists).
    rewrite !votesOf_addVotes.
    + unfold voteDelta. rewrite !decide_True by done. lia.
    + by intros ? [= <-].
    + intros ? [= <-]. by apply lookup_addVotes_is_Some.
Qed.

End General.

(** ** The vote rule, applied and reverted *)

Lemma lookup_alter_wallet (f : Wallet -> Wallet) (ref : string) (r : WalletRepository) (a : string) :
  byAddress (alter_wallet f ref r) !! a =
    if decide (ref = a) then f <$> byAddress r !! a else byAddress r !! a.
Proof.
  unfold alter_wallet, setWallets. cbn [byAddress].
  rewrite lookup_alter. by destruct (decide (ref = a)) as [->|].
Qed.

(** X6: for a vote, [revertVoteBalances] undoes [applyVoteBalances] exactly
    when the sender's balance has grown by the fee in between, as it does when
    the handler's revert gives the fee back.  With [balance'] the sender's
    balance at revert time, the delegate's vote balance ends at its first
    value plus balance + fee - balance' for a [+] vote, and plus
    balance' - (balance + fee) for an unvote. *)
Theorem vote_is_undone_when_the_fee_is_back
  (s : string) (rc : option string) (t : TransactionData)
  (lockWallet : option string) (lockTransaction : option HtlcLockRecord)
  (w : World) (sign : ascii) (key : string) (rest : list string)
  (ws : Wallet) (d : string) (wd : Wallet) (balance' : Z) :
  isCore Vote t = true ->
  asset t ≫= votes = Some (String sign key :: rest) ->
  byAddress (walletRepository w) !! s = Some ws ->
  walletByPublicKey (walletRepository w) key = Some (d, wd) ->
  let w1 := snd (applyVoteBalances s rc t lockWallet lockTransaction w) in
  let w1' := setRepo (alter_wallet (set_balance balance') s (walletRepository w1)) w1 in
  exists w2 : World,
    revertVoteBalances s rc t lockWallet lockTransaction w1' = (Returned tt, w2) /\
    votesOf (walletRepository w2) d =
      votesOf (walletRepository w) d +
      (if bool_decide (sign = "+"%char)
       then balance ws + tx_fee t - balance'
       else balance' - (balance ws + tx_fee t)) /\
    (votesOf (walletRepository w2) d = votesOf (walletRepository w) d
     <-> balance' = balance ws + tx_fee t).
Proof.
  intros Hk Hv Hs Hd w1 w1'.
  pose proof (deref_lookup _ _ _ _ Hd) as Hwd.
  assert (Hw1 : w1 = setRepo (withVotes d
            (if bool_decide (sign = "+"%char)
             then getVoteBalanceOrZero wd + balance ws
             else getVoteBalanceOrZero wd - (balance ws + tx_fee t))
            (walletRepository w)) w).
  { unfold w1, applyVoteBalances, updateVoteBalances. rewrite Hk.
    by erewrite voteStep_run. }
  set (v1 := if bool_decide (sign = "+"%char)
             then getVoteBalanceOrZero wd + balance ws
             else getVoteBalanceOrZero wd - (balance ws + tx_fee t)) in Hw1.
  assert (Hs1 : byAddress (walletRepository w1') !! s
                = Some (set_balance balance'
                          (if decide (d = s) then withVoteBalance v1 ws else ws))).
  { unfold w1'. cbn [walletRepository setRepo]. rewrite lookup_alter_wallet.
    rewrite decide_True by done. rewrite Hw1. cbn [walletRepository setRepo].
    rewrite lookup_withVotes. destruct (decide (d = s)); by rewrite Hs. }
  assert (Hwd1 : byAddress (walletRepository w1') !! d
                 = Some (if decide (s = d) then set_balance balance' (withVoteBalance v1 wd)
                         else withVoteBalance v1 wd)).
  { unfold w1'. cbn [walletRepository setRepo]. rewrite lookup_alter_wallet.
    rewrite Hw1. cbn [walletRepository setRepo]. rewrite lookup_withVotes.
    rewrite (decide_True (P := d = d)) by done. rewrite Hwd. by destruct (decide (s = d)). }
  assert (Hd1 : walletByPublicKey (walletRepository w1') key
                = Some (d, if decide (s = d) then set_balance balance' (withVoteBalance v1 wd)
                           else withVoteBalance v1 wd)).
  { assert (Hkey : byPublicKey (walletRepository w) !! key = Some d).
    { unfold walletByPublicKey, deref in Hd.
      destruct (byPublicKey (walletRepository w) !! key) as [x|]; [|done].
      destruct (byAddress (walletRepository w) !! x); [|done]. by injection Hd as -> _. }
    assert (Hpk : byPublicKey (walletRepository w1') = byPublicKey (walletRepository w)).
    { unfold w1'. by rewrite Hw1. }
    unfold walletByPublicKey, deref. by rewrite Hpk, Hkey, Hwd1. }
  assert (Hrun : revertVoteBalances s rc t lockWallet lockTransaction w1' =
    (Returned tt, setRepo (withVotes d
       (if bool_decide (sign = "+"%char)
        then v1 - (balance' - tx_fee t) else v1 + balance')
       (walletRepository w1')) w1')).
  { unfold revertVoteBalances, updateVoteBalances. rewrite Hk.
    erewrite voteStep_run; [|exact Hv|exact Hs1|exact Hd1].
    do 3 f_equal. destruct (decide (s = d)); destruct (decide (d = s)); by cbn. }
  eexists. split; [exact Hrun|].
  assert (Hfinal : votesOf (walletRepository
       (setRepo (withVotes d
          (if bool_decide (sign = "+"%char)
           then v1 - (balance' - tx_fee t) else v1 + balance')
          (walletRepository w1')) w1')) d
     = votesOf (walletRepository w) d +
       (if bool_decide (sign = "+"%char)
        then balance ws + tx_fee t - balance'
        else balance' - (balance ws + tx_fee t))).
  { cbn [walletRepository setRepo]. unfold votesOf at 1.
    rewrite lookup_withVotes, (decide_True (P := d = d)) by done. rewrite Hwd1.
    rewrite (votesOf_lookup _ _ _ Hwd). unfold v1.
    destruct (decide (s = d)); destruct (bool_decide (sign = "+"%char)); cbn; lia. }
  split; [exact Hfinal|]. rewrite Hfinal.
  destruct (bool_decide (sign = "+"%char)); lia.
Qed.

(** ** What is checked before the handler runs, and what after *)

Section Checks.
Variable registry : TransactionData -> Outcome TransactionHandler.

Lemma lockContext_no_claim (t : Transaction) (w : World) :
  isCore HtlcClaim (tx_data t) = true ->
  asset (tx_data t) ≫= claim = None ->
  lockContext t w = (Thrown AssertionError, w).
Proof. intros Hk Hc. unfold lockContext. by rewrite Hk, Hc. Qed.

(** X7: the order of the checks around the handler.  A kind without a
    registered handler: both directions throw the registry's error and leave
    the world as it was.  A claim without [asset.claim]: apply throws
    [AssertionError] before the handler runs and leaves the world as it was;
    revert throws it after the handler's revert has run, and what the handler
    wrote stays.  A transaction without [senderPublicKey]: the other way
    round, revert throws before the handler runs, apply after it. *)
Theorem checks_around_the_handler (t : Transaction) (w : World) :
  (forall e : error,
     registry (tx_data t) = Thrown e ->
     applyTransaction registry t w = (Thrown e, w) /\
     revertTransaction registry t w = (Thrown e, w))
  /\
  (forall h : TransactionHandler,
     registry (tx_data t) = Returned h ->
     isCore HtlcClaim (tx_data t) = true ->
     asset (tx_data t) ≫= claim = None ->
     applyTransaction registry t w = (Thrown AssertionError, w)
     /\
     (forall (spk s : string) (ws : Wallet) (r1 : WalletRepository),
        senderPublicKey (tx_data t) = Some spk ->
        walletByPublicKey (walletRepository w) spk = Some (s, ws) ->
        handler_revert h t (walletRepository w) = (Returned tt, r1) ->
        revertTransaction registry t w = (Thrown AssertionError, setRepo r1 w)))
  /\
  (forall h : TransactionHandler,
     registry (tx_data t) = Returned h ->
     senderPublicKey (tx_data t) = None ->
     revertTransaction registry t w = (Thrown AssertionError, w)
     /\
     (forall (lockCtx : option string * option HtlcLockRecord) (r1 : WalletRepository),
        lockContext t w = (Returned lockCtx, w) ->
        handler_apply h t (walletRepository w) = (Returned tt, r1) ->
        applyTransaction registry t w = (Thrown AssertionError, setRepo r1 w))).
Proof.
  split; [|split].
  - intros e Hreg. split.
    + unfold applyTransaction. apply bind_thrown. unfold getHandler. by rewrite Hreg.
    + unfold revertTransaction. cbv zeta. apply bind_thrown. unfold getHandler. by rewrite Hreg.
  - intros h Hreg Hk Hc. split.
    + unfold applyTransaction.
      erewrite bind_returned; [|unfold getHandler; by rewrite Hreg].
      apply bind_thrown. by apply lockContext_no_claim.
    + intros spk s ws r1 Hspk Hs Hre. unfold revertTransaction. cbv zeta.
      erewrite bind_returned; [|unfold getHandler; by rewrite Hreg].
      rewrite Hspk. run_bind.
      erewrite bind_returned; [|by eapply findByPublicKey_run].
      erewrite bind_returned; [|apply lookupRecipient_run].
      erewrite bind_returned; [|by apply callHandler_run].
      apply bind_thrown. by apply lockContext_no_claim.
  - intros h Hreg Hspk. split.
    + unfold revertTransaction. cbv zeta.
      erewrite bind_returned; [|unfold getHandler; by rewrite Hreg].
      by rewrite Hspk.
    + intros lockCtx r1 Hlock Hap. unfold applyTransaction.
      erewrite bind_returned; [|unfold getHandler; by rewrite Hreg].
      erewrite bind_returned; [|exact Hlock].
      erewrite bind_returned; [|by apply callHandler_run].
      by rewrite Hspk.
Qed.

End Checks.

(** ** The catch blocks of [applyBlock] and [revertBlock] *)

Lemma forEachPush_app_returned {A : Type} (f : A -> M unit) (pre rest acc : list A)
  (w w1 : World) :
  forEach f pre w = (Returned tt, w1) ->
  forEachPush f (pre ++ rest) acc w = forEachPush f rest (acc ++ pre) w1.
Proof.
  revert acc w. induction pre as [|x pre IH]; intros acc w H.
  - injection H as <-. by rewrite app_nil_r.
  - cbn [forEach] in H. cbn [app forEachPush].
    unfold bind in H. destruct (f x w) as [[[]|e] w'] eqn:E; [|done].
    rewrite (IH (acc ++ [x]) w' H). by rewrite <- app_assoc.
Qed.

Lemma forEachPush_returned {A : Type} (f : A -> M unit) (xs acc out : list A)
  (w w1 : World) :
  forEachPush f xs acc w = (Returned tt, out, w1) ->
  out = acc ++ xs /\ forEach f xs w = (Returned tt, w1).
Proof.
  revert acc w. induction xs as [|x xs IH]; intros acc w H.
  - injection H as <- <-. by rewrite app_nil_r.
  - cbn [forEachPush] in H. cbn [forEach]. unfold bind.
    destruct (f x w) as [[[]|e] w'] eqn:E; [|done].
    apply IH in H as [-> H]. by rewrite <- app_assoc.
Qed.

Section Catch.
Variable fromPublicKey : string -> string.
Variable registry : TransactionData -> Outcome TransactionHandler.

(** X8: the catch block of [applyBlock].  When the transactions [pre] have
    been applied and the next one, [t], throws [e] and leaves [w1'], the
    transactions of [pre] are reverted from last to first starting from
    [w1'], and [t] itself is not reverted: what [t] wrote before it threw
    stays.  The transactions after [t] are never applied.  [applyBlock] then
    throws [e]; if one of the reverts throws, that error is thrown instead and
    the reverts that remain are not made. *)
Theorem applyBlock_reverts_what_was_applied (block : Block) (w w0 w1 w1' : World)
  (g : string) (pre : list Transaction) (t : Transaction) (post : list Transaction)
  (e : error) :
  resolveGenerator fromPublicKey block w = (Returned (Some g), w0) ->
  b_transactions block = pre ++ t :: post ->
  forEach (applyTransaction registry) pre w0 = (Returned tt, w1) ->
  applyTransaction registry t w1 = (Thrown e, w1') ->
  applyBlock fromPublicKey registry block w =
    (do forEach (revertTransaction registry) (rev pre) then throw e) w1'
  /\
  (forall w2, forEach (revertTransaction registry) (rev pre) w1' = (Returned tt, w2) ->
     applyBlock fromPublicKey registry block w = (Thrown e, w2))
  /\
  (forall e' w2, forEach (revertTransaction registry) (rev pre) w1' = (Thrown e', w2) ->
     applyBlock fromPublicKey registry block w = (Thrown e', w2)).
Proof.
  intros Hres Htxs Hpre Hfail.
  assert (Hflow : applyBlock fromPublicKey registry block w =
    (do forEach (revertTransaction registry) (rev pre) then throw e) w1').
  { unfold applyBlock.
    erewrite bind_returned; [|exact Hres].
    erewrite bind_returned; [|reflexivity].
    unfold applyBlockTry. rewrite Htxs.
    erewrite forEachPush_app_returned; [|exact Hpre].
    cbn [forEachPush app]. by rewrite Hfail. }
  split; [exact Hflow|]. split.
  - intros w2 H. rewrite Hflow. by erewrite bind_returned; [|exact H].
  - intros e' w2 H. rewrite Hflow. by apply bind_thrown.
Qed.

(** X9: the catch block of [revertBlock].  When the transactions after [t]
    have been reverted, from last to first, and the revert of [t] throws [e]
    and leaves [w1'], the reverted transactions are applied again in the order
    of the block starting from [w1'], and [t] itself is not applied again:
    what its revert wrote before it threw stays.  [revertBlock] then throws
    [e]; if one of the applications throws, that error is thrown instead. *)
Theorem revertBlock_applies_what_was_reverted (block : Block) (w w1 w1' : World)
  (g : string) (wg : Wallet) (pre : list Transaction) (t : Transaction)
  (post : list Transaction) (e : error) :
  has_key (b_generatorPublicKey (b_data block)) (walletRepository w) = true ->
  walletByPublicKey (walletRepository w) (b_generatorPublicKey (b_data block)) = Some (g, wg) ->
  b_transactions block = pre ++ t :: post ->
  forEach (revertTransaction registry) (rev post) w = (Returned tt, w1) ->
  revertTransaction registry t w1 = (Thrown e, w1') ->
  revertBlock fromPublicKey registry block w =
    (do forEach (applyTransaction registry) post then throw e) w1'
  /\
  (forall w2, forEach (applyTransaction registry) post w1' = (Returned tt, w2) ->
     revertBlock fromPublicKey registry block w = (Thrown e, w2))
  /\
  (forall e' w2, forEach (applyTransaction registry) post w1' = (Thrown e', w2) ->
     revertBlock fromPublicKey registry block w = (Thrown e', w2)).
Proof.
  intros Hhas Hg Htxs Hpost Hfail.
  assert (Hflow : revertBlock fromPublicKey registry block w =
    (do forEach (applyTransaction registry) post then throw e) w1').
  { erewrite revertBlock_known; [|done..].
    unfold revertBlockTry. rewrite Htxs, rev_app_distr. cbn [rev]. rewrite <- app_assoc.
    erewrite forEachPush_app_returned; [|exact Hpost].
    cbn [forEachPush app]. rewrite Hfail. by rewrite rev_involutive. }
  split; [exact Hflow|]. split.
  - intros w2 H. rewrite Hflow. by erewrite bind_returned; [|exact H].
  - intros e' w2 H. rewrite Hflow. by apply bind_thrown.
Qed.

(** X10: a failure of the credit.  When every transaction of the block has
    been applied and the generator's wallet has no delegate attributes,
    [applyBlockToDelegate] throws [TypeError] after it has written the
    balance; [applyBlock] then reverts every transaction of the block, from
    last to first, on the ledger that holds the credited balance, and throws
    [TypeError]. *)
Theorem applyBlock_credit_failure (block : Block) (w w0 w1 : World) (g : string) (wg : Wallet) :
  resolveGenerator fromPublicKey block w = (Returned (Some g), w0) ->
  forEach (applyTransaction registry) (b_transactions block) w0 = (Returned tt, w1) ->
  byAddress (walletRepository w1) !! g = Some wg ->
  isGenerator fromPublicKey g wg (b_data block) = true ->
  delegate wg = None ->
  let credited :=
    set_balance (balance wg + b_reward (b_data block) + b_totalFee (b_data block)) wg in
  applyBlock fromPublicKey registry block w =
    (do forEach (revertTransaction registry) (rev (b_transactions block))
     then throw TypeError)
      (setRepo (putWallet g credited (walletRepository w1)) w1).
Proof.
  intros Hres Hloop Hg Hgen Hd credited.
  pose proof (forEachPush_app_returned (applyTransaction registry)
                (b_transactions block) [] [] w0 w1 Hloop) as Hpush.
  rewrite app_nil_r in Hpush. cbn [forEachPush app] in Hpush.
  erewrite applyBlock_after_transactions; [|exact Hres|exact Hpush|].
  2: { apply bind_thrown. unfold applyBlockToDelegate.
       erewrite getWallet_bind; [|exact Hg]. rewrite Hgen.
       erewrite bind_returned; [|reflexivity]. rewrite Hd.
       apply bind_thrown. reflexivity. }
  cbn [walletRepository setRepo]. unfold modifyWallet.
  by rewrite (alter_wallet_lookup _ _ _ _ Hg).
Qed.

Lemma has_key_false_publicKey (key : string) (r : WalletRepository) :
  has_key key r = false -> byPublicKey r !! key = None.
Proof.
  unfold has_key. intros [_ H]%orb_false_iff. apply bool_decide_eq_false in H.
  by apply eq_None_not_Some.
Qed.

Lemma quiet_revertBlockFromDelegate (g : string) (bd : BlockData) :
  quiet (revertBlockFromDelegate fromPublicKey g bd).
Proof. unfold revertBlockFromDelegate, modifyDelegate. quiet_engine. Qed.

(** X11: [revertBlock] for a generator that the repository does not know, at
    any height: the fault is reported to the application, [findByPublicKey]
    throws [AccountNotFound] before the [try] block is entered, no transaction
    is reverted and the repository is as before.  For a generator that the
    repository knows, [revertBlock] reports no fault. *)
Theorem revertBlock_unknown_generator (block : Block) (w : World) :
  (has_key (b_generatorPublicKey (b_data block)) (walletRepository w) = false ->
   revertBlock fromPublicKey registry block w =
     (Thrown AccountNotFound,
      mkWorld (walletRepository w) (faults w ++ [lookupFailure block])))
  /\
  (has_key (b_generatorPublicKey (b_data block)) (walletRepository w) = true ->
   faults (snd (revertBlock fromPublicKey registry block w)) = faults w).
Proof.
  split.
  - intros Hhas. unfold revertBlock.
    erewrite bind_returned; [|reflexivity]. cbn [walletRepository]. rewrite Hhas. cbn [negb when].
    erewrite bind_returned; [|reflexivity].
    apply bind_thrown. apply findByPublicKey_fail.
    unfold walletByPublicKey. cbn [walletRepository].
    by rewrite (has_key_false_publicKey _ _ Hhas).
  - intros Hhas. unfold revertBlock.
    erewrite bind_returned; [|reflexivity]. cbn [walletRepository]. rewrite Hhas. cbn [negb when].
    erewrite bind_returned; [|reflexivity].
    unfold bind at 1.
    pose proof (findByPublicKey_reads (b_generatorPublicKey (b_data block)) w) as Hf.
    destruct (findByPublicKey _ w) as [[g|e] w0]; cbn [snd] in Hf; subst w0; [|done].
    unfold revertBlockTry.
    pose proof (quiet_forEachPush (revertTransaction registry)
                  (rev (b_transactions block)) [] w (quiet_revertTransaction registry)) as Hloop.
    destruct (forEachPush (revertTransaction registry) (rev (b_transactions block)) [] w)
      as [[[[]|e] reverted] w1]; cbn [snd] in Hloop.
    + assert (Hq : quiet (bind (revertBlockFromDelegate fromPublicKey g (b_data block))
                 (fun reverted0 => when reverted0 (updateVotedDelegate g (b_data block) true)))).
      { apply quiet_bind; [apply quiet_revertBlockFromDelegate|].
        intros [|]; [apply quiet_updateVotedDelegate | apply quiet_ret]. }
      specialize (Hq w1).
      destruct (bind _ _ w1) as [[[]|e] w2]; cbn [snd] in Hq.
      * cbn [snd]. congruence.
      * rewrite <- Hloop, <- Hq.
        apply (quiet_bind (forEach (applyTransaction registry) (rev reverted))
                 (fun _ => throw e)).
        -- apply quiet_forEach. apply quiet_applyTransaction.
        -- intros _. apply quiet_throw.
    + rewrite <- Hloop.
      apply (quiet_bind (forEach (applyTransaction registry) (rev reverted))
               (fun _ => throw e)).
      * apply quiet_forEach. apply quiet_applyTransaction.
      * intros _. apply quiet_throw.
Qed.

End Catch.

(** ** A block without transactions, applied and reverted *)

Lemma repo_eq (r r' : WalletRepository) :
  byAddress r = byAddress r' -> byPublicKey r = byPublicKey r' -> byLocks r = byLocks r' ->
  r = r'.
Proof. destruct r, r'. cbn. by intros -> -> ->. Qed.

Lemma withVotes_putWallet_eq (g : string) (v : Z) (wal : Wallet) (r : WalletRepository) :
  withVotes g v (putWallet g wal r) = putWallet g (withVoteBalance v wal) r.
Proof. apply alter_putWallet. Qed.

Lemma withVotes_putWallet_ne (d g : string) (v : Z) (wal : Wallet) (r : WalletRepository) :
  d <> g ->
  withVotes d v (putWallet g wal r) = putWallet g wal (withVotes d v r).
Proof.
  intros Hne. apply repo_eq; [|done..].
  unfold withVotes, alter_wallet, putWallet, setWallets. cbn [byAddress].
  apply map_eq. intros a. rewrite lookup_alter, !lookup_insert, lookup_alter.
  destruct (decide (g = a)) as [Hg|]; destruct (decide (d = a)) as [Hd|];
    try done; try congruence.
  by rewrite decide_False by congruence.
Qed.

Lemma withVotes_withVotes (d : string) (v v' : Z) (r : WalletRepository) :
  withVotes d v' (withVotes d v r) = withVotes d v' r.
Proof.
  apply repo_eq; [|done..].
  unfold withVotes, alter_wallet, setWallets. cbn [byAddress].
  apply map_eq. intros a. rewrite !lookup_alter.
  destruct (decide (d = a)) as [<-|]; [|done].
  rewrite decide_True by done. by destruct (byAddress r !! d).
Qed.

Lemma withVotes_same (d : string) (v : Z) (wal : Wallet) (r : WalletRepository) :
  byAddress r !! d = Some wal -> is_Some (delegate wal) -> getVoteBalance wal = Some v ->
  withVotes d v r = r.
Proof.
  intros Hd [dg Hdg] Hv. apply repo_eq; [|done..].
  unfold withVotes, alter_wallet, setWallets. cbn [byAddress].
  apply map_eq. intros a. rewrite lookup_alter.
  destruct (decide (d = a)) as [<-|]; [|done]. rewrite Hd. cbn. f_equal.
  destruct wal as [pk bal vt dl lk]. cbn in Hdg, Hv. subst dl. cbn in Hv.
  destruct dg as [vb pb ffo fro lb]. cbn in Hv. subst vb. reflexivity.
Qed.

Lemma has_key_putWallet (key g : string) (wal : Wallet) (r : WalletRepository) :
  has_key key r = true -> has_key key (putWallet g wal r) = true.
Proof.
  unfold has_key. intros [H|H]%orb_true_iff; apply orb_true_iff; [left|by right].
  apply bool_decide_eq_true in H. apply bool_decide_eq_true.
  unfold putWallet, setWallets. cbn [byAddress]. rewrite lookup_insert.
  destruct (decide (g = key)); [by eexists | done].
Qed.

Lemma has_key_withVotes (key d : string) (v : Z) (r : WalletRepository) :
  has_key key r = true -> has_key key (withVotes d v r) = true.
Proof.
  unfold has_key. intros [H|H]%orb_true_iff; apply orb_true_iff; [left|by right].
  apply bool_decide_eq_true in H. apply bool_decide_eq_true.
  rewrite lookup_withVotes. destruct (decide (d = key)); [|done]. by apply fmap_is_Some.
Qed.

Lemma walletByPublicKey_putWallet (pk a g : string) (wa wal : Wallet) (r : WalletRepository) :
  walletByPublicKey r pk = Some (a, wa) ->
  walletByPublicKey (putWallet g wal r) pk = Some (a, if decide (g = a) then wal else wa).
Proof.
  unfold walletByPublicKey, deref, putWallet, setWallets. cbn [byAddress byPublicKey].
  destruct (byPublicKey r !! pk) as [x|]; [|done].
  rewrite lookup_insert.
  destruct (byAddress r !! x) as [y|] eqn:E; [|done]. intros [= <- <-].
  by destruct (decide (g = x)).
Qed.

Lemma walletByPublicKey_withVotes (pk a d : string) (wa : Wallet) (v : Z) (r : WalletRepository) :
  walletByPublicKey r pk = Some (a, wa) ->
  walletByPublicKey (withVotes d v r) pk
    = Some (a, if decide (d = a) then withVoteBalance v wa else wa).
Proof.
  unfold walletByPublicKey, deref. change (byPublicKey (withVotes d v r)) with (byPublicKey r).
  destruct (byPublicKey r !! pk) as [x|]; [|done].
  rewrite lookup_withVotes.
  destruct (byAddress r !! x) as [y|] eqn:E; [|done]. intros [= <- <-].
  by destruct (decide (d = x)).
Qed.

Section EmptyBlock.
Variable fromPublicKey : string -> string.
Variable registry : TransactionData -> Outcome TransactionHandler.

Lemma isGenerator_publicKey (g : string) (wal wal' : Wallet) (bd : BlockData) :
  publicKey wal' = publicKey wal ->
  isGenerator fromPublicKey g wal' bd = isGenerator fromPublicKey g wal bd.
Proof. intros H. unfold isGenerator. by rewrite H. Qed.

(** X12: a block without transactions, applied and then reverted, on any
    ledger whose generator wallet carries the delegate attributes, with a
    counter below 2^53 (where a number counts exactly).  Both calls return; the generator has its balance, [producedBlocks], [forgedFees] and
    [forgedRewards] back and its [lastBlock] cleared, the delegate that it
    backs has its vote balance back, and every other wallet is untouched. *)
Theorem empty_block_round_trip (block : Block) (w : World) (g : string) (wg : Wallet)
  (dg : WalletDelegateAttributes) (n ff fr : Z) :
  b_transactions block = [] ->
  has_key (b_generatorPublicKey (b_data block)) (walletRepository w) = true ->
  walletByPublicKey (walletRepository w) (b_generatorPublicKey (b_data block)) = Some (g, wg) ->
  isGenerator fromPublicKey g wg (b_data block) = true ->
  delegate wg = Some dg ->
  producedBlocks dg = Some n ->
  Z.abs n < 2 ^ 53 ->
  forgedFees dg = Some ff ->
  forgedRewards dg = Some fr ->
  match vote wg with
  | Some pk => exists v wv vb, walletByPublicKey (walletRepository w) pk = Some (v, wv) /\
                               getVoteBalance wv = Some vb
  | None => True
  end ->
  (do applyBlock fromPublicKey registry block
   then revertBlock fromPublicKey registry block) w =
    (Returned tt,
     setRepo (putWallet g
       (mkWallet (publicKey wg) (balance wg) (vote wg)
          (Some (mkDelegate (voteBalance dg) (Some n) (Some ff) (Some fr) None))
          (locks wg))
       (walletRepository w)) w).
Proof.
  intros Htxs Hhas Hg Hgen Hd Hn Hsafe Hff Hfr Hvote.
  pose proof (deref_lookup _ _ _ _ Hg) as Hwg.
  set (bd := b_data block) in *.
  set (c := b_reward bd + b_totalFee bd).
  set (credited :=
    mkWallet (publicKey wg) (balance wg + b_reward bd + b_totalFee bd) (vote wg)
      (Some (mkDelegate (voteBalance dg) (Some (n + 1)) (Some (ff + b_totalFee bd))
               (Some (fr + b_reward bd)) (Some bd))) (locks wg)).
  set (restored :=
    mkWallet (publicKey wg) (balance wg) (vote wg)
      (Some (mkDelegate (voteBalance dg) (Some n) (Some ff) (Some fr) None)) (locks wg)).
  set (r := walletRepository w) in *.
  assert (Hcredit : applyBlockToDelegate fromPublicKey g bd w
                    = (Returned true, setRepo (putWallet g credited r) w)).
  { erewrite applyBlockToDelegate_run; [|done..]. rewrite Hn.
    cbn [fmap option_fmap option_map]. by rewrite number_add_1. }
  assert (Hrevert : forall (x : Wallet) (u : World) (vb' : option Z),
     byAddress (walletRepository u) !! g = Some x ->
     x = mkWallet (publicKey wg) (balance wg + b_reward bd + b_totalFee bd) (vote wg)
           (Some (mkDelegate vb' (Some (n + 1)) (Some (ff + b_totalFee bd))
                    (Some (fr + b_reward bd)) (Some bd))) (locks wg) ->
     revertBlockFromDelegate fromPublicKey g bd u
       = (Returned true,
          setRepo (putWallet g
            (mkWallet (publicKey wg) (balance wg) (vote wg)
               (Some (mkDelegate vb' (Some n) (Some ff) (Some fr) None)) (locks wg))
            (walletRepository u)) u)).
  { intros x u vb' Hx ->.
    erewrite revertBlockFromDelegate_run;
      [|exact Hx|by rewrite (isGenerator_publicKey g wg)|reflexivity..].
    cbn. unfold number_sub. rewrite toNumber_exact by lia.
    do 4 f_equal; [lia|]. do 2 f_equal; f_equal; lia. }
  assert (Hres : resolveGenerator fromPublicKey block w = (Returned (Some g), w))
    by (by eapply resolveGenerator_known).
  assert (Hloop : forEachPush (applyTransaction registry) (b_transactions block) [] w
                  = (Returned tt, [], w)) by (by rewrite Htxs).
  destruct (vote wg) as [pk|] eqn:Hv.
  - destruct Hvote as (v & wv & vb & Hdv & Hvb).
    assert (Hdel : is_Some (delegate wv)).
    { unfold getVoteBalance in Hvb. destruct (delegate wv); [by eexists | done]. }
    pose proof (deref_lookup _ _ _ _ Hdv) as Hwv.
    assert (Hvb_dg : v = g -> voteBalance dg = Some vb).
    { intros ->. rewrite Hwg in Hwv. injection Hwv as <-.
      unfold getVoteBalance in Hvb. by rewrite Hd in Hvb. }
    set (r3 := withVotes v (vb + c) (putWallet g credited r)).
    assert (Happly : applyBlock fromPublicKey registry block w = (Returned tt, setRepo r3 w)).
    { apply (applyBlock_after_transactions fromPublicKey registry block w w w g []
               Hres Hloop (Returned tt)).
      erewrite bind_returned; [|exact Hcredit]. cbn [when].
      rewrite (updateVotedDelegate_run g credited bd false _ pk v
                 (if decide (g = v) then credited else wv) vb); [reflexivity|..].
      + apply lookup_putWallet_eq.
      + reflexivity.
      + cbn [walletRepository setRepo]. by apply walletByPublicKey_putWallet.
      + destruct (decide (g = v)) as [<-|]; [|exact Hvb].
        unfold getVoteBalance. cbn. by apply Hvb_dg. }
    erewrite bind_returned; [|exact Happly].
    assert (Hg3 : walletByPublicKey r3 (b_generatorPublicKey bd)
                  = Some (g, if decide (v = g) then withVoteBalance (vb + c) credited
                             else credited)).
    { unfold r3. erewrite walletByPublicKey_withVotes;
        [|by apply walletByPublicKey_putWallet].
      by rewrite (decide_True (P := g = g)) by done. }
    set (vb3 := if decide (v = g) then Some (vb + c) else voteBalance dg).
    set (uncredited :=
      mkWallet (publicKey wg) (balance wg) (Some pk)
        (Some (mkDelegate vb3 (Some n) (Some ff) (Some fr) None)) (locks wg)).
    assert (Hhas3 : has_key (b_generatorPublicKey bd) (walletRepository (setRepo r3 w)) = true)
      by (cbn [walletRepository setRepo]; by apply has_key_withVotes, has_key_putWallet).
    assert (Hloop3 : forEachPush (revertTransaction registry) (rev (b_transactions block)) []
                       (setRepo r3 w) = (Returned tt, [], setRepo r3 w)) by (by rewrite Htxs).
    apply (revertBlock_after_transactions fromPublicKey registry block (setRepo r3 w)
             (setRepo r3 w) g
             (if decide (v = g) then withVoteBalance (vb + c) credited else credited)
             [] Hhas3 Hg3 Hloop3 (Returned tt)).
    erewrite bind_returned.
    2: { apply (Hrevert (if decide (v = g) then withVoteBalance (vb + c) credited else credited)
                  (setRepo r3 w) vb3).
         - cbn [walletRepository setRepo]. by eapply deref_lookup.
         - unfold vb3. by destruct (decide (v = g)). }
    cbn [when].
    erewrite (updateVotedDelegate_run g uncredited bd true _ pk v _ (vb + c)).
    + cbn [walletRepository setRepo]. unfold setRepo. cbn [faults].
      do 2 f_equal. unfold r3, uncredited, vb3.
      destruct (decide (v = g)) as [->|Hne].
      * rewrite !withVotes_putWallet_eq, putWallet_putWallet. f_equal.
        unfold restored, withVoteBalance, set_delegate, set_voteBalance. cbn.
        rewrite (Hvb_dg eq_refl). unfold c. by rewrite Z.add_simpl_r.
      * rewrite !(withVotes_putWallet_ne v g) by done.
        rewrite putWallet_putWallet, withVotes_withVotes.
        replace (vb + c - (b_reward bd + b_totalFee bd)) with vb by (unfold c; lia).
        by rewrite (withVotes_same v vb wv r).
    + apply lookup_putWallet_eq.
    + reflexivity.
    + cbn [walletRepository setRepo]. apply walletByPublicKey_putWallet.
      unfold r3. apply walletByPublicKey_withVotes. by apply walletByPublicKey_putWallet.
    + unfold uncredited, vb3.
      destruct (decide (g = v)) as [<-|Hne].
      * rewrite decide_True by done. reflexivity.
      * rewrite decide_True by done.
        destruct wv as [a b c0 [dv|] e]; [|by destruct Hdel]. reflexivity.
  - assert (Happly : applyBlock fromPublicKey registry block w
                     = (Returned tt, setRepo (putWallet g credited r) w)).
    { apply (applyBlock_after_transactions fromPublicKey registry block w w w g []
               Hres Hloop (Returned tt)).
      erewrite bind_returned; [|exact Hcredit]. cbn [when].
      erewrite updateVotedDelegate_none; [reflexivity | apply lookup_putWallet_eq | reflexivity]. }
    erewrite bind_returned; [|exact Happly].
    assert (Hrev : revertBlock fromPublicKey registry block (setRepo (putWallet g credited r) w)
      = (Returned tt, setRepo (putWallet g restored (putWallet g credited r))
                        (setRepo (putWallet g credited r) w))).
    { set (w2 := setRepo (putWallet g credited r) w).
      assert (Hhas2 : has_key (b_generatorPublicKey bd) (walletRepository w2) = true)
        by (cbn [walletRepository setRepo]; by apply has_key_putWallet).
      assert (Hg2 : walletByPublicKey (walletRepository w2) (b_generatorPublicKey bd)
                    = Some (g, credited)).
      { cbn [walletRepository setRepo w2].
        erewrite walletByPublicKey_putWallet; [|exact Hg]. by rewrite decide_True. }
      assert (Hloop2 : forEachPush (revertTransaction registry) (rev (b_transactions block)) []
                         w2 = (Returned tt, [], w2)) by (by rewrite Htxs).
      apply (revertBlock_after_transactions fromPublicKey registry block w2 w2 g credited []
               Hhas2 Hg2 Hloop2 (Returned tt)).
      erewrite bind_returned.
      2: { apply (Hrevert credited w2 (voteBalance dg)); [apply lookup_putWallet_eq | done]. }
      cbn [when]. eapply updateVotedDelegate_none; [apply lookup_putWallet_eq | done]. }
    rewrite Hrev. unfold setRepo. cbn [faults walletRepository].
    by rewrite putWallet_putWallet.
Qed.

End EmptyBlock.

(** ** Vote balances and the balances of the voters *)

Lemma voterBalance_insert (pk a : string) (wal : Wallet) (m : gmap string Wallet) :
  m !! a = None ->
  map_fold (fun _ x acc => voterShare pk x + acc) 0 (<[a := wal]> m)
  = voterShare pk wal + map_fold (fun _ x acc => voterShare pk x + acc) 0 m.
Proof.
  intros H. apply (map_fold_insert_L (fun _ x acc => voterShare pk x + acc)); [|done].
  intros. lia.
Qed.

Lemma voterBalance_alter (f : Wallet -> Wallet) (a pk : string) (wal : Wallet)
  (r : WalletRepository) :
  byAddress r !! a = Some wal ->
  voterBalance (alter_wallet f a r) pk
  = voterBalance r pk - voterShare pk wal + voterShare pk (f wal).
Proof.
  intros H. unfold voterBalance, alter_wallet, setWallets. cbn [byAddress].
  rewrite <- (insert_delete_id (byAddress r) a wal H) at 2.
  assert (Halt : alter f a (byAddress r) = <[a := f wal]> (delete a (byAddress r))).
  { apply map_eq. intros b. rewrite lookup_alter.
    destruct (decide (a = b)) as [<-|Hne].
    - by rewrite lookup_insert_eq, H.
    - by rewrite lookup_insert_ne, lookup_delete_ne. }
  rewrite Halt, !voterBalance_insert by apply lookup_delete_eq. lia.
Qed.

Lemma keysDistinct_inj (r : WalletRepository) (pk1 pk2 d : string) :
  keysDistinct r ->
  byPublicKey r !! pk1 = Some d -> byPublicKey r !! pk2 = Some d -> pk1 = pk2.
Proof.
  unfold keysDistinct. intros Hnd H1 H2.
  apply elem_of_map_to_list in H1, H2.
  destruct (decide (pk1 = pk2)) as [|Hne]; [done|exfalso].
  apply list_elem_of_lookup in H1 as [i Hi], H2 as [j Hj].
  assert (i = j).
  { eapply (NoDup_lookup _ i j d); [exact Hnd|..]; rewrite list_lookup_fmap.
    - by rewrite Hi. - by rewrite Hj. }
  subst j. congruence.
Qed.
Lemma is_Some_alter_wallet (f : Wallet -> Wallet) (a : string) (r : WalletRepository) (b : string) :
  is_Some (byAddress (alter_wallet f a r) !! b) <-> is_Some (byAddress r !! b).
Proof.
  rewrite lookup_alter_wallet. destruct (decide (a = b)); [|done]. by rewrite fmap_is_Some.
Qed.

Lemma votesOf_alter_wallet (f : Wallet -> Wallet) (a : string) (r : WalletRepository) (d : string) :
  (forall wal, delegate (f wal) = delegate wal) ->
  votesOf (alter_wallet f a r) d = votesOf r d.
Proof.
  intros Hf. unfold votesOf. rewrite lookup_alter_wallet.
  destruct (decide (a = d)); [|done].
  destruct (byAddress r !! d) as [wal|]; [|done]. cbn.
  unfold getVoteBalanceOrZero, getVoteBalance. by rewrite Hf.
Qed.

Lemma walletByPublicKey_alter_wallet (f : Wallet -> Wallet) (x : string) (r : WalletRepository)
  (pk a : string) (wa : Wallet) :
  walletByPublicKey r pk = Some (a, wa) ->
  walletByPublicKey (alter_wallet f x r) pk = Some (a, if decide (x = a) then f wa else wa).
Proof.
  unfold walletByPublicKey, deref.
  change (byPublicKey (alter_wallet f x r)) with (byPublicKey r).
  destruct (byPublicKey r !! pk) as [y|]; [|done].
  rewrite lookup_alter_wallet.
  destruct (byAddress r !! y) as [z|] eqn:E; [|done]. intros [= <- <-].
  by destruct (decide (x = y)).
Qed.

Lemma backedDelegate_alter_wallet (f : Wallet -> Wallet) (a : string) (r : WalletRepository)
  (x : string) :
  (forall wal, vote (f wal) = vote wal) ->
  backedDelegate (alter_wallet f a r) x = backedDelegate r x.
Proof.
  intros Hf. unfold backedDelegate. rewrite lookup_alter_wallet.
  assert (Hpk : forall pk,
    match walletByPublicKey (alter_wallet f a r) pk with
    | Some (y, _) => Some (Some y) | None => None end =
    match walletByPublicKey r pk with
    | Some (y, _) => Some (Some y) | None => None end).
  { intros pk. destruct (walletByPublicKey r pk) as [[y wy]|] eqn:E.
    - by erewrite walletByPublicKey_alter_wallet.
    - unfold walletByPublicKey, deref in *.
      change (byPublicKey (alter_wallet f a r)) with (byPublicKey r).
      destruct (byPublicKey r !! pk) as [y|]; [|done].
      rewrite lookup_alter_wallet.
      destruct (byAddress r !! y); [done|]. by destruct (decide (a = y)). }
  destruct (decide (a = x)); destruct (byAddress r !! x) as [wal|]; cbn; try done.
  - rewrite Hf. destruct (vote wal); [apply Hpk | done].
  - destruct (vote wal); [apply Hpk | done].
Qed.

Lemma voterBalance_alter_same (f : Wallet -> Wallet) (a pk : string) (r : WalletRepository) :
  (forall wal, voterShare pk (f wal) = voterShare pk wal) ->
  voterBalance (alter_wallet f a r) pk = voterBalance r pk.
Proof.
  intros Hf. destruct (byAddress r !! a) as [wal|] eqn:E.
  - rewrite (voterBalance_alter f a pk wal r E), Hf. lia.
  - unfold voterBalance, alter_wallet, setWallets. cbn [byAddress]. f_equal.
    apply map_eq. intros b. rewrite lookup_alter.
    destruct (decide (a = b)) as [<-|]; [by rewrite E | done].
Qed.

Lemma voterBalance_withVotes (d : string) (v : Z) (r : WalletRepository) (pk : string) :
  voterBalance (withVotes d v r) pk = voterBalance r pk.
Proof. apply voterBalance_alter_same. by intros wal. Qed.

Lemma voterBalance_addVotes (od : option string) (c : Z) (r : WalletRepository) (pk : string) :
  voterBalance (addVotes od c r) pk = voterBalance r pk.
Proof. destruct od; [apply voterBalance_withVotes | done]. Qed.

Lemma voterBalance_adjustBalance (c : Z) (a : string) (wal : Wallet) (r : WalletRepository)
  (pk : string) :
  byAddress r !! a = Some wal ->
  voterBalance (adjustBalance c a r) pk
  = voterBalance r pk + (if decide (vote wal = Some pk) then c else 0).
Proof.
  intros H. unfold adjustBalance. rewrite (voterBalance_alter _ a pk wal r H).
  unfold voterShare. cbn [vote balance set_balance].
  destruct (decide (vote wal = Some pk)); lia.
Qed.

(** The delegate that a wallet backs is the wallet behind the key it votes
    for: with distinct keys, a change for that delegate reaches [d] exactly
    when the wallet votes for the key of [d]. *)
Lemma voteDelta_voter (r : WalletRepository) (x : string) (wx : Wallet) (od : option string)
  (pk d : string) (c : Z) :
  keysDistinct r ->
  byPublicKey r !! pk = Some d ->
  is_Some (byAddress r !! d) ->
  byAddress r !! x = Some wx ->
  backedDelegate r x = Some od ->
  voteDelta od c d = (if decide (vote wx = Some pk) then c else 0).
Proof.
  intros Hkeys Hpk [wd Hd] Hx Hb. unfold backedDelegate in Hb. rewrite Hx in Hb.
  unfold voteDelta. destruct (vote wx) as [pk'|].
  - unfold walletByPublicKey, deref in Hb.
    destruct (byPublicKey r !! pk') as [d'|] eqn:Hpk'; [|done].
    destruct (byAddress r !! d') as [wd'|]; [|done]. injection Hb as <-.
    destruct (decide (Some pk' = Some pk)) as [[= ->]|Hne].
    + rewrite Hpk in Hpk'. injection Hpk' as <-. by rewrite decide_True.
    + rewrite decide_False; [done|]. intros [= ->]. apply Hne. f_equal.
      by eapply keysDistinct_inj.
  - injection Hb as <-. rewrite decide_False by done. by rewrite decide_False.
Qed.

Lemma votesMatchBalances_lookup (r : WalletRepository) (pk d : string) :
  votesMatchBalances r -> byPublicKey r !! pk = Some d -> is_Some (byAddress r !! d) ->
  votesOf r d = voterBalance r pk.
Proof. intros H Hpk Hd. by apply (H pk d Hpk). Qed.

Lemma lookup_adjustBalance (c : Z) (a : string) (r : WalletRepository) (b : string) :
  byAddress (adjustBalance c a r) !! b =
    if decide (a = b) then (fun wal => set_balance (balance wal + c) wal) <$> byAddress r !! b
    else byAddress r !! b.
Proof. apply lookup_alter_wallet. Qed.

Lemma byPublicKey_addVotes (od : option string) (c : Z) (r : WalletRepository) :
  byPublicKey (addVotes od c r) = byPublicKey r.
Proof. by destruct od. Qed.

(** The general rule after a handler that has moved the money: [c] to the
    sender and [cr] to the recipient, where [c] and [cr] are what the rule
    itself gives to the delegates of the two. *)
Lemma general_update_keeps_matching (s rid : string) (t : TransactionData)
  (lockWallet : option string) (lockTransaction : option HtlcLockRecord) (revert : bool)
  (w : World) (ws wr : Wallet) (od odr : option string) :
  isCore Vote t = false -> isCore HtlcLock t = false ->
  isCore HtlcClaim t = false -> isCore MultiPayment t = false ->
  let r := walletRepository w in
  let c := if revert then tx_amount t + tx_fee t else - (tx_amount t + tx_fee t) in
  let cr := if revert then - tx_amount t else tx_amount t in
  let r1 := adjustBalance cr rid (adjustBalance c s r) in
  byAddress r !! s = Some ws ->
  byAddress r !! rid = Some wr ->
  backedDelegate r s = Some od ->
  backedDelegate r rid = Some odr ->
  keysDistinct r ->
  votesMatchBalances r ->
  exists r2,
    updateVoteBalances s (Some rid) t lockWallet lockTransaction revert (setRepo r1 w)
      = (Returned tt, setRepo r2 w) /\
    votesMatchBalances r2 /\ keysDistinct r2.
Proof.
  intros Hv Hl Hc Hm r c cr r1 Hs Hr Hod Hodr Hkeys Hinv.
  set (fs := fun wal => set_balance (balance wal + c) wal).
  set (fr := fun wal => set_balance (balance wal + cr) wal).
  assert (Hod1 : backedDelegate r1 s = Some od).
  { unfold r1, adjustBalance. by rewrite !backedDelegate_alter_wallet. }
  assert (Hodr1 : backedDelegate r1 rid = Some odr).
  { unfold r1, adjustBalance. by rewrite !backedDelegate_alter_wallet. }
  eexists. split.
  { rewrite (updateVoteBalances_general s (Some rid) t lockWallet lockTransaction revert
               (setRepo r1 w) od odr); [|done..].
    cbn [walletRepository setRepo]. unfold setRepo. cbn [faults]. reflexivity. }
  fold c. fold cr.
  assert (Hc' : (if revert then tx_amount t + tx_fee t else - (tx_amount t + tx_fee t)) = c)
    by done.
  assert (Hex1 : forall a, is_Some (byAddress r1 !! a) <-> is_Some (byAddress r !! a)).
  { intros a. unfold r1, adjustBalance. by rewrite !is_Some_alter_wallet. }
  split; [|unfold keysDistinct; by rewrite !byPublicKey_addVotes].
  intros pk d Hpk Hd.
  rewrite !lookup_addVotes_is_Some in Hd. rewrite Hex1 in Hd.
  rewrite !byPublicKey_addVotes in Hpk.
  change (byPublicKey r !! pk = Some d) in Hpk.
  rewrite !voterBalance_addVotes.
  rewrite votesOf_addVotes.
  2: { intros d' ->. apply lookup_addVotes_is_Some. by eapply backedDelegate_exists. }
  rewrite votesOf_addVotes.
  2: { intros d' ->. by eapply backedDelegate_exists. }
  assert (Hv1 : votesOf r1 d = votesOf r d).
  { unfold r1, adjustBalance. by rewrite !votesOf_alter_wallet. }
  rewrite Hv1, (votesMatchBalances_lookup r pk d Hinv Hpk Hd).
  rewrite (voteDelta_voter r s ws od pk d _ Hkeys Hpk Hd Hs Hod).
  rewrite (voteDelta_voter r rid wr odr pk d _ Hkeys Hpk Hd Hr Hodr).
  assert (Hr' : exists wr', byAddress (adjustBalance c s r) !! rid = Some wr' /\ vote wr' = vote wr).
  { rewrite lookup_adjustBalance. destruct (decide (s = rid)); rewrite Hr; by eexists. }
  destruct Hr' as (wr' & Hwr' & Hvote').
  unfold r1. rewrite (voterBalance_adjustBalance cr rid wr' _ pk Hwr'), Hvote'.
  rewrite (voterBalance_adjustBalance c s ws r pk Hs). lia.
Qed.

Section Matching.
Variable registry : TransactionData -> Outcome TransactionHandler.

(** X13: what the general rule is for.  Take a ledger on which every wallet
    that the public-key index leads to has, as its vote balance, the sum of
    the balances of the wallets voting for its key, and on which distinct keys
    lead to distinct wallets.  When the handler of a transfer takes
    amount + fee from the sender and gives the amount to the recipient,
    [applyTransaction] returns and leaves a ledger with the same property;
    and so does [revertTransaction], when the handler's revert gives
    amount + fee back to the sender and takes the amount from the
    recipient. *)
Theorem transfer_keeps_votes_matching (t : Transaction) (h : TransactionHandler)
  (spk rid : string) (w : World) (s : string) (ws wr : Wallet) (od odr : option string) :
  isCore Vote (tx_data t) = false ->
  isCore HtlcLock (tx_data t) = false ->
  isCore HtlcClaim (tx_data t) = false ->
  isCore MultiPayment (tx_data t) = false ->
  registry (tx_data t) = Returned h ->
  senderPublicKey (tx_data t) = Some spk ->
  truthy (recipientId (tx_data t)) = Some rid ->
  let r := walletRepository w in
  let amount := tx_amount (tx_data t) in
  let fee := tx_fee (tx_data t) in
  walletByPublicKey r spk = Some (s, ws) ->
  byAddress r !! rid = Some wr ->
  backedDelegate r s = Some od ->
  backedDelegate r rid = Some odr ->
  keysDistinct r ->
  votesMatchBalances r ->
  (handler_apply h t r
     = (Returned tt, adjustBalance amount rid (adjustBalance (- (amount + fee)) s r)) ->
   exists w', applyTransaction registry t w = (Returned tt, w') /\
     votesMatchBalances (walletRepository w') /\ keysDistinct (walletRepository w'))
  /\
  (handler_revert h t r
     = (Returned tt, adjustBalance (- amount) rid (adjustBalance (amount + fee) s r)) ->
   exists w', revertTransaction registry t w = (Returned tt, w') /\
     votesMatchBalances (walletRepository w') /\ keysDistinct (walletRepository w')).
Proof.
  intros Hv Hl Hc Hm Hreg Hspk Hrid r amount fee Hs Hr Hod Hodr Hkeys Hinv.
  pose proof (deref_lookup _ _ _ _ Hs) as Hws.
  split.
  - intros Hap.
    destruct (general_update_keeps_matching s rid (tx_data t) None None false w ws wr od odr
                Hv Hl Hc Hm Hws Hr Hod Hodr Hkeys Hinv) as (r2 & Hrun & Hinv2 & Hkeys2).
    exists (setRepo r2 w). split; [|done].
    set (r1 := adjustBalance amount rid (adjustBalance (- (amount + fee)) s r)) in *.
    erewrite applyTransaction_run;
      [|exact Hreg|by apply lockContext_skip|exact Hap|exact Hspk|].
    2: { unfold r1, adjustBalance.
         erewrite walletByPublicKey_alter_wallet;
           [reflexivity|by apply walletByPublicKey_alter_wallet]. }
    cbn [fst snd].
    assert (Hrc : recipientOf r1 (tx_data t) = Some rid).
    { unfold recipientOf. rewrite Hrid. unfold walletByAddress, deref.
      assert (is_Some (byAddress r1 !! rid)) as [x Hx]
        by (unfold r1, adjustBalance; rewrite !is_Some_alter_wallet; by eexists).
      by rewrite Hx. }
    rewrite Hrc. exact Hrun.
  - intros Hre.
    destruct (general_update_keeps_matching s rid (tx_data t) None None true w ws wr od odr
                Hv Hl Hc Hm Hws Hr Hod Hodr Hkeys Hinv) as (r2 & Hrun & Hinv2 & Hkeys2).
    exists (setRepo r2 w). split; [|done].
    erewrite revertTransaction_run;
      [|exact Hreg|exact Hspk|exact Hs|exact Hre|by apply lockContext_skip].
    cbn [fst snd].
    assert (Hrc : recipientOf r (tx_data t) = Some rid).
    { unfold recipientOf. rewrite Hrid. unfold walletByAddress, deref. by rewrite Hr. }
    fold r. rewrite Hrc. exact Hrun.
Qed.

End Matching.

(** The vote rule after a handler that has charged (or given back) the fee and
    set (or cleared) the vote of the sender. *)
Lemma vote_update_keeps_matching (s : string) (rc : option string) (t : TransactionData)
  (lockWallet : option string) (lockTransaction : option HtlcLockRecord) (revert : bool)
  (w : World) (sign : ascii) (key : string) (rest : list string)
  (ws : Wallet) (d : string) (wd : Wallet) :
  isCore Vote t = true ->
  asset t ≫= votes = Some (String sign key :: rest) ->
  let r := walletRepository w in
  let joins := xorb (bool_decide (sign = "+"%char)) revert in
  let r1 := alter_wallet (set_vote (if joins then Some key else None)) s
              (adjustBalance (if revert then tx_fee t else - tx_fee t) s r) in
  byAddress r !! s = Some ws ->
  walletByPublicKey r key = Some (d, wd) ->
  vote ws = (if joins then None else Some key) ->
  keysDistinct r ->
  votesMatchBalances r ->
  exists r2,
    updateVoteBalances s rc t lockWallet lockTransaction revert (setRepo r1 w)
      = (Returned tt, setRepo r2 w) /\
    votesMatchBalances r2 /\ keysDistinct r2.
Proof.
  intros Hk Hvotes r joins r1 Hs Hd Hvote Hkeys Hinv.
  set (c := if revert then tx_fee t else - tx_fee t) in *.
  set (va := if joins then Some key else None) in *.
  set (ws1 := set_vote va (set_balance (balance ws + c) ws)).
  pose proof (deref_lookup _ _ _ _ Hd) as Hwd.
  assert (Hkey : byPublicKey r !! key = Some d).
  { unfold walletByPublicKey, deref in Hd.
    destruct (byPublicKey r !! key) as [x|]; [|done].
    destruct (byAddress r !! x); [|done]. by injection Hd as -> _. }
  assert (Hs0 : byAddress (adjustBalance c s r) !! s = Some (set_balance (balance ws + c) ws)).
  { rewrite lookup_adjustBalance, decide_True by done. by rewrite Hs. }
  assert (Hs1 : byAddress r1 !! s = Some ws1).
  { unfold r1. rewrite lookup_alter_wallet, decide_True by done. by rewrite Hs0. }
  assert (Hvotes1 : forall a, votesOf r1 a = votesOf r a).
  { intros a. unfold r1, adjustBalance. by rewrite !votesOf_alter_wallet. }
  assert (Hex1 : forall a, is_Some (byAddress r1 !! a) <-> is_Some (byAddress r !! a)).
  { intros a. unfold r1, adjustBalance. by rewrite !is_Some_alter_wallet. }
  destruct (proj2 (Hex1 d) (mk_is_Some _ _ Hwd)) as [wd1 Hwd1].
  assert (Hd1 : walletByPublicKey r1 key = Some (d, wd1)).
  { unfold walletByPublicKey, deref.
    change (byPublicKey r1) with (byPublicKey r). by rewrite Hkey, Hwd1. }
  assert (Hshare : forall pk, voterBalance r1 pk
                     = voterBalance r pk - voterShare pk ws + voterShare pk ws1).
  { intros pk. unfold r1.
    rewrite (voterBalance_alter _ s pk _ _ Hs0).
    unfold adjustBalance. rewrite (voterBalance_alter _ s pk ws r Hs).
    fold ws1. lia. }
  eexists. split.
  { unfold updateVoteBalances. rewrite Hk.
    erewrite voteStep_run; [|exact Hvotes|exact Hs1|exact Hd1].
    cbn [walletRepository setRepo]. unfold setRepo. cbn [faults]. reflexivity. }
  split; [|exact Hkeys].
  intros pk d' Hpk Hd'.
  change (byPublicKey r !! pk = Some d') in Hpk.
  rewrite lookup_withVotes in Hd'.
  assert (Hd'' : is_Some (byAddress r !! d')).
  { apply Hex1. destruct (decide (d = d')); [by apply fmap_is_Some in Hd' | done]. }
  rewrite voterBalance_withVotes, Hshare.
  rewrite <- (votesMatchBalances_lookup r pk d' Hinv Hpk Hd'').
  unfold votesOf at 1. rewrite lookup_withVotes.
  destruct (decide (d = d')) as [<-|Hne].
  - assert (pk = key) as -> by (by eapply keysDistinct_inj).
    rewrite Hwd1. cbn [fmap option_fmap option_map].
    change (getVoteBalanceOrZero (withVoteBalance ?v _)) with v.
    rewrite <- (votesOf_lookup _ _ _ Hwd1), Hvotes1.
    unfold voterShare, ws1. cbn [vote balance set_vote set_balance]. rewrite Hvote.
    unfold va, c, joins.
    destruct (bool_decide (sign = "+"%char)); destruct revert; cbn [xorb];
      repeat case_decide; try done; lia.
  - fold (votesOf r1 d'). rewrite Hvotes1.
    assert (pk <> key) by (intros ->; congruence).
    unfold voterShare, ws1. cbn [vote balance set_vote set_balance]. rewrite Hvote.
    unfold va. destruct joins; repeat case_decide; try congruence; lia.
Qed.

Section VoteMatching.
Variable registry : TransactionData -> Outcome TransactionHandler.

(** X14: what the vote rule is for.  On a ledger as in X13: when the handler
    of a vote charges the fee to the sender and sets its [vote] to the key
    voted for (or clears it, for an unvote of the key it had voted for),
    [applyTransaction] returns and leaves a ledger on which the vote balances
    are again the sums of the balances of the voters; and so does
    [revertTransaction], when the handler's revert gives the fee back and
    puts the [vote] back. *)
Theorem vote_keeps_votes_matching (t : Transaction) (h : TransactionHandler)
  (sign : ascii) (key : string) (rest : list string) (spk : string)
  (w : World) (s : string) (ws : Wallet) (d : string) (wd : Wallet) :
  isCore Vote (tx_data t) = true ->
  registry (tx_data t) = Returned h ->
  asset (tx_data t) ≫= votes = Some (String sign key :: rest) ->
  senderPublicKey (tx_data t) = Some spk ->
  let r := walletRepository w in
  let fee := tx_fee (tx_data t) in
  let voting := bool_decide (sign = "+"%char) in
  walletByPublicKey r spk = Some (s, ws) ->
  walletByPublicKey r key = Some (d, wd) ->
  keysDistinct r ->
  votesMatchBalances r ->
  (vote ws = (if voting then None else Some key) ->
   handler_apply h t r
     = (Returned tt,
        alter_wallet (set_vote (if voting then Some key else None)) s
          (adjustBalance (- fee) s r)) ->
   exists w', applyTransaction registry t w = (Returned tt, w') /\
     votesMatchBalances (walletRepository w') /\ keysDistinct (walletRepository w'))
  /\
  (vote ws = (if voting then Some key else None) ->
   handler_revert h t r
     = (Returned tt,
        alter_wallet (set_vote (if voting then None else Some key)) s
          (adjustBalance fee s r)) ->
   exists w', revertTransaction registry t w = (Returned tt, w') /\
     votesMatchBalances (walletRepository w') /\ keysDistinct (walletRepository w')).
Proof.
  intros Hk Hreg Hvotes Hspk r fee voting Hs Hd Hkeys Hinv.
  pose proof (deref_lookup _ _ _ _ Hs) as Hws.
  assert (Hnc : isCore HtlcClaim (tx_data t) = false) by (by apply (isCore_exclusive Vote)).
  split.
  - intros Hvote Hap.
    destruct (vote_update_keeps_matching s
                (recipientOf (alter_wallet (set_vote (if voting then Some key else None)) s
                                (adjustBalance (- fee) s r)) (tx_data t))
                (tx_data t) None None false w sign key rest ws d wd Hk Hvotes Hws Hd)
      as (r2 & Hrun & Hinv2 & Hkeys2); [|done|done|].
    { cbn [xorb]. rewrite xorb_false_r. exact Hvote. }
    cbn [xorb] in Hrun. rewrite xorb_false_r in Hrun.
    exists (setRepo r2 w). split; [|done].
    erewrite applyTransaction_run;
      [|exact Hreg|by apply lockContext_skip|exact Hap|exact Hspk|].
    2: { erewrite walletByPublicKey_alter_wallet;
           [reflexivity|by apply walletByPublicKey_alter_wallet]. }
    exact Hrun.
  - intros Hvote Hre.
    destruct (vote_update_keeps_matching s (recipientOf r (tx_data t))
                (tx_data t) None None true w sign key rest ws d wd Hk Hvotes Hws Hd)
      as (r2 & Hrun & Hinv2 & Hkeys2); [|done|done|].
    { rewrite xorb_true_r. fold voting. by destruct voting. }
    rewrite xorb_true_r in Hrun. fold voting in Hrun.
    exists (setRepo r2 w). split; [|done].
    erewrite revertTransaction_run;
      [|exact Hreg|exact Hspk|exact Hs|exact Hre|by apply lockContext_skip].
    cbn [fst snd]. fold r. fold fee.
    by destruct voting.
Qed.

End VoteMatching.

(** ** [createBlock] *)

Section CreateBlockFacts.

Variable Buffer : Type.
Variable Buffer_from_hex : string -> Buffer.
Variable sha256_hex : list Buffer -> string.
Variable IBlock : Type.
Variable make : Method.IBlockData -> Method.IKeyPair -> (Z -> Z) -> option IBlock.

Lemma collect_run (txs : list Method.ITransactionData) (totals : Method.Totals)
  (bufs : list Buffer) :
  Method.collect Buffer Buffer_from_hex txs totals bufs =
    match Method.idsOf txs with
    | Some ids =>
        Returned
          (Method.mkTotals (Method.totals_amount totals + Method.sumOf Method.amount txs)
                           (Method.totals_fee totals + Method.sumOf Method.fee txs),
           bufs ++ map Buffer_from_hex ids)
    | None => Thrown AssertionError
    end.
Proof.
  revert totals bufs. induction txs as [|t txs IH]; intros totals bufs.
  - cbn. destruct totals. cbn. by rewrite !Z.add_0_r, app_nil_r.
  - cbn [Method.collect]. unfold Method.idsOf in *. cbn [mapM].
    destruct (Method.id t) as [i|]; [|done]. cbn. rewrite IH.
    destruct (mapM Method.id txs) as [ids|]; [|done]. cbn.
    rewrite <- app_assoc. cbn [app]. fold (Method.sumOf Method.amount txs).
    fold (Method.sumOf Method.fee txs). by rewrite !Z.add_assoc.
Qed.

Lemma idsOf_None (txs : list Method.ITransactionData) :
  Method.idsOf txs = None <-> exists t, t ∈ txs /\ Method.id t = None.
Proof.
  unfold Method.idsOf. induction txs as [|t txs IH]; cbn [mapM].
  - split; [done|]. intros (t & Ht & _). by apply elem_of_nil in Ht.
  - destruct (Method.id t) as [i|] eqn:E; cbn.
    + destruct (mapM Method.id txs) as [ids|]; cbn.
      * split; [done|]. intros (x & [->|Hx]%elem_of_cons & Hid); [congruence|].
        assert (Some ids = None) as Habs by (apply IH; by exists x). done.
      * split; [|done]. intros _. destruct (proj1 IH eq_refl) as (x & Hx & Hid).
        exists x. split; [by apply elem_of_cons; right | done].
    + split; [|done]. intros _. exists t. split; [apply elem_of_cons; by left | done].
Qed.

(** X15: [createBlock] on transactions that all have an id, with a previous
    block in the options whose height is below 2^53 (where a number counts
    exactly).  It returns what the block factory returns
    ([undefined] included), and the factory is given: version 0, the public
    key of the keys, the timestamp and the reward of the options, the id and
    the hex id of the previous block, its height plus one, the number of
    transactions, the sum of their amounts, the sum of their fees, 32 times
    their number as the payload length, the digest of their ids decoded from
    hex in the order of the list, and the list itself. *)
Theorem createBlock_totals (keys : Method.IKeyPair) (txs : list Method.ITransactionData)
  (options : Method.Options) (getBlockTimeLookup : Z -> Z)
  (ids : list string) (prev : Method.PreviousBlock) :
  Method.idsOf txs = Some ids ->
  Method.opt_previousBlock options = Some prev ->
  Z.abs (Method.prev_height prev) < 2 ^ 53 ->
  Method.createBlock Buffer Buffer_from_hex sha256_hex IBlock make keys txs options
      getBlockTimeLookup =
    Returned
      (make
         (Method.mkIBlockData 0 (Method.kp_publicKey keys) (Method.opt_timestamp options)
            (Method.prev_id prev) (Method.prev_idHex prev) (Method.prev_height prev + 1)
            (Z.of_nat (length txs))
            (Method.sumOf Method.amount txs) (Method.sumOf Method.fee txs)
            (Method.opt_reward options) (32 * Z.of_nat (length txs))
            (sha256_hex (map Buffer_from_hex ids)) txs)
         keys getBlockTimeLookup).
Proof.
  intros Hids Hprev Hsafe. unfold Method.createBlock, Method.blockData.
  rewrite collect_run, Hids, Hprev. by rewrite number_add_1.
Qed.

(** X16: the failures of [createBlock].  It throws [AssertionError] exactly
    when some transaction has no id, and [TypeError] exactly when every
    transaction has an id and the options hold no previous block: the ids are
    checked first.  It throws nothing else of its own. *)
Theorem createBlock_failures (keys : Method.IKeyPair) (txs : list Method.ITransactionData)
  (options : Method.Options) (getBlockTimeLookup : Z -> Z) :
  let result := Method.createBlock Buffer Buffer_from_hex sha256_hex IBlock make keys txs
                  options getBlockTimeLookup in
  (result = Thrown AssertionError <-> exists t, t ∈ txs /\ Method.id t = None) /\
  (result = Thrown TypeError <->
   (forall t, t ∈ txs -> is_Some (Method.id t)) /\ Method.opt_previousBlock options = None) /\
  (forall e, result = Thrown e -> e = AssertionError \/ e = TypeError).
Proof.
  cbv zeta. unfold Method.createBlock, Method.blockData. rewrite collect_run.
  pose proof (idsOf_None txs) as Hnone.
  destruct (Method.idsOf txs) as [ids|].
  - assert (Hall : forall t, t ∈ txs -> is_Some (Method.id t)).
    { intros t Ht. destruct (Method.id t) eqn:E; [by eexists|].
      assert (Some ids = None) as Habs; [|done]. apply Hnone. by exists t. }
    destruct (Method.opt_previousBlock options) as [prev|].
    + split; [|split]; [split; [done|]|split; [done|]|done].
      * intros H. by apply Hnone in H.
      * by intros [_ ?].
    + split; [|split]; [split; [done|]|split; [done|]|].
      * intros H. by apply Hnone in H.
      * done.
      * intros e [= <-]. by right.
  - split; [|split].
    + split; [|done]. intros _. by apply Hnone.
    + split; [done|]. intros [Hall _]. destruct (proj1 Hnone eq_refl) as (t & Ht & Hid).
      destruct (Hall t Ht) as [i Hi]. congruence.
    + intros e [= <-]. by left.
Qed.

Lemma sumOf_Permutation (f : Method.ITransactionData -> Z) (txs txs' : list Method.ITransactionData) :
  txs ≡ₚ txs' -> Method.sumOf f txs = Method.sumOf f txs'.
Proof.
  intros H. unfold Method.sumOf. apply (foldr_permutation (=) (fun t acc => f t + acc) 0); [|done].
  intros j1 a1 j2 a2 b _ _ _. lia.
Qed.

Lemma idsOf_Permutation (txs txs' : list Method.ITransactionData) :
  txs ≡ₚ txs' -> is_Some (Method.idsOf txs) -> is_Some (Method.idsOf txs').
Proof.
  intros Hp Hs. destruct (Method.idsOf txs') as [ids'|] eqn:E; [by eexists|].
  apply idsOf_None in E as (t & Ht & Hid).
  assert (Method.idsOf txs = None) as Habs.
  { apply idsOf_None. exists t. split; [by rewrite Hp | done]. }
  rewrite Habs in Hs. by destruct Hs.
Qed.

(** X17: the totals of a forged block do not depend on the order of the
    transactions.  When the block data is built for a list of transactions,
    it is built for every permutation of the list, with the same total
    amount, total fee, number of transactions, payload length, height and
    reward; the transaction list is the permuted one. *)
Theorem createBlock_totals_ignore_order (keys : Method.IKeyPair)
  (txs txs' : list Method.ITransactionData) (options : Method.Options)
  (data : Method.IBlockData) :
  txs ≡ₚ txs' ->
  Method.blockData Buffer Buffer_from_hex sha256_hex keys txs options = Returned data ->
  exists data' : Method.IBlockData,
    Method.blockData Buffer Buffer_from_hex sha256_hex keys txs' options = Returned data' /\
    Method.totalAmount data' = Method.totalAmount data /\
    Method.totalFee data' = Method.totalFee data /\
    Method.numberOfTransactions data' = Method.numberOfTransactions data /\
    Method.payloadLength data' = Method.payloadLength data /\
    Method.height data' = Method.height data /\
    Method.reward data' = Method.reward data /\
    Method.transactions data' = txs'.
Proof.
  intros Hp. unfold Method.blockData. rewrite !collect_run.
  destruct (Method.idsOf txs) as [ids|] eqn:E; [|done].
  destruct (idsOf_Permutation txs txs' Hp) as [ids' ->]; [by rewrite E|].
  destruct (Method.opt_previousBlock options) as [prev|]; [|done].
  intros [= <-]. eexists. split; [reflexivity|]. cbn.
  rewrite (sumOf_Permutation Method.amount txs txs' Hp).
  rewrite (sumOf_Permutation Method.fee txs txs' Hp).
  by rewrite Hp.
Qed.

End CreateBlockFacts.

(** ** The service provider *)

Section ProviderFacts.

Variable PackageManifest : Type.
Variable PackageConfiguration : Type.
Variable manifest_get : PackageManifest -> string -> option string.

Lemma calls_fields (cs : list (ServiceProvider.Call PackageManifest PackageConfiguration))
  (p : ServiceProvider.AbstractServiceProvider PackageManifest PackageConfiguration) :
  ServiceProvider.packageManifest (ServiceProvider.calls cs p)
    = match last (ServiceProvider.manifestsSet cs) with
      | Some m => Some m
      | None => ServiceProvider.packageManifest p
      end /\
  ServiceProvider.packageConfiguration (ServiceProvider.calls cs p)
    = match last (ServiceProvider.configsSet cs) with
      | Some c => Some c
      | None => ServiceProvider.packageConfiguration p
      end.
Proof.
  revert p. induction cs as [|c cs IH] using rev_ind; intros p; [done|].
  destruct (IH p) as [IH1 IH2].
  unfold ServiceProvider.calls, ServiceProvider.manifestsSet, ServiceProvider.configsSet in *.
  rewrite foldl_app, !omap_app.
  destruct c as [m|x| |]; cbn; rewrite ?app_nil_r, ?last_snoc; by split.
Qed.

(** X18: the accessors of [AbstractServiceProvider] after any sequence of
    [setManifest], [setConfig], [boot] and [dispose] on a new provider.
    [manifest()] is the manifest that was set last, [undefined] if none was;
    [config()] is the configuration that was set last; [name()] and
    [version()] are [undefined] while no manifest is set, and otherwise what
    [get] of the last manifest gives for the keys name and version. *)
Theorem provider_reads_the_last_manifest
  (cs : list (ServiceProvider.Call PackageManifest PackageConfiguration)) :
  let p := ServiceProvider.calls cs ServiceProvider.fresh in
  let m := last (ServiceProvider.manifestsSet cs) in
  ServiceProvider.manifest p = m /\
  ServiceProvider.config p = last (ServiceProvider.configsSet cs) /\
  ServiceProvider.name manifest_get p = m ≫= (fun x => manifest_get x "name") /\
  ServiceProvider.version manifest_get p = m ≫= (fun x => manifest_get x "version").
Proof.
  cbv zeta. destruct (calls_fields cs ServiceProvider.fresh) as [Hm Hc].
  unfold ServiceProvider.manifest, ServiceProvider.config, ServiceProvider.name,
    ServiceProvider.version.
  rewrite Hm, Hc. cbn.
  destruct (last (ServiceProvider.manifestsSet cs));
    destruct (last (ServiceProvider.configsSet cs)); done.
Qed.

End ProviderFacts.

(** ** The properties on the sample ledger *)

(** S, who backs D, locks 70 for C, who backs E, with a fee of 10: V(D) loses
    the fee, V(E) stays, and the revert gives the sample ledger back. *)
Lemma lock_rule_witness :
  let t := sampleTx HtlcLock "S" (Some "AC") 70 10 None in
  let r1 := snd (handler_apply sampleLock t sampleRepository) in
  let w2 := setRepo (addVotes (Some "AD") (- 10) r1) sampleWorld in
  let r3 := snd (handler_revert sampleLock t (walletRepository w2)) in
  backedDelegate sampleRepository "AC" = Some (Some "AE") /\
  applyTransaction sampleRegistry t sampleWorld = (Returned tt, w2) /\
  votesOf (walletRepository w2) "AD" = 1050 - 10 /\
  votesOf (walletRepository w2) "AE" = 200 /\
  revertTransaction sampleRegistry t w2
    = (Returned tt, setRepo (addVotes (Some "AD") 10 r3) w2) /\
  setRepo (addVotes (Some "AD") 10 r3) w2 = sampleWorld.
Proof.
  intros t r1 w2 r3.
  destruct (lock_rule sampleRegistry t sampleLock "S" eq_refl eq_refl eq_refl) as [Ha Hr].
  split; [vm_compute; reflexivity|].
  split.
  { apply (Ha sampleWorld r1 "AS"%string (walletAt r1 "AS") (Some "AD"%string));
      vm_compute; reflexivity. }
  do 2 (split; [vm_compute; reflexivity|]).
  split; [|vm_compute; reflexivity].
  apply (Hr w2 "AS"%string (walletAt (walletRepository w2) "AS") r3 (Some "AD"%string));
    try (vm_compute; reflexivity).
  intros rc Hrc. vm_compute in Hrc. injection Hrc as <-.
  apply (mk_is_Some _ (walletAt r3 "AC")). vm_compute. reflexivity.
Defined.

(** S pays 100 to G with a fee of 10; both back D, and V(D) loses the fee. *)
Lemma general_rule_witness :
  let t := sampleTx Transfer "S" (Some "AG") 100 10 None in
  let r1 := snd (handler_apply sampleTransfer t sampleRepository) in
  let w2 := setRepo (addVotes (Some "AD") 100 (addVotes (Some "AD") (- (100 + 10)) r1))
              sampleWorld in
  backedDelegate sampleRepository "AS" = Some (Some "AD") /\
  backedDelegate sampleRepository "AG" = Some (Some "AD") /\
  applyTransaction sampleRegistry t sampleWorld = (Returned tt, w2) /\
  votesOf (walletRepository (snd (applyTransaction sampleRegistry t sampleWorld))) "AD"
    = 1050 - 10.
Proof.
  intros t r1 w2.
  destruct (general_rule sampleRegistry t sampleTransfer "S"
              eq_refl eq_refl eq_refl eq_refl eq_refl eq_refl) as [Ha _].
  destruct (Ha sampleWorld r1 "AS"%string (walletAt r1 "AS") (Some "AD"%string)
              (Some "AD"%string)
              ltac:(vm_compute; reflexivity) ltac:(vm_compute; reflexivity)
              ltac:(vm_compute; reflexivity) ltac:(vm_compute; reflexivity))
    as [Heq Hsame].
  do 2 (split; [vm_compute; reflexivity|]).
  split; [exact Heq|].
  rewrite (Hsame "AD"%string eq_refl eq_refl). vm_compute. reflexivity.
Defined.

(** The vote balances of the sample multi-payment, applied and reverted with
    no handler in between. *)
Lemma revertVoteBalances_undoes_applyVoteBalances_witness :
  let data := tx_data sampleMultiPaymentTx in
  let w1 := snd (updateVoteBalances "AS" None data None None false sampleWorld) in
  votesOf (walletRepository w1) "AD" = 1050 - 160 /\
  votesOf (walletRepository w1) "AE" = 200 + 100 /\
  exists w2 : World,
    updateVoteBalances "AS" None data None None true w1 = (Returned tt, w2) /\
    (forall ref, votesOf (walletRepository w2) ref = votesOf sampleRepository ref) /\
    onlyVotesDiffer sampleRepository (walletRepository w2) /\
    faults w2 = [].
Proof.
  intros data w1.
  do 2 (split; [vm_compute; reflexivity|]).
  apply (revertVoteBalances_undoes_applyVoteBalances "AS" None data None None false
           sampleWorld w1 eq_refl).
  vm_compute. reflexivity.
Defined.

(** R (balance 300) votes for D with a fee of 5: V(D) gains 300, and the
    revert takes it off again once the balance of R reads 305. *)
Lemma vote_is_undone_when_the_fee_is_back_witness :
  let data := tx_data sampleVoteTx in
  let w1 := snd (applyVoteBalances "AR" None data None None sampleWorld) in
  let w1' := setRepo (alter_wallet (set_balance 305) "AR" (walletRepository w1)) w1 in
  votesOf (walletRepository w1) "AD" = 1050 + 300 /\
  exists w2 : World,
    revertVoteBalances "AR" None data None None w1' = (Returned tt, w2) /\
    votesOf (walletRepository w2) "AD" = votesOf sampleRepository "AD" + (300 + 5 - 305) /\
    (votesOf (walletRepository w2) "AD" = votesOf sampleRepository "AD" <-> 305 = 300 + 5).
Proof.
  intros data w1 w1'. split; [vm_compute; reflexivity|].
  apply (vote_is_undone_when_the_fee_is_back "AR" None data None None sampleWorld
           "+"%char "D" ["-E"%string] (walletAt sampleRepository "AR") "AD"
           (walletAt sampleRepository "AD") 305 eq_refl eq_refl);
    vm_compute; reflexivity.
Defined.

(** A kind without handler, a claim without [asset.claim] and a transfer
    without sender key, on the sample ledger; the handler of the last two
    moves the balance of R by one. *)
Lemma checks_around_the_handler_witness :
  let h := mkHandler (fun _ r => (Returned tt, adjustBalance 1 "AR" r))
                     (fun _ r => (Returned tt, adjustBalance (- 1) "AR" r)) in
  let registry := fun _ : TransactionData => Returned h in
  let bareClaim := sampleTx HtlcClaim "C" None 0 5 None in
  let unsigned := mkTx (mkTxData "tx" Transfer Core None (Some "AR") 100 10 None) in
  applyTransaction sampleRegistry sampleIpfsTx sampleWorld
    = (Thrown (HandlerError "unregistered transaction type"), sampleWorld) /\
  revertTransaction sampleRegistry sampleIpfsTx sampleWorld
    = (Thrown (HandlerError "unregistered transaction type"), sampleWorld) /\
  applyTransaction registry bareClaim sampleWorld = (Thrown AssertionError, sampleWorld) /\
  revertTransaction registry bareClaim sampleWorld
    = (Thrown AssertionError, setRepo (adjustBalance (- 1) "AR" sampleRepository) sampleWorld) /\
  revertTransaction registry unsigned sampleWorld = (Thrown AssertionError, sampleWorld) /\
  applyTransaction registry unsigned sampleWorld
    = (Thrown AssertionError, setRepo (adjustBalance 1 "AR" sampleRepository) sampleWorld).
Proof.
  intros h registry bareClaim unsigned.
  destruct (checks_around_the_handler sampleRegistry sampleIpfsTx sampleWorld) as (H0 & _ & _).
  destruct (H0 (HandlerError "unregistered transaction type") eq_refl) as [H0a H0r].
  destruct (checks_around_the_handler registry bareClaim sampleWorld) as (_ & H1 & _).
  destruct (H1 h eq_refl eq_refl eq_refl) as [H1a H1r].
  destruct (checks_around_the_handler registry unsigned sampleWorld) as (_ & _ & H2).
  destruct (H2 h eq_refl eq_refl) as [H2r H2a].
  split; [exact H0a|]. split; [exact H0r|]. split; [exact H1a|].
  split.
  { apply (H1r "C"%string "AC"%string (walletAt sampleRepository "AC")); vm_compute; reflexivity. }
  split; [exact H2r|].
  apply (H2a (None, None)); vm_compute; reflexivity.
Defined.

(** A block whose second transaction pays to an unknown address: the
    transfer before it is reverted, but S stays charged with the 160 of the
    failed multi-payment, and so does V(D). *)
Lemma applyBlock_reverts_what_was_applied_witness :
  let block := mkBlock (mkBlockData "b5" 5 "G" 2 25)
                 [sampleTransferTx; sampleStrayPaymentTx; sampleClaimTx] in
  let w1 := snd (applyTransaction sampleRegistry sampleTransferTx sampleWorld) in
  let w1' := snd (applyTransaction sampleRegistry sampleStrayPaymentTx w1) in
  let w2 := snd (revertTransaction sampleRegistry sampleTransferTx w1') in
  applyTransaction sampleRegistry sampleStrayPaymentTx w1 = (Thrown AccountNotFound, w1') /\
  w1' <> w1 /\
  applyBlock sampleAddress sampleRegistry block sampleWorld = (Thrown AccountNotFound, w2) /\
  balanceOf sampleRepository "AS" = 1000 /\
  balanceOf (walletRepository w2) "AS" = 1000 - 160 /\
  votesOf (walletRepository w2) "AD" = 1050 - 160.
Proof.
  intros block w1 w1' w2.
  assert (Hfail : applyTransaction sampleRegistry sampleStrayPaymentTx w1
                  = (Thrown AccountNotFound, w1')) by (vm_compute; reflexivity).
  destruct (applyBlock_reverts_what_was_applied sampleAddress sampleRegistry block
              sampleWorld sampleWorld w1 w1' "AG" [sampleTransferTx] sampleStrayPaymentTx
              [sampleClaimTx] AccountNotFound
              ltac:(vm_compute; reflexivity) eq_refl ltac:(vm_compute; reflexivity) Hfail)
    as (_ & Hok & _).
  split; [exact Hfail|]. split.
  { intros Heq.
    assert (H : balanceOf (walletRepository w1') "AS" = 730) by (vm_compute; reflexivity).
    rewrite Heq in H. vm_compute in H. discriminate H. }
  split; [apply Hok; vm_compute; reflexivity|].
  repeat split; vm_compute; reflexivity.
Defined.

(** The same multi-payment as the first transaction of a block that is
    reverted: the transfer is reverted and applied again, and S keeps the 160
    that the failed revert gave back. *)
Lemma revertBlock_applies_what_was_reverted_witness :
  let block := mkBlock (mkBlockData "b5" 5 "G" 2 20) [sampleStrayPaymentTx; sampleTransferTx] in
  let w1 := snd (revertTransaction sampleRegistry sampleTransferTx sampleWorld) in
  let w1' := snd (revertTransaction sampleRegistry sampleStrayPaymentTx w1) in
  let w2 := snd (applyTransaction sampleRegistry sampleTransferTx w1') in
  revertTransaction sampleRegistry sampleStrayPaymentTx w1 = (Thrown AccountNotFound, w1') /\
  w1' <> w1 /\
  revertBlock sampleAddress sampleRegistry block sampleWorld = (Thrown AccountNotFound, w2) /\
  balanceOf (walletRepository w2) "AS" = 1000 + 160 /\
  votesOf (walletRepository w2) "AD" = 1050 + 160.
Proof.
  intros block w1 w1' w2.
  assert (Hfail : revertTransaction sampleRegistry sampleStrayPaymentTx w1
                  = (Thrown AccountNotFound, w1')) by (vm_compute; reflexivity).
  destruct (revertBlock_applies_what_was_reverted sampleAddress sampleRegistry block
              sampleWorld w1 w1' "AG" (walletAt sampleRepository "AG")
              [] sampleStrayPaymentTx [sampleTransferTx] AccountNotFound
              eq_refl eq_refl eq_refl ltac:(vm_compute; reflexivity) Hfail)
    as (_ & Hok & _).
  split; [exact Hfail|]. split.
  { intros Heq.
    assert (H : balanceOf (walletRepository w1') "AS" = 1270) by (vm_compute; reflexivity).
    rewrite Heq in H. vm_compute in H. discriminate H. }
  split; [apply Hok; vm_compute; reflexivity|].
  split; vm_compute; reflexivity.
Defined.

(** The first block, without transactions, on the empty ledger: the wallet of
    the generator N is created without delegate attributes, the credit throws,
    and N is left with reward + totalFee = 5. *)
Lemma applyBlock_credit_failure_witness :
  let block := mkBlock (mkBlockData "b1" 1 "N" 2 3) [] in
  applyBlock sampleAddress sampleRegistry block sampleEmptyWorld
    = (Thrown TypeError,
       mkWorld (mkRepo {["AN" := mkWallet (Some "N") 5 None None ∅]} {["N" := "AN"]} ∅) []).
Proof.
  intros block.
  rewrite (applyBlock_credit_failure sampleAddress sampleRegistry block sampleEmptyWorld
             (snd (resolveGenerator sampleAddress block sampleEmptyWorld))
             (snd (resolveGenerator sampleAddress block sampleEmptyWorld))
             "AN" (mkWallet (Some "N") 0 None None ∅)
             ltac:(vm_compute; reflexivity) ltac:(vm_compute; reflexivity)
             ltac:(vm_compute; reflexivity) ltac:(vm_compute; reflexivity) eq_refl).
  vm_compute. reflexivity.
Defined.

(** The block of the unknown generator N reverted on the sample ledger, and a
    block of G. *)
Lemma revertBlock_unknown_generator_witness :
  revertBlock sampleAddress sampleRegistry sampleOrphanBlock sampleWorld
    = (Thrown AccountNotFound,
       mkWorld sampleRepository ["Failed to lookup generator 'N' of block 'b5'."]) /\
  faults (snd (revertBlock sampleAddress sampleRegistry sampleStuckBlock sampleWorld)) = [].
Proof.
  destruct (revertBlock_unknown_generator sampleAddress sampleRegistry sampleOrphanBlock
              sampleWorld) as [Hunknown _].
  destruct (revertBlock_unknown_generator sampleAddress sampleRegistry sampleStuckBlock
              sampleWorld) as [_ Hknown].
  split; [apply Hunknown; reflexivity | apply Hknown; reflexivity].
Defined.

(** An empty block of G, with a reward of 2, on the sample ledger: applied,
    D has 2 more votes; applied and reverted, the ledger is the sample ledger
    with the last block of G cleared. *)
Lemma empty_block_round_trip_witness :
  let block := mkBlock (mkBlockData "b5" 5 "G" 2 0) [] in
  (do applyBlock sampleAddress sampleRegistry block
   then revertBlock sampleAddress sampleRegistry block) sampleWorld =
    (Returned tt,
     setRepo (putWallet "AG"
       (mkWallet (Some "G") 50 (Some "D")
          (Some (mkDelegate (Some 0) (Some 7) (Some 30) (Some 14) None)) ∅)
       sampleRepository) sampleWorld) /\
  votesOf (walletRepository
             (snd (applyBlock sampleAddress sampleRegistry block sampleWorld))) "AD" = 1050 + 2.
Proof.
  intros block. split; [|vm_compute; reflexivity].
  apply (empty_block_round_trip sampleAddress sampleRegistry block sampleWorld "AG"
           (walletAt sampleRepository "AG")
           (mkDelegate (Some 0) (Some 7) (Some 30) (Some 14) (Some samplePreviousBlock))
           7 30 14 eq_refl eq_refl eq_refl eq_refl eq_refl eq_refl eq_refl eq_refl eq_refl).
  exists "AD"%string, (walletAt sampleRepository "AD"), 1050.
  split; vm_compute; reflexivity.
Defined.

(** A forger on two transactions, with buffers as the hex strings
    themselves, a digest that joins them, and a factory that returns the data
    it is given. *)
Lemma createBlock_totals_witness :
  let keys := Method.mkKeyPair "G" "secret" true in
  let txs := [Method.mkTransactionData (Some "aa") 100 10;
              Method.mkTransactionData (Some "bb") 50 5] in
  let options := Method.mkOptions 7 (Some (Method.mkPreviousBlock "b4" "b4hex" 4)) 2 in
  Method.createBlock string (fun s => s) (foldr String.append EmptyString) Method.IBlockData
      (fun data _ _ => Some data) keys txs options (fun h => 8 * h) =
    Returned (Some (Method.mkIBlockData 0 "G" 7 "b4" "b4hex" 5 2 150 15 2 64 "aabb" txs)).
Proof.
  intros keys txs options.
  rewrite (createBlock_totals string (fun s => s) (foldr String.append EmptyString)
             Method.IBlockData (fun data _ _ => Some data) keys txs options (fun h => 8 * h)
             ["aa"; "bb"]%string (Method.mkPreviousBlock "b4" "b4hex" 4) eq_refl eq_refl
             ltac:(vm_compute; reflexivity)).
  reflexivity.
Defined.

(** A transaction without id makes [createBlock] throw [AssertionError], also
    when the previous block is missing; no transactions and no previous block
    make it throw [TypeError]. *)
Lemma createBlock_failures_witness :
  let keys := Method.mkKeyPair "G" "secret" true in
  let unnamed := Method.mkTransactionData None 50 5 in
  let txs := [Method.mkTransactionData (Some "aa") 100 10; unnamed] in
  let options := Method.mkOptions 7 None 2 in
  Method.createBlock string (fun s => s) (foldr String.append EmptyString) Method.IBlockData
      (fun data _ _ => Some data) keys txs options (fun h => 8 * h) = Thrown AssertionError /\
  Method.createBlock string (fun s => s) (foldr String.append EmptyString) Method.IBlockData
      (fun data _ _ => Some data) keys [] options (fun h => 8 * h) = Thrown TypeError.
Proof.
  intros keys unnamed txs options.
  destruct (createBlock_failures string (fun s => s) (foldr String.append EmptyString)
              Method.IBlockData (fun data _ _ => Some data) keys txs options (fun h => 8 * h))
    as (Hassert & _ & _).
  destruct (createBlock_failures string (fun s => s) (foldr String.append EmptyString)
              Method.IBlockData (fun data _ _ => Some data) keys [] options (fun h => 8 * h))
    as (_ & Htype & _).
  split.
  - apply Hassert. exists unnamed. split; [|reflexivity].
    apply elem_of_cons. right. apply elem_of_cons. by left.
  - apply Htype. split; [|reflexivity]. intros t Ht. by apply elem_of_nil in Ht.
Defined.

(** The same two transactions in the other order. *)
Lemma createBlock_totals_ignore_order_witness :
  let keys := Method.mkKeyPair "G" "secret" true in
  let a := Method.mkTransactionData (Some "aa") 100 10 in
  let b := Method.mkTransactionData (Some "bb") 50 5 in
  let options := Method.mkOptions 7 (Some (Method.mkPreviousBlock "b4" "b4hex" 4)) 2 in
  let data := Method.mkIBlockData 0 "G" 7 "b4" "b4hex" 5 2 150 15 2 64 "aabb" [a; b] in
  Method.blockData string (fun s => s) (foldr String.append EmptyString) keys [a; b] options
    = Returned data /\
  exists data' : Method.IBlockData,
    Method.blockData string (fun s => s) (foldr String.append EmptyString) keys [b; a] options
      = Returned data' /\
    Method.totalAmount data' = 150 /\
    Method.totalFee data' = 15 /\
    Method.numberOfTransactions data' = 2 /\
    Method.payloadLength data' = 64 /\
    Method.height data' = 5 /\
    Method.reward data' = 2 /\
    Method.transactions data' = [b; a].
Proof.
  intros keys a b options data. split; [reflexivity|].
  apply (createBlock_totals_ignore_order string (fun s => s) (foldr String.append EmptyString)
           keys [a; b] [b; a] options data); [|reflexivity].
  apply perm_swap.
Defined.

(** The sample ledger has the property, and the sample transfer, applied and
    then reverted, keeps it: V(D) = 940 = 50 + 890 after the transfer. *)
Lemma transfer_keeps_votes_matching_witness :
  let w1 := snd (applyTransaction sampleRegistry sampleTransferTx sampleWorld) in
  votesMatchBalances sampleRepository /\
  keysDistinct sampleRepository /\
  (exists w', applyTransaction sampleRegistry sampleTransferTx sampleWorld = (Returned tt, w') /\
     votesMatchBalances (walletRepository w') /\ keysDistinct (walletRepository w')) /\
  votesOf (walletRepository w1) "AD" = 1050 - 110 /\
  voterBalance (walletRepository w1) "D" = 50 + (1000 - 110) /\
  (exists w', revertTransaction sampleRegistry sampleTransferTx w1 = (Returned tt, w') /\
     votesMatchBalances (walletRepository w') /\ keysDistinct (walletRepository w')).
Proof.
  intros w1.
  assert (Hinv : votesMatchBalances sampleRepository)
    by (apply (bool_decide_unpack _); vm_compute; exact I).
  assert (Hkeys : keysDistinct sampleRepository)
    by (apply (bool_decide_unpack _); vm_compute; exact I).
  destruct (transfer_keeps_votes_matching sampleRegistry sampleTransferTx sampleTransfer
              "S" "AR" sampleWorld "AS" (walletAt sampleRepository "AS")
              (walletAt sampleRepository "AR") (Some "AD"%string) None
              eq_refl eq_refl eq_refl eq_refl eq_refl eq_refl eq_refl eq_refl eq_refl
              ltac:(vm_compute; reflexivity) ltac:(vm_compute; reflexivity) Hkeys Hinv)
    as [Hap _].
  destruct (Hap ltac:(vm_compute; reflexivity)) as (w' & Hrun & Hinv' & Hkeys').
  split; [exact Hinv|]. split; [exact Hkeys|].
  split; [by exists w'|].
  do 2 (split; [vm_compute; reflexivity|]).
  assert (Hw1 : w1 = w') by (unfold w1; by rewrite Hrun).
  destruct (transfer_keeps_votes_matching sampleRegistry sampleTransferTx sampleTransfer
              "S" "AR" w1 "AS" (walletAt (walletRepository w1) "AS")
              (walletAt (walletRepository w1) "AR") (Some "AD"%string) None
              eq_refl eq_refl eq_refl eq_refl eq_refl eq_refl eq_refl
              ltac:(vm_compute; reflexivity) ltac:(vm_compute; reflexivity)
              ltac:(vm_compute; reflexivity) ltac:(vm_compute; reflexivity)
              ltac:(by rewrite Hw1) ltac:(by rewrite Hw1))
    as [_ Hre].
  apply Hre. vm_compute. reflexivity.
Defined.

(** The vote of R for D and the unvote of S keep the property on the sample
    ledger: V(D) becomes 1345 = 50 + 1000 + 295, or 50. *)
Lemma vote_keeps_votes_matching_witness :
  let w1 := snd (applyTransaction sampleRegistry sampleVoteTx sampleWorld) in
  let w2 := snd (applyTransaction sampleRegistry sampleUnvoteTx sampleWorld) in
  (exists w', applyTransaction sampleRegistry sampleVoteTx sampleWorld = (Returned tt, w') /\
     votesMatchBalances (walletRepository w') /\ keysDistinct (walletRepository w')) /\
  votesOf (walletRepository w1) "AD" = 1050 + 295 /\
  voterBalance (walletRepository w1) "D" = 50 + 1000 + 295 /\
  (exists w', applyTransaction sampleRegistry sampleUnvoteTx sampleWorld = (Returned tt, w') /\
     votesMatchBalances (walletRepository w') /\ keysDistinct (walletRepository w')) /\
  votesOf (walletRepository w2) "AD" = 1050 - 1000 /\
  voterBalance (walletRepository w2) "D" = 50 /\
  (exists w', revertTransaction sampleRegistry sampleVoteTx w1 = (Returned tt, w') /\
     votesMatchBalances (walletRepository w') /\ keysDistinct (walletRepository w')).
Proof.
  intros w1 w2.
  assert (Hinv : votesMatchBalances sampleRepository)
    by (apply (bool_decide_unpack _); vm_compute; exact I).
  assert (Hkeys : keysDistinct sampleRepository)
    by (apply (bool_decide_unpack _); vm_compute; exact I).
  destruct (vote_keeps_votes_matching sampleRegistry sampleVoteTx sampleVote
              "+"%char "D" ["-E"%string] "R" sampleWorld "AR" (walletAt sampleRepository "AR")
              "AD" (walletAt sampleRepository "AD")
              eq_refl eq_refl eq_refl eq_refl eq_refl eq_refl Hkeys Hinv) as [Hvote _].
  destruct (Hvote eq_refl ltac:(vm_compute; reflexivity)) as (w' & Hrun & Hinv' & Hkeys').
  destruct (vote_keeps_votes_matching sampleRegistry sampleUnvoteTx sampleVote
              "-"%char "D" [] "S" sampleWorld "AS" (walletAt sampleRepository "AS")
              "AD" (walletAt sampleRepository "AD")
              eq_refl eq_refl eq_refl eq_refl eq_refl eq_refl Hkeys Hinv) as [Hunvote _].
  split; [by exists w'|].
  do 2 (split; [vm_compute; reflexivity|]).
  split; [apply Hunvote; [reflexivity | vm_compute; reflexivity]|].
  do 2 (split; [vm_compute; reflexivity|]).
  assert (Hw1 : w1 = w') by (unfold w1; by rewrite Hrun).
  destruct (vote_keeps_votes_matching sampleRegistry sampleVoteTx sampleVote
              "+"%char "D" ["-E"%string] "R" w1 "AR" (walletAt (walletRepository w1) "AR")
              "AD" (walletAt (walletRepository w1) "AD")
              eq_refl eq_refl eq_refl eq_refl
              ltac:(vm_compute; reflexivity) ltac:(vm_compute; reflexivity)
              ltac:(by rewrite Hw1) ltac:(by rewrite Hw1)) as [_ Hre].
  apply Hre; vm_compute; reflexivity.
Defined.

(** * Transactions and blocks taken back *)

(** ** Repositories with the same wallets *)

Lemma fmap_eq_is_Some {A B : Type} (f : A -> B) (m m' : gmap string A) (a : string) :
  f <$> m' = f <$> m -> is_Some (m' !! a) <-> is_Some (m !! a).
Proof.
  intros H. assert (Ha : f <$> m' !! a = f <$> m !! a) by (by rewrite <- !lookup_fmap, H).
  rewrite <- !not_eq_None_Some.
  destruct (m' !! a), (m !! a); cbn in Ha; done.
Qed.

Lemma fmap_eq_lookup {A B : Type} (f : A -> B) (m m' : gmap string A) (a : string) :
  f <$> m' = f <$> m -> f <$> m' !! a = f <$> m !! a.
Proof. intros H. by rewrite <- !lookup_fmap, H. Qed.

Lemma sameWallets_refl (r : WalletRepository) : sameWallets r r.
Proof. by split. Qed.

Lemma sameWallets_sym (r r' : WalletRepository) : sameWallets r r' -> sameWallets r' r.
Proof. intros [H1 H2]. split; [done|]. intros a. by rewrite H2. Qed.

Lemma sameWallets_trans (r1 r2 r3 : WalletRepository) :
  sameWallets r1 r2 -> sameWallets r2 r3 -> sameWallets r1 r3.
Proof.
  intros [H1 H2] [K1 K2]. split; [congruence|]. intros a. by rewrite K2, H2.
Qed.

Lemma sameVoters_sameWallets (r r' : WalletRepository) : sameVoters r r' -> sameWallets r r'.
Proof. intros H. split; [apply H|]. intros a. by apply sameVoters_is_Some. Qed.

Lemma onlyVotesDiffer_sameWallets (r r' : WalletRepository) :
  onlyVotesDiffer r r' -> sameWallets r r'.
Proof. intros H. by apply sameVoters_sameWallets, onlyVotesDiffer_sameVoters. Qed.

Lemma sameWallets_walletByPublicKey (r r' : WalletRepository) (pk : string) :
  sameWallets r r' ->
  fst <$> walletByPublicKey r' pk = fst <$> walletByPublicKey r pk.
Proof.
  intros [H1 H2]. unfold walletByPublicKey, deref. rewrite H1.
  destruct (byPublicKey r !! pk) as [d|]; [|done].
  specialize (H2 d). rewrite <- !not_eq_None_Some in H2.
  destruct (byAddress r' !! d), (byAddress r !! d); try done.
  - exfalso. by apply (proj1 H2).
  - exfalso. by apply (proj2 H2).
Qed.

Lemma sameWallets_senderRef (r r' : WalletRepository) (t : Transaction) :
  sameWallets r r' -> senderRef t r' = senderRef t r.
Proof.
  intros H. unfold senderRef. destruct (senderPublicKey (tx_data t)); [|done].
  by apply sameWallets_walletByPublicKey.
Qed.

Lemma sameWallets_recipientOf (r r' : WalletRepository) (t : TransactionData) :
  sameWallets r r' -> recipientOf r' t = recipientOf r t.
Proof.
  intros [_ H]. unfold recipientOf, walletByAddress, deref.
  destruct (truthy (recipientId t)) as [rid|]; [|done].
  specialize (H rid). rewrite <- !not_eq_None_Some in H.
  destruct (byAddress r' !! rid), (byAddress r !! rid); try done.
  - exfalso. by apply (proj1 H).
  - exfalso. by apply (proj2 H).
Qed.

Lemma walletByPublicKey_fst (r : WalletRepository) (pk d : string) :
  fst <$> walletByPublicKey r pk = Some d ->
  exists wd, walletByPublicKey r pk = Some (d, wd).
Proof. destruct (walletByPublicKey r pk) as [[x wd]|]; [|done]. intros [= <-]. by exists wd. Qed.

(** The lock context depends on the lock index and the locks of the wallets
    only. *)
Lemma lockContext_skeleton (t : Transaction) (w w' : World) :
  byLocks (walletRepository w') = byLocks (walletRepository w) ->
  locks <$> byAddress (walletRepository w') = locks <$> byAddress (walletRepository w) ->
  fst (lockContext t w') = fst (lockContext t w).
Proof.
  intros Hl Hm.
  destruct (isCore HtlcClaim (tx_data t)) eqn:Hk.
  2: { by rewrite !lockContext_skip. }
  destruct (asset (tx_data t) ≫= claim) as [c|] eqn:Hc.
  2: { unfold lockContext. by rewrite Hk, Hc. }
  assert (Hfail : forall x : World,
    walletByLockId (walletRepository x) (lockTransactionId c) = None ->
    lockContext t x = (Thrown AccountNotFound, x)).
  { intros x Hx. unfold lockContext. rewrite Hk, Hc. run_bind.
    apply bind_thrown. unfold findByLockId, bind, getRepo. cbv beta iota.
    rewrite resolve_deref. unfold walletByLockId in Hx. by rewrite Hx. }
  destruct (walletByLockId (walletRepository w) (lockTransactionId c)) as [[a owner]|] eqn:E.
  - assert (exists owner', walletByLockId (walletRepository w') (lockTransactionId c)
                             = Some (a, owner') /\ locks owner' = locks owner)
      as (owner' & E' & Hlk).
    { unfold walletByLockId, deref in *. rewrite Hl.
      destruct (byLocks (walletRepository w) !! lockTransactionId c) as [b|]; [|done].
      pose proof (fmap_eq_lookup _ _ _ b Hm) as Hb.
      destruct (byAddress (walletRepository w) !! b) as [y|]; [|done].
      injection E as <- <-.
      destruct (byAddress (walletRepository w') !! b) as [x|]; [|done].
      exists x. split; [done|]. cbn in Hb. congruence. }
    rewrite (lockContext_run t w c a owner Hk Hc E).
    rewrite (lockContext_run t w' c a owner' Hk Hc E'). cbn. by rewrite Hlk.
  - rewrite (Hfail w E). rewrite (Hfail w'); [done|].
    unfold walletByLockId, deref in *. rewrite Hl.
    destruct (byLocks (walletRepository w) !! lockTransactionId c) as [b|]; [|done].
    pose proof (fmap_eq_lookup _ _ _ b Hm) as Hb.
    destruct (byAddress (walletRepository w) !! b) as [y|]; [done|].
    by destruct (byAddress (walletRepository w') !! b).
Qed.

Lemma lockContext_same (t : Transaction) (w w' : World) (lc : option string * option HtlcLockRecord) :
  byLocks (walletRepository w') = byLocks (walletRepository w) ->
  locks <$> byAddress (walletRepository w') = locks <$> byAddress (walletRepository w) ->
  lockContext t w = (Returned lc, w) ->
  lockContext t w' = (Returned lc, w').
Proof.
  intros Hl Hm H. pose proof (lockContext_skeleton t w w' Hl Hm) as Hf.
  pose proof (lockContext_reads t w') as Hs. rewrite H in Hf.
  destruct (lockContext t w') as [o w0]. cbn in Hf, Hs. by subst.
Qed.

Lemma onlyVotesDiffer_locks (r r' : WalletRepository) :
  onlyVotesDiffer r r' -> locks <$> byAddress r' = locks <$> byAddress r.
Proof.
  intros (_ & _ & H). apply map_eq. intros a. rewrite !lookup_fmap.
  pose proof (fmap_eq_lookup _ _ _ a H) as Ha.
  destruct (byAddress r' !! a), (byAddress r !! a); cbn in Ha |- *; try done.
  unfold otherAttributes in Ha. congruence.
Qed.

Lemma onlyVotesDiffer_balanceOf (r r' : WalletRepository) (s : string) :
  onlyVotesDiffer r r' -> balanceOf r' s = balanceOf r s.
Proof.
  intros (_ & _ & H). unfold balanceOf.
  pose proof (fmap_eq_lookup _ _ _ s H) as Ha.
  destruct (byAddress r' !! s), (byAddress r !! s); cbn in Ha |- *; try done.
  unfold otherAttributes in Ha. congruence.
Qed.

Lemma onlyVotesDiffer_voteOf (r r' : WalletRepository) (s : string) :
  onlyVotesDiffer r r' -> voteOf r' s = voteOf r s.
Proof. intros H. apply sameVoters_lookup. by apply onlyVotesDiffer_sameVoters. Qed.

(** When [applyTransaction] returns: its steps. *)
Lemma applyTransaction_inv (registry : TransactionData -> Outcome TransactionHandler)
  (t : Transaction) (w w1 : World) :
  applyTransaction registry t w = (Returned tt, w1) ->
  exists h lc a spk s ws,
    registry (tx_data t) = Returned h /\
    lockContext t w = (Returned lc, w) /\
    handler_apply h t (walletRepository w) = (Returned tt, a) /\
    senderPublicKey (tx_data t) = Some spk /\
    walletByPublicKey a spk = Some (s, ws) /\
    updateVoteBalances s (recipientOf a (tx_data t)) (tx_data t) (fst lc) (snd lc) false
      (setRepo a w) = (Returned tt, w1).
Proof.
  unfold applyTransaction, applyVoteBalances. intros H.
  apply bind_inv in H as (h & w' & Hh & H).
  unfold getHandler in Hh. injection Hh as Hreg <-.
  apply bind_inv in H as (lc & w' & Hl & H).
  pose proof (lockContext_reads t w) as Hs. rewrite Hl in Hs. cbn in Hs. subst w'.
  apply bind_inv in H as ([] & w' & Hc & H).
  unfold callHandler in Hc.
  destruct (handler_apply h t (walletRepository w)) as [o a] eqn:Hap.
  injection Hc as -> <-.
  apply bind_inv in H as (spk & w' & Hk & H).
  destruct (senderPublicKey (tx_data t)) as [spk'|] eqn:Hspk; [|done].
  injection Hk as <- <-.
  apply bind_inv in H as (s & w' & Hf & H).
  apply findByPublicKey_inv in Hf as [-> [ws Hws]].
  rewrite (bind_returned _ _ _ _ _ (lookupRecipient_run t _)) in H.
  exists h, lc, a, spk', s, ws. by repeat split.
Qed.

(** When [revertTransaction] returns: its steps. *)
Lemma revertTransaction_inv (registry : TransactionData -> Outcome TransactionHandler)
  (t : Transaction) (w w1 : World) :
  revertTransaction registry t w = (Returned tt, w1) ->
  exists h lc a spk s ws,
    registry (tx_data t) = Returned h /\
    senderPublicKey (tx_data t) = Some spk /\
    walletByPublicKey (walletRepository w) spk = Some (s, ws) /\
    handler_revert h t (walletRepository w) = (Returned tt, a) /\
    lockContext t (setRepo a w) = (Returned lc, setRepo a w) /\
    updateVoteBalances s (recipientOf (walletRepository w) (tx_data t)) (tx_data t)
      (fst lc) (snd lc) true (setRepo a w) = (Returned tt, w1).
Proof.
  unfold revertTransaction, revertVoteBalances. cbv zeta. intros H.
  apply bind_inv in H as (h & w' & Hh & H).
  unfold getHandler in Hh. injection Hh as Hreg <-.
  apply bind_inv in H as (spk & w' & Hk & H).
  destruct (senderPublicKey (tx_data t)) as [spk'|] eqn:Hspk; [|done].
  injection Hk as <- <-.
  apply bind_inv in H as (s & w' & Hf & H).
  apply findByPublicKey_inv in Hf as [-> [ws Hws]].
  rewrite (bind_returned _ _ _ _ _ (lookupRecipient_run t _)) in H.
  apply bind_inv in H as ([] & w' & Hc & H).
  unfold callHandler in Hc.
  destruct (handler_revert h t (walletRepository w)) as [o a] eqn:Hre.
  injection Hc as -> <-.
  apply bind_inv in H as (lc & w' & Hl & H).
  pose proof (lockContext_reads t (setRepo a w)) as Hs. rewrite Hl in Hs. cbn [snd] in Hs. subst w'.
  exists h, lc, a, spk', s, ws. by repeat split.
Qed.

(** The vote rule in closed form, and when it returns. *)
Lemma voteStep_closed (s : string) (t : TransactionData) (rv : bool) (w : World)
  (vote0 : string) (ws : Wallet) (d : string) (wd : Wallet) :
  firstVote t = Some vote0 ->
  byAddress (walletRepository w) !! s = Some ws ->
  walletByPublicKey (walletRepository w) (substr_1 vote0) = Some (d, wd) ->
  voteStep s t rv w =
    (Returned tt,
     setRepo (withVotes d
       (voteRule (startsWithPlus vote0) rv (getVoteBalanceOrZero wd) (balance ws) (tx_fee t))
       (walletRepository w)) w).
Proof.
  unfold firstVote. intros Hv Hs Hd. unfold voteStep.
  destruct (asset t ≫= votes) as [vs|]; [|done]. cbn in Hv.
  erewrite bind_returned; [|reflexivity]. rewrite Hv.
  erewrite bind_returned; [|reflexivity].
  erewrite findDelegate_bind; [|exact Hd].
  erewrite getWallet_bind; [|exact Hs].
  rewrite setVoteBalance_run. unfold voteRule. reflexivity.
Qed.

Lemma voteStep_inv (s : string) (t : TransactionData) (rv : bool) (w w1 : World) :
  voteStep s t rv w = (Returned tt, w1) ->
  exists vote0 ws d wd,
    firstVote t = Some vote0 /\
    byAddress (walletRepository w) !! s = Some ws /\
    walletByPublicKey (walletRepository w) (substr_1 vote0) = Some (d, wd).
Proof.
  unfold voteStep, firstVote. intros H.
  apply bind_inv in H as (vs & w' & Hvs & H).
  destruct (asset t ≫= votes) as [vs'|]; [|done]. injection Hvs as <- <-.
  apply bind_inv in H as (vote0 & w' & Hv & H).
  destruct (head vs') as [v|] eqn:Ehd; [|done]. injection Hv as <- <-.
  apply bind_inv in H as (d & w' & Hd & H). apply findByPublicKey_inv in Hd as [-> [wd Hd]].
  apply bind_inv in H as (wd' & w' & Hwd & H). apply getWallet_inv in Hwd as [-> Hwd].
  apply bind_inv in H as (ws & w' & Hs & H). apply getWallet_inv in Hs as [-> Hs].
  exists v, ws, d, wd. by repeat split.
Qed.

Lemma balanceOf_lookup (r : WalletRepository) (s : string) (ws : Wallet) :
  byAddress r !! s = Some ws -> balanceOf r s = balance ws.
Proof. intros H. unfold balanceOf. by rewrite H. Qed.

Lemma votesOf_withVotes (d : string) (v : Z) (r : WalletRepository) (ref : string) :
  is_Some (byAddress r !! d) ->
  votesOf (withVotes d v r) ref = if decide (d = ref) then v else votesOf r ref.
Proof.
  intros [wd Hwd]. unfold votesOf. rewrite lookup_withVotes.
  destruct (decide (d = ref)) as [<-|]; [|done]. by rewrite Hwd.
Qed.

(** ** The credit of a block on a repository *)

Lemma votesOf_fmap_eq (r r' : WalletRepository) (ref : string) :
  getVoteBalanceOrZero <$> byAddress r' = getVoteBalanceOrZero <$> byAddress r ->
  votesOf r' ref = votesOf r ref.
Proof.
  intros H. pose proof (fmap_eq_lookup _ _ _ ref H) as Ha. unfold votesOf.
  destruct (byAddress r' !! ref), (byAddress r !! ref); cbn in Ha; congruence.
Qed.

Lemma storedVotes_fmap_eq (r r' : WalletRepository) (ref : string) :
  getVoteBalance <$> byAddress r' = getVoteBalance <$> byAddress r ->
  storedVotes r' ref = storedVotes r ref.
Proof.
  intros H. pose proof (fmap_eq_lookup _ _ _ ref H) as Ha. unfold storedVotes.
  destruct (byAddress r' !! ref), (byAddress r !! ref); cbn in Ha |- *; congruence.
Qed.

Section Patch.
Variable credit : option (string * (Wallet -> Wallet)).
Variable beta : Z.
Hypothesis Hcredit : creditOf beta credit.

Lemma patch_fmap {B : Type} (f : Wallet -> B) (r : WalletRepository) :
  (forall k wal, snd <$> credit = Some k -> f (k wal) = f wal) ->
  f <$> byAddress (patch credit r) = f <$> byAddress r.
Proof.
  intros Hf. destruct credit as [[g k]|]; [|done]. cbn [patch].
  apply map_eq. intros a. rewrite !lookup_fmap, lookup_alter_wallet.
  destruct (decide (g = a)); [|done].
  destruct (byAddress r !! a) as [wal|]; [|done]. cbn. f_equal. by apply Hf.
Qed.

Lemma patch_byPublicKey (r : WalletRepository) : byPublicKey (patch credit r) = byPublicKey r.
Proof. by destruct credit as [[g k]|]. Qed.

Lemma patch_byLocks (r : WalletRepository) : byLocks (patch credit r) = byLocks r.
Proof. by destruct credit as [[g k]|]. Qed.

Lemma patch_sameVoters (r : WalletRepository) : sameVoters r (patch credit r).
Proof.
  split; [apply patch_byPublicKey|]. apply patch_fmap.
  intros k wal Hk. destruct credit as [[g k']|]; [|done]. injection Hk as ->.
  apply (Hcredit wal).
Qed.

Lemma patch_locks (r : WalletRepository) :
  locks <$> byAddress (patch credit r) = locks <$> byAddress r.
Proof.
  apply patch_fmap.
  intros k wal Hk. destruct credit as [[g k']|]; [|done]. injection Hk as ->.
  apply (Hcredit wal).
Qed.

Lemma patch_stored (r : WalletRepository) :
  getVoteBalance <$> byAddress (patch credit r) = getVoteBalance <$> byAddress r.
Proof.
  apply patch_fmap.
  intros k wal Hk. destruct credit as [[g k']|]; [|done]. injection Hk as ->.
  apply (Hcredit wal).
Qed.

Lemma patch_votesOf (r : WalletRepository) (ref : string) :
  votesOf (patch credit r) ref = votesOf r ref.
Proof.
  rewrite !votesOf_storedVotes. f_equal. apply storedVotes_fmap_eq, patch_stored.
Qed.

Lemma patch_balanceOf (r : WalletRepository) (s : string) :
  is_Some (byAddress r !! s) ->
  balanceOf (patch credit r) s = balanceOf r s + creditTo beta credit s.
Proof.
  intros [ws Hs]. unfold creditTo, balanceOf.
  destruct credit as [[g k]|]; cbn [patch fmap option_fmap option_map fst].
  - rewrite lookup_alter_wallet.
    destruct (decide (g = s)) as [->|Hne].
    + rewrite decide_True by done. rewrite Hs. cbn. apply (Hcredit ws).
    + rewrite decide_False by congruence. rewrite Hs. lia.
  - rewrite decide_False by done. rewrite Hs. lia.
Qed.

Lemma patch_respects (r r' : WalletRepository) :
  onlyVotesDiffer r r' -> onlyVotesDiffer (patch credit r) (patch credit r').
Proof.
  destruct credit as [[g k]|]; [|done]. cbn [patch].
  intros (H1 & H2 & H3). repeat split; [done..|].
  apply map_eq. intros a. rewrite !lookup_fmap, !lookup_alter_wallet.
  pose proof (fmap_eq_lookup _ _ _ a H3) as Ha.
  destruct (decide (g = a)); [|done].
  destruct (byAddress r' !! a) as [x|], (byAddress r !! a) as [y|]; cbn in Ha |- *; try done.
  f_equal. apply (Hcredit y). congruence.
Qed.

Lemma patch_sameWallets (r : WalletRepository) : sameWallets r (patch credit r).
Proof. apply sameVoters_sameWallets, patch_sameVoters. Qed.

End Patch.

(** ** A transaction taken back by the other direction of the engine *)

Section TakenBack.
Variable registry : TransactionData -> Outcome TransactionHandler.
Variable credit : option (string * (Wallet -> Wallet)).
Variable beta : Z.
Hypothesis Hcredit : creditOf beta credit.

(** The two directions of [updateVoteBalances] around the two directions of
    a handler.  [a] is the repository on which the first direction ran, [x]
    the one on which the second runs: the repository [r] that the first
    handler call found, after the credit and with other vote balances. *)
Lemma updateVoteBalances_undone (s : string) (rc : option string) (t : Transaction)
  (lc : option string * option HtlcLockRecord) (rv : bool)
  (r a x : WalletRepository) (wa w1 wx : World) :
  walletRepository wa = a ->
  walletRepository wx = x ->
  senderRef t r = Some s ->
  byPublicKey a = byPublicKey r ->
  getVoteBalanceOrZero <$> byAddress a = getVoteBalanceOrZero <$> byAddress r ->
  (if isCore Vote (tx_data t) then
     forall vote0, firstVote (tx_data t) = Some vote0 ->
       balanceOf a s
         = balanceOf r s + (if rv then tx_fee (tx_data t) else - tx_fee (tx_data t))
   else vote <$> byAddress a = vote <$> byAddress r) ->
  onlyVotesDiffer (patch credit r) x ->
  updateVoteBalances s rc (tx_data t) (fst lc) (snd lc) rv wa = (Returned tt, w1) ->
  exists z : World,
    updateVoteBalances s rc (tx_data t) (fst lc) (snd lc) (negb rv) wx = (Returned tt, z) /\
    faults z = faults wx /\
    onlyVotesDiffer x (walletRepository z) /\
    (forall ref, is_Some (storedVotes x ref) -> is_Some (storedVotes (walletRepository z) ref)) /\
    (forall ref, votesOf (walletRepository z) ref - votesOf r ref
                 = votesOf x ref - votesOf (walletRepository w1) ref
                   + voteShift beta credit rv t r ref) /\
    (isCore Vote (tx_data t) = true ->
     forall vote0 d, firstVote (tx_data t) = Some vote0 ->
       fst <$> walletByPublicKey r (substr_1 vote0) = Some d ->
       is_Some (storedVotes (walletRepository z) d)).
Proof.
  intros Ha Hx Hs Hkeys Hvb Hkind Hdiff Hupd.
  assert (Hra : sameWallets r a).
  { split; [done|]. intros addr. by eapply fmap_eq_is_Some. }
  assert (Hrx : sameWallets r x).
  { eapply sameWallets_trans; [apply (patch_sameWallets credit beta Hcredit)|].
    by apply onlyVotesDiffer_sameWallets. }
  assert (Hvra : forall ref, votesOf a ref = votesOf r ref)
    by (intros ref; by apply votesOf_fmap_eq).
  destruct (isCore Vote (tx_data t)) eqn:Hk.
  - (* a vote *)
    unfold updateVoteBalances in *. rewrite Hk in *.
    destruct (voteStep_inv _ _ _ _ _ Hupd) as (vote0 & wsa & d & wda & Hv0 & Hsa & Hda).
    rewrite (voteStep_closed _ _ _ _ _ _ _ _ Hv0 Hsa Hda) in Hupd. injection Hupd as <-.
    rewrite Ha in Hsa, Hda. cbn [walletRepository setRepo]. rewrite Ha.
    assert (Hdr : fst <$> walletByPublicKey r (substr_1 vote0) = Some d).
    { rewrite <- (sameWallets_walletByPublicKey r a _ Hra). by rewrite Hda. }
    assert (exists wdx, walletByPublicKey x (substr_1 vote0) = Some (d, wdx)) as [wdx Hdx].
    { apply walletByPublicKey_fst. by rewrite (sameWallets_walletByPublicKey r x _ Hrx). }
    assert (is_Some (byAddress r !! s)) as Hsr.
    { apply (proj2 Hra s). by eexists. }
    assert (exists wsx, byAddress x !! s = Some wsx) as [wsx Hsx].
    { by apply (proj2 Hrx s). }
    exists (setRepo (withVotes d
              (voteRule (startsWithPlus vote0) (negb rv) (getVoteBalanceOrZero wdx)
                 (balance wsx) (tx_fee (tx_data t))) x) wx).
    split.
    { rewrite <- Hx in Hsx, Hdx |- *. by apply voteStep_closed. }
    split; [done|]. cbn [walletRepository setRepo].
    split; [apply onlyVotesDiffer_withVotes|].
    pose proof (deref_lookup _ _ _ _ Hdx) as Hwdx.
    pose proof (deref_lookup _ _ _ _ Hda) as Hwda.
    split.
    { intros ref Href. rewrite storedVotes_withVotes.
      destruct (decide (d = ref)) as [<-|]; [|done]. rewrite Hwdx. by eexists. }
    split.
    { intros ref. unfold voteShift. rewrite Hk, Hs, Hv0, Hdr.
      rewrite !votesOf_withVotes by (by eexists).
      unfold voteDelta.
      destruct (decide (d = ref)) as [<-|Hne].
      - rewrite decide_True by done.
        assert (Hbx : balance wsx = balanceOf r s + creditTo beta credit s).
        { rewrite <- (balanceOf_lookup x s wsx Hsx).
          rewrite (onlyVotesDiffer_balanceOf _ _ s Hdiff).
          by apply patch_balanceOf. }
        assert (Hba : balance wsa
                      = balanceOf r s + (if rv then tx_fee (tx_data t) else - tx_fee (tx_data t))).
        { rewrite <- (balanceOf_lookup a s wsa Hsa). by apply (Hkind vote0). }
        rewrite <- (votesOf_lookup x d wdx Hwdx).
        pose proof (Hvra d) as Hvd. rewrite (votesOf_lookup a d wda Hwda) in Hvd.
        rewrite Hvd, Hbx, Hba. unfold voteRule.
        destruct (startsWithPlus vote0), rv; cbn [negb xorb]; lia.
      - rewrite decide_False by congruence. rewrite Hvra. lia. }
    intros _ vote1 d1 Hv1 Hd1. rewrite Hv0 in Hv1. injection Hv1 as <-.
    rewrite Hdr in Hd1. injection Hd1 as <-.
    rewrite storedVotes_withVotes, decide_True by done. rewrite Hwdx. by eexists.
  - (* any other kind *)
    destruct (undoesVotes_updateVoteBalances s rc (tx_data t) (fst lc) (snd lc) rv Hk
                wa w1 Hupd) as (Hd1 & Hf1 & delta & Hdelta & Hback).
    assert (Hax : sameVoters (walletRepository wa) (walletRepository wx)).
    { rewrite Ha, Hx.
      eapply sameVoters_trans; [apply sameVoters_sym; by split|].
      eapply sameVoters_trans; [apply (patch_sameVoters credit beta Hcredit)|].
      by apply onlyVotesDiffer_sameVoters. }
    destruct (Hback wx Hax) as (z & Hr & Hdz & Hfz & Hvz & Hsz).
    exists z. split; [exact Hr|]. split; [exact Hfz|].
    rewrite Hx in Hdz, Hvz, Hsz. split; [exact Hdz|]. split; [exact Hsz|]. split; [|done].
    intros ref. unfold voteShift. rewrite Hk, Hvz, Hdelta, Ha, Hvra. lia.
Qed.

Lemma updateVoteBalances_keeps (s : string) (rc : option string) (t : TransactionData)
  (lw : option string) (lt : option HtlcLockRecord) (rv : bool) (w w1 : World)
  (o : Outcome unit) :
  updateVoteBalances s rc t lw lt rv w = (o, w1) ->
  onlyVotesDiffer (walletRepository w) (walletRepository w1) /\ faults w1 = faults w.
Proof.
  intros H. pose proof (keepsLedger_updateVoteBalances s rc t lw lt rv w) as Hk.
  by rewrite H in Hk.
Qed.

(** [revertTransaction] after [applyTransaction]. *)
Lemma revert_after_apply (t : Transaction) (h : TransactionHandler) (w w1 u : World)
  (a : WalletRepository) :
  registry (tx_data t) = Returned h ->
  undoneByHandler credit h false t (walletRepository w) a ->
  applyTransaction registry t w = (Returned tt, w1) ->
  onlyVotesDiffer (patch credit (walletRepository w1)) (walletRepository u) ->
  exists z : World,
    revertTransaction registry t u = (Returned tt, z) /\
    faults z = faults u /\
    onlyVotesDiffer (patch credit (walletRepository w)) (walletRepository z) /\
    (forall ref, is_Some (storedVotes (walletRepository u) ref) ->
                 is_Some (storedVotes (walletRepository z) ref)) /\
    (forall ref, votesOf (walletRepository z) ref - votesOf (walletRepository w) ref
                 = votesOf (walletRepository u) ref - votesOf (walletRepository w1) ref
                   + voteShift beta credit false t (walletRepository w) ref) /\
    (isCore Vote (tx_data t) = true ->
     forall vote0 d, firstVote (tx_data t) = Some vote0 ->
       fst <$> walletByPublicKey (walletRepository w) (substr_1 vote0) = Some d ->
       is_Some (storedVotes (walletRepository z) d)).
Proof.
  intros Hreg (Hap & Hkeys & Hvb & Hkind & Hinv) Happ Hu.
  cbn [handlerStep negb] in Hap, Hinv.
  apply applyTransaction_inv in Happ
    as (h' & lc & a' & spk & s & ws & Hreg' & Hlc & Hap' & Hspk & Hs & Hupd).
  rewrite Hreg in Hreg'. injection Hreg' as <-.
  rewrite Hap in Hap'. injection Hap' as <-.
  set (r := walletRepository w) in *.
  destruct (updateVoteBalances_keeps _ _ _ _ _ _ _ _ _ Hupd) as [Ha1 Hf1].
  cbn [walletRepository setRepo] in Ha1.
  assert (Hau : onlyVotesDiffer (patch credit a) (walletRepository u)).
  { eapply onlyVotesDiffer_trans; [|exact Hu]. by apply (patch_respects credit beta Hcredit). }
  destruct (Hinv (walletRepository u) Hau) as (x & Hrev & Hx & Hst).
  assert (Hra : sameWallets r a).
  { split; [done|]. intros addr. by eapply fmap_eq_is_Some. }
  assert (Hau' : sameWallets a (walletRepository u)).
  { eapply sameWallets_trans; [apply (patch_sameWallets credit beta Hcredit)|].
    by apply onlyVotesDiffer_sameWallets. }
  assert (Hsr : senderRef t r = Some s).
  { rewrite <- (sameWallets_senderRef r a t Hra). unfold senderRef. by rewrite Hspk, Hs. }
  assert (exists ws', walletByPublicKey (walletRepository u) spk = Some (s, ws')) as [ws' Hsu].
  { apply walletByPublicKey_fst.
    rewrite (sameWallets_walletByPublicKey a _ spk Hau'). by rewrite Hs. }
  assert (Hlx : lockContext t (setRepo x u) = (Returned lc, setRepo x u)).
  { apply (lockContext_same t w); [| |exact Hlc]; cbn [walletRepository setRepo].
    - rewrite (proj1 (proj2 Hx)). apply (patch_byLocks credit beta Hcredit).
    - rewrite (onlyVotesDiffer_locks _ _ Hx). apply (patch_locks credit beta Hcredit). }
  rewrite (revertTransaction_run registry t h u lc x spk s ws' Hreg Hspk Hsu Hrev Hlx).
  rewrite (sameWallets_recipientOf a (walletRepository u) _ Hau').
  destruct (updateVoteBalances_undone s (recipientOf a (tx_data t)) t lc false r a x
              (setRepo a w) w1 (setRepo x u) eq_refl eq_refl Hsr Hkeys Hvb)
    as (z & Hz & Hfz & Hdz & Hsz & Hvz & Hwz); [|exact Hx|exact Hupd|].
  { destruct (isCore Vote (tx_data t)); [|exact Hkind].
    intros vote0 Hv0. by apply (Hkind s vote0). }
  exists z. split; [exact Hz|]. split; [exact Hfz|].
  split; [by eapply onlyVotesDiffer_trans|].
  assert (Hxu : forall ref, storedVotes x ref = storedVotes (walletRepository u) ref)
    by (intros ref; by apply storedVotes_fmap_eq).
  split; [intros ref Href; apply Hsz; by rewrite Hxu|].
  split; [|exact Hwz].
  intros ref. rewrite Hvz. rewrite !(votesOf_storedVotes x), Hxu.
  by rewrite <- !votesOf_storedVotes.
Qed.

(** [applyTransaction] after [revertTransaction]. *)
Lemma apply_after_revert (t : Transaction) (h : TransactionHandler) (w w1 u : World)
  (a : WalletRepository) :
  registry (tx_data t) = Returned h ->
  undoneByHandler credit h true t (walletRepository w) a ->
  revertTransaction registry t w = (Returned tt, w1) ->
  onlyVotesDiffer (patch credit (walletRepository w1)) (walletRepository u) ->
  exists z : World,
    applyTransaction registry t u = (Returned tt, z) /\
    faults z = faults u /\
    onlyVotesDiffer (patch credit (walletRepository w)) (walletRepository z) /\
    (forall ref, is_Some (storedVotes (walletRepository u) ref) ->
                 is_Some (storedVotes (walletRepository z) ref)) /\
    (forall ref, votesOf (walletRepository z) ref - votesOf (walletRepository w) ref
                 = votesOf (walletRepository u) ref - votesOf (walletRepository w1) ref
                   + voteShift beta credit true t (walletRepository w) ref) /\
    (isCore Vote (tx_data t) = true ->
     forall vote0 d, firstVote (tx_data t) = Some vote0 ->
       fst <$> walletByPublicKey (walletRepository w) (substr_1 vote0) = Some d ->
       is_Some (storedVotes (walletRepository z) d)).
Proof.
  intros Hreg (Hre & Hkeys & Hvb & Hkind & Hinv) Hrev Hu.
  cbn [handlerStep negb] in Hre, Hinv.
  apply revertTransaction_inv in Hrev
    as (h' & lc & a' & spk & s & ws & Hreg' & Hspk & Hs & Hre' & Hlc & Hupd).
  rewrite Hreg in Hreg'. injection Hreg' as <-.
  rewrite Hre in Hre'. injection Hre' as <-.
  set (r := walletRepository w) in *.
  destruct (updateVoteBalances_keeps _ _ _ _ _ _ _ _ _ Hupd) as [Ha1 Hf1].
  cbn [walletRepository setRepo] in Ha1.
  assert (Hau : onlyVotesDiffer (patch credit a) (walletRepository u)).
  { eapply onlyVotesDiffer_trans; [|exact Hu]. by apply (patch_respects credit beta Hcredit). }
  destruct (Hinv (walletRepository u) Hau) as (x & Hap & Hx & Hst).
  assert (Hrx : sameWallets r x).
  { eapply sameWallets_trans; [apply (patch_sameWallets credit beta Hcredit)|].
    by apply onlyVotesDiffer_sameWallets. }
  assert (Hsr : senderRef t r = Some s).
  { unfold senderRef. by rewrite Hspk, Hs. }
  assert (exists ws', walletByPublicKey x spk = Some (s, ws')) as [ws' Hsx].
  { apply walletByPublicKey_fst.
    rewrite (sameWallets_walletByPublicKey r x spk Hrx). by rewrite Hs. }
  assert (Hlu : lockContext t u = (Returned lc, u)).
  { apply (lockContext_same t (setRepo a w)); [| |exact Hlc]; cbn [walletRepository setRepo].
    - rewrite (proj1 (proj2 Hau)). apply (patch_byLocks credit beta Hcredit).
    - rewrite (onlyVotesDiffer_locks _ _ Hau). apply (patch_locks credit beta Hcredit). }
  rewrite (applyTransaction_run registry t h u lc x spk s ws' Hreg Hlu Hap Hspk Hsx).
  rewrite (sameWallets_recipientOf r x _ Hrx).
  destruct (updateVoteBalances_undone s (recipientOf r (tx_data t)) t lc true r a x
              (setRepo a w) w1 (setRepo x u) eq_refl eq_refl Hsr Hkeys Hvb)
    as (z & Hz & Hfz & Hdz & Hsz & Hvz & Hwz); [|exact Hx|exact Hupd|].
  { destruct (isCore Vote (tx_data t)); [|exact Hkind].
    intros vote0 Hv0. by apply (Hkind s vote0). }
  exists z. split; [exact Hz|]. split; [exact Hfz|].
  split; [by eapply onlyVotesDiffer_trans|].
  assert (Hxu : forall ref, storedVotes x ref = storedVotes (walletRepository u) ref)
    by (intros ref; by apply storedVotes_fmap_eq).
  split; [intros ref Href; apply Hsz; by rewrite Hxu|].
  split; [|exact Hwz].
  intros ref. rewrite Hvz. rewrite !(votesOf_storedVotes x), Hxu.
  by rewrite <- !votesOf_storedVotes.
Qed.

(** Either direction of the engine, taken back by the other. *)
Lemma engineStep_undone (rv : bool) (t : Transaction) (h : TransactionHandler)
  (w w1 u : World) (a : WalletRepository) :
  registry (tx_data t) = Returned h ->
  undoneByHandler credit h rv t (walletRepository w) a ->
  engineStep registry rv t w = (Returned tt, w1) ->
  onlyVotesDiffer (patch credit (walletRepository w1)) (walletRepository u) ->
  exists z : World,
    engineStep registry (negb rv) t u = (Returned tt, z) /\
    faults z = faults u /\
    onlyVotesDiffer (patch credit (walletRepository w)) (walletRepository z) /\
    (forall ref, is_Some (storedVotes (walletRepository u) ref) ->
                 is_Some (storedVotes (walletRepository z) ref)) /\
    (forall ref, votesOf (walletRepository z) ref - votesOf (walletRepository w) ref
                 = votesOf (walletRepository u) ref - votesOf (walletRepository w1) ref
                   + voteShift beta credit rv t (walletRepository w) ref) /\
    (isCore Vote (tx_data t) = true ->
     forall vote0 d, firstVote (tx_data t) = Some vote0 ->
       fst <$> walletByPublicKey (walletRepository w) (substr_1 vote0) = Some d ->
       is_Some (storedVotes (walletRepository z) d)).
Proof.
  destruct rv; cbn [engineStep negb].
  - apply apply_after_revert.
  - apply revert_after_apply.
Qed.

End TakenBack.

(** ** The transactions of a run, taken back *)

Lemma voteShift_None (revert : bool) (t : Transaction) (r : WalletRepository) (ref : string) :
  voteShift 0 None revert t r ref = 0.
Proof.
  unfold voteShift, creditTo, voteDelta.
  destruct (isCore Vote (tx_data t)); [|done].
  destruct (senderRef t r); [|done]. destruct (firstVote (tx_data t)); [|done].
  cbn. destruct (xorb _ _); by destruct (decide _).
Qed.

Section Rollback.
Variable registry : TransactionData -> Outcome TransactionHandler.

Lemma Ran_forEach (credit : option (string * (Wallet -> Wallet))) (rv : bool)
  (w w1 : World) (ts : list Transaction) :
  Ran registry credit rv w ts w1 ->
  forEach (engineStep registry rv) ts w = (Returned tt, w1).
Proof.
  induction 1 as [w|w w1 w2 t ts h a Hreg Hc Hstep _ IH]; [done|].
  cbn [forEach]. by erewrite bind_returned; [|exact Hstep].
Qed.

Lemma Ran_faults (credit : option (string * (Wallet -> Wallet))) (rv : bool)
  (w w1 : World) (ts : list Transaction) :
  Ran registry credit rv w ts w1 -> faults w1 = faults w.
Proof.
  induction 1 as [w|w w1 w2 t ts h a Hreg Hc Hstep _ IH]; [done|].
  rewrite IH. destruct rv; cbn [engineStep] in Hstep.
  - pose proof (quiet_revertTransaction registry t w) as Hq. by rewrite Hstep in Hq.
  - pose proof (quiet_applyTransaction registry t w) as Hq. by rewrite Hstep in Hq.
Qed.

(** The transactions that ran are taken back from last to first by the other
    direction of the engine, from any ledger that differs from the one they
    left in vote balances only: the ledger they started from is back, with
    the vote balances moved as much as they were moved on the way. *)
Lemma Ran_undone (rv : bool) (w w1 : World) (ts : list Transaction) :
  Ran registry None rv w ts w1 ->
  forall u : World,
    onlyVotesDiffer (walletRepository w1) (walletRepository u) ->
    exists z : World,
      forEach (engineStep registry (negb rv)) (rev ts) u = (Returned tt, z) /\
      faults z = faults u /\
      onlyVotesDiffer (walletRepository w) (walletRepository z) /\
      forall ref, votesOf (walletRepository z) ref - votesOf (walletRepository w) ref
                  = votesOf (walletRepository u) ref - votesOf (walletRepository w1) ref.
Proof.
  induction 1 as [w|w w1 w2 t ts h a Hreg Hc Hstep _ IH]; intros u Hu.
  - exists u. split; [done|]. split; [done|]. split; [done|]. intros ref. lia.
  - destruct (IH u Hu) as (z1 & Hz1 & Hf1 & Hd1 & Hv1).
    destruct (engineStep_undone registry None 0 eq_refl rv t h w w1 z1 a Hreg Hc Hstep Hd1)
      as (z & Hz & Hfz & Hdz & _ & Hvz & _).
    exists z. split.
    { cbn [rev]. rewrite forEach_app. erewrite bind_returned; [|exact Hz1].
      cbn [forEach]. by erewrite bind_returned; [|exact Hz]. }
    split; [congruence|]. split; [exact Hdz|].
    intros ref. specialize (Hvz ref). rewrite voteShift_None in Hvz.
    specialize (Hv1 ref). lia.
Qed.

End Rollback.

(** ** Credits and moved balances *)

Lemma creditWallet_creditOf (g : string) (bd : BlockData) :
  creditOf (b_reward bd + b_totalFee bd) (Some (g, creditWallet bd)).
Proof.
  intros [pk bal vt dl lk]. unfold creditWallet, getVoteBalance. cbn.
  split; [done|]. split; [done|]. split; [done|].
  split; [by destruct dl|]. split; [lia|]. split.
  - intros [pk' bal' vt' dl' lk']. unfold otherAttributes. cbn.
    intros [= -> -> -> -> Hpb Hff Hfr Hlb].
    destruct dl as [d|], dl' as [d'|]; unfold emptyDelegate; cbn in *.
    all: try congruence.
    all: first [by rewrite <- Hpb, <- Hff, <- Hfr | by rewrite Hpb, Hff, Hfr].
  - intros v. unfold otherAttributes. cbn. do 4 f_equal. lia.
Qed.

Lemma addBalance_addBalance (c1 c2 : Z) (wal : Wallet) :
  addBalance c1 (addBalance c2 wal) = addBalance (c1 + c2) wal.
Proof. destruct wal. unfold addBalance, set_balance. cbn. f_equal. lia. Qed.

Lemma addBalance_0 (wal : Wallet) : addBalance 0 wal = wal.
Proof. destruct wal. unfold addBalance, set_balance. cbn. f_equal. lia. Qed.

Lemma lookup_adjustBalance_add (c : Z) (ref : string) (r : WalletRepository) (q : string) :
  byAddress (adjustBalance c ref r) !! q =
    if decide (ref = q) then addBalance c <$> byAddress r !! q else byAddress r !! q.
Proof. apply lookup_alter_wallet. Qed.

Lemma lookup_adjustBalance_twice (c1 c2 : Z) (a1 a2 : string) (r : WalletRepository) (q : string) :
  byAddress (adjustBalance c1 a1 (adjustBalance c2 a2 r)) !! q =
    addBalance ((if decide (a1 = q) then c1 else 0) + (if decide (a2 = q) then c2 else 0))
      <$> byAddress r !! q.
Proof.
  rewrite !lookup_adjustBalance_add.
  destruct (decide (a1 = q)), (decide (a2 = q)), (byAddress r !! q) as [wal|]; cbn; try done;
    f_equal; rewrite ?addBalance_addBalance, ?Z.add_0_r, ?Z.add_0_l, ?addBalance_0; done.
Qed.

Lemma otherAttributes_addBalance (c : Z) (wal wal' : Wallet) :
  otherAttributes wal' = otherAttributes wal ->
  otherAttributes (addBalance c wal') = otherAttributes (addBalance c wal).
Proof.
  destruct wal, wal'. unfold otherAttributes, addBalance. cbn. by intros [= -> -> -> -> -> -> -> ->].
Qed.

Section Moved.
Variable credit : option (string * (Wallet -> Wallet)).
Variable beta : Z.
Hypothesis Hcredit : creditOf beta credit.

(** A handler that moves balances by [f], taken back by one that moves them
    by [- f] on a ledger with the credit and other vote balances. *)
Lemma moved_back (f : string -> Z) (r a u x : WalletRepository) :
  (forall q, byAddress a !! q = addBalance (f q) <$> byAddress r !! q) ->
  byPublicKey a = byPublicKey r -> byLocks a = byLocks r ->
  (forall q, byAddress x !! q = addBalance (- f q) <$> byAddress u !! q) ->
  byPublicKey x = byPublicKey u -> byLocks x = byLocks u ->
  onlyVotesDiffer (patch credit a) u ->
  onlyVotesDiffer (patch credit r) x /\
  getVoteBalance <$> byAddress x = getVoteBalance <$> byAddress u.
Proof.
  intros Ha Hak Hal Hx Hxk Hxl (Hu1 & Hu2 & Hu3).
  split; [|apply map_eq; intros q; rewrite !lookup_fmap, Hx;
           by destruct (byAddress u !! q) as [[]|]].
  split; [|split].
  - rewrite Hxk, Hu1. rewrite !(patch_byPublicKey credit beta Hcredit). done.
  - rewrite Hxl, Hu2. rewrite !(patch_byLocks credit beta Hcredit). done.
  - apply map_eq. intros q. rewrite !lookup_fmap, Hx.
    pose proof (fmap_eq_lookup _ _ _ q Hu3) as Hq.
    destruct credit as [[g k]|]; cbn [patch] in *.
    + rewrite lookup_alter_wallet in Hq |- *. rewrite Ha in Hq.
      destruct (byAddress u !! q) as [uq|], (byAddress r !! q) as [rq|];
        destruct (decide (g = q)); cbn [fmap option_fmap option_map] in Hq |- *;
        try done; f_equal; apply (inj Some) in Hq.
      * rewrite (otherAttributes_addBalance _ _ _ Hq).
        destruct (Hcredit (addBalance (f q) rq)) as (_ & _ & _ & _ & Hb & _ & _).
        destruct (Hcredit rq) as (_ & _ & _ & _ & Hb' & Hresp & Hcomm).
        unfold addBalance at 1. rewrite Hb.
        rewrite <- (Hresp (set_balance (balance rq) rq)) by (by destruct rq).
        rewrite (Hcomm (balance rq)). unfold addBalance at 2. cbn [balance set_balance].
        unfold addBalance in *.
        pose proof (Hcomm (balance rq + f q)) as Hc. cbn [balance set_balance] in Hc.
        unfold otherAttributes in Hc |- *. cbn in Hc |- *.
        injection Hc as -> _ -> -> -> -> -> ->. do 4 f_equal. lia.
      * rewrite (otherAttributes_addBalance _ _ _ Hq).
        rewrite addBalance_addBalance. replace (- f q + f q) with 0 by lia.
        by rewrite addBalance_0.
    + rewrite Ha in Hq.
      destruct (byAddress u !! q) as [uq|], (byAddress r !! q) as [rq|];
        cbn [fmap option_fmap option_map] in Hq |- *; try done; f_equal;
        apply (inj Some) in Hq.
      rewrite (otherAttributes_addBalance _ _ _ Hq).
      rewrite addBalance_addBalance. replace (- f q + f q) with 0 by lia.
      by rewrite addBalance_0.
Qed.

End Moved.

(** ** A block that fails *)

Section RolledBack.
Variable fromPublicKey : string -> string.
Variable registry : TransactionData -> Outcome TransactionHandler.



End RolledBack.

(** ** A block applied and then reverted *)

Lemma backedDelegate_voteOf (r r' : WalletRepository) (g : string) :
  sameWallets r r' -> voteOf r' g = voteOf r g ->
  backedDelegate r' g = backedDelegate r g.
Proof.
  intros Hw Hv. unfold voteOf in Hv. unfold backedDelegate.
  destruct (byAddress r' !! g) as [x|], (byAddress r !! g) as [y|]; cbn in Hv; try done.
  injection Hv as ->. destruct (vote y) as [pk|]; [|done].
  pose proof (sameWallets_walletByPublicKey r r' pk Hw) as Hpk.
  destruct (walletByPublicKey r' pk) as [[??]|], (walletByPublicKey r pk) as [[??]|];
    cbn in Hpk; congruence.
Qed.

Lemma backedDelegate_unset (r : WalletRepository) (g : string) :
  voteOf r g = Some None -> backedDelegate r g = Some None.
Proof.
  unfold voteOf, backedDelegate. destruct (byAddress r !! g) as [x|]; [|done].
  cbn. intros [= ->]. done.
Qed.

Lemma backedDelegate_set (r : WalletRepository) (g key d : string) :
  voteOf r g = Some (Some key) ->
  fst <$> walletByPublicKey r key = Some d ->
  backedDelegate r g = Some (Some d).
Proof.
  unfold voteOf, backedDelegate. destruct (byAddress r !! g) as [x|]; [|done].
  cbn. intros [= ->] Hd. by destruct (walletByPublicKey r key) as [[??]|]; simplify_eq/=.
Qed.

Section Steps.
Variable registry : TransactionData -> Outcome TransactionHandler.

(** What a step of the engine that returns has gone through. *)
Lemma engineStep_steps (rv : bool) (t : Transaction) (h : TransactionHandler)
  (w w1 : World) (a : WalletRepository) :
  registry (tx_data t) = Returned h ->
  handlerStep h rv t (walletRepository w) = (Returned tt, a) ->
  sameWallets (walletRepository w) a ->
  engineStep registry rv t w = (Returned tt, w1) ->
  onlyVotesDiffer a (walletRepository w1) /\
  exists s, senderRef t (walletRepository w) = Some s /\
    (isCore Vote (tx_data t) = true ->
     exists vote0 d, firstVote (tx_data t) = Some vote0 /\
       fst <$> walletByPublicKey (walletRepository w) (substr_1 vote0) = Some d).
Proof.
  intros Hreg Hh Hra Hstep. destruct rv; cbn [engineStep handlerStep] in *.
  - apply revertTransaction_inv in Hstep
      as (h' & lc & a' & spk & s & ws & Hreg' & Hspk & Hs & Hre & Hlc & Hupd).
    rewrite Hreg in Hreg'. injection Hreg' as <-.
    rewrite Hh in Hre. injection Hre as <-.
    destruct (updateVoteBalances_keeps _ _ _ _ _ _ _ _ _ Hupd) as [Ha1 _].
    split; [exact Ha1|]. exists s. split; [unfold senderRef; by rewrite Hspk, Hs|].
    intros Hk. unfold updateVoteBalances in Hupd. rewrite Hk in Hupd.
    destruct (voteStep_inv _ _ _ _ _ Hupd) as (vote0 & wsa & d & wda & Hv0 & _ & Hda).
    exists vote0, d. split; [done|]. cbn [walletRepository setRepo] in Hda.
    rewrite <- (sameWallets_walletByPublicKey _ a _ Hra). by rewrite Hda.
  - apply applyTransaction_inv in Hstep
      as (h' & lc & a' & spk & s & ws & Hreg' & Hlc & Hap & Hspk & Hs & Hupd).
    rewrite Hreg in Hreg'. injection Hreg' as <-.
    rewrite Hh in Hap. injection Hap as <-.
    destruct (updateVoteBalances_keeps _ _ _ _ _ _ _ _ _ Hupd) as [Ha1 _].
    split; [exact Ha1|]. exists s. split.
    { rewrite <- (sameWallets_senderRef _ a t Hra). unfold senderRef. by rewrite Hspk, Hs. }
    intros Hk. unfold updateVoteBalances in Hupd. rewrite Hk in Hupd.
    destruct (voteStep_inv _ _ _ _ _ Hupd) as (vote0 & wsa & d & wda & Hv0 & _ & Hda).
    exists vote0, d. split; [done|]. cbn [walletRepository setRepo] in Hda.
    rewrite <- (sameWallets_walletByPublicKey _ a _ Hra). by rewrite Hda.
Qed.

End Steps.

Section Credited.
Variable registry : TransactionData -> Outcome TransactionHandler.
Variable g : string.
Variable k : Wallet -> Wallet.
Variable beta : Z.
Hypothesis Hcredit : creditOf beta (Some (g, k)).

(** A step taken back on the ledger where the wallet behind [g] has been
    credited with [beta] and the delegate it backs has [beta] more votes. *)
Lemma engineStep_undone_credited (rv : bool) (t : Transaction) (h : TransactionHandler)
  (w w1 u : World) (a : WalletRepository) (vd1 : option string) :
  registry (tx_data t) = Returned h ->
  undoneByHandler (Some (g, k)) h rv t (walletRepository w) a ->
  engineStep registry rv t w = (Returned tt, w1) ->
  onlyVotesDiffer (patch (Some (g, k)) (walletRepository w1)) (walletRepository u) ->
  backedDelegate (walletRepository w1) g = Some vd1 ->
  (forall ref, votesOf (walletRepository u) ref
               = votesOf (walletRepository w1) ref + voteDelta vd1 beta ref) ->
  (forall d, vd1 = Some d -> is_Some (storedVotes (walletRepository u) d)) ->
  exists (z : World) (vd0 : option string),
    engineStep registry (negb rv) t u = (Returned tt, z) /\
    faults z = faults u /\
    onlyVotesDiffer (patch (Some (g, k)) (walletRepository w)) (walletRepository z) /\
    backedDelegate (walletRepository w) g = Some vd0 /\
    (forall ref, votesOf (walletRepository z) ref
                 = votesOf (walletRepository w) ref + voteDelta vd0 beta ref) /\
    (forall d, vd0 = Some d -> is_Some (storedVotes (walletRepository z) d)).
Proof.
  intros Hreg Hc Hstep Hu Hvd1 Hoff Hst.
  destruct (engineStep_undone registry (Some (g, k)) beta Hcredit rv t h w w1 u a
              Hreg Hc Hstep Hu) as (z & Hz & Hfz & Hdz & Hsz & Hvz & Hwz).
  destruct Hc as (Hh & Hkeys & Hvb & Hkind & _).
  set (r := walletRepository w) in *.
  assert (Hra : sameWallets r a).
  { split; [done|]. intros addr. by eapply fmap_eq_is_Some. }
  destruct (engineStep_steps registry rv t h w w1 a Hreg Hh Hra Hstep)
    as (Ha1 & s & Hsr & Hvote).
  fold r in Hsr, Hvote.
  assert (Hvda : backedDelegate a g = Some vd1).
  { by rewrite <- (onlyVotesDiffer_backedDelegate a (walletRepository w1) g Ha1). }
  exists z.
  destruct (isCore Vote (tx_data t)) eqn:Hk.
  - destruct (Hvote eq_refl) as (vote0 & d & Hv0 & Hdr).
    destruct (Hkind s vote0 Hsr Hv0) as [_ Hg]. specialize (Hg g k eq_refl).
    assert (Hda : fst <$> walletByPublicKey a (substr_1 vote0) = Some d).
    { by rewrite (sameWallets_walletByPublicKey r a _ Hra). }
    assert (Hshift : forall ref, voteShift beta (Some (g, k)) rv t r ref
      = voteDelta (Some d)
          (if xorb (startsWithPlus vote0) rv
           then - creditTo beta (Some (g, k)) s else creditTo beta (Some (g, k)) s) ref).
    { intros ref. unfold voteShift. by rewrite Hk, Hsr, Hv0, Hdr. }
    destruct (decide (g = s)) as [<-|Hne].
    + assert (Hcg : creditTo beta (Some (g, k)) g = beta).
      { unfold creditTo. cbn. by rewrite decide_True. }
      rewrite Hcg in Hshift.
      destruct (xorb (startsWithPlus vote0) rv); destruct Hg as [Hvr Hva].
      * (* the vote of [g] was set: before, it backed nobody *)
        rewrite (backedDelegate_set a g _ d Hva Hda) in Hvda. injection Hvda as <-.
        exists None. split; [exact Hz|]. split; [exact Hfz|]. split; [exact Hdz|].
        split; [by apply backedDelegate_unset|]. split; [|done].
        intros ref. specialize (Hvz ref). rewrite Hshift, Hoff in Hvz.
        unfold voteDelta in *. rewrite decide_False by done.
        destruct (decide (Some d = Some ref)); lia.
      * (* the vote of [g] was cleared: before, it backed [d] *)
        rewrite (backedDelegate_unset a g Hva) in Hvda. injection Hvda as <-.
        exists (Some d). split; [exact Hz|]. split; [exact Hfz|]. split; [exact Hdz|].
        split; [by eapply backedDelegate_set|]. split.
        -- intros ref. specialize (Hvz ref). rewrite Hshift, Hoff in Hvz.
           unfold voteDelta in *. rewrite decide_False in Hvz by done.
           destruct (decide (Some d = Some ref)); lia.
        -- intros d' [= <-]. by apply (Hwz eq_refl vote0 d).
    + assert (Hcs : creditTo beta (Some (g, k)) s = 0).
      { unfold creditTo. cbn. rewrite decide_False; [done | congruence]. }
      rewrite Hcs in Hshift.
      exists vd1. split; [exact Hz|]. split; [exact Hfz|]. split; [exact Hdz|].
      split; [by rewrite <- (backedDelegate_voteOf r a g Hra Hg)|]. split.
      * intros ref. specialize (Hvz ref). rewrite Hshift, Hoff in Hvz.
        unfold voteDelta in Hvz at 2.
        destruct (xorb _ _), (decide (Some d = Some ref)); lia.
      * intros d' Hd'. by apply Hsz, Hst.
  - exists vd1. split; [exact Hz|]. split; [exact Hfz|]. split; [exact Hdz|].
    split.
    { rewrite <- Hvda. symmetry. apply sameVoters_backedDelegate. by split. }
    split.
    + intros ref. specialize (Hvz ref). unfold voteShift in Hvz. rewrite Hk, Hoff in Hvz. lia.
    + intros d' Hd'. by apply Hsz, Hst.
Qed.

(** The transactions of a block, reverted from last to first on the ledger
    where the generator has been credited. *)
Lemma Ran_undone_credited (rv : bool) (w w1 : World) (ts : list Transaction) :
  Ran registry (Some (g, k)) rv w ts w1 ->
  forall (u : World) (vd1 : option string),
    onlyVotesDiffer (patch (Some (g, k)) (walletRepository w1)) (walletRepository u) ->
    backedDelegate (walletRepository w1) g = Some vd1 ->
    (forall ref, votesOf (walletRepository u) ref
                 = votesOf (walletRepository w1) ref + voteDelta vd1 beta ref) ->
    (forall d, vd1 = Some d -> is_Some (storedVotes (walletRepository u) d)) ->
    exists (z : World) (vd0 : option string),
      forEach (engineStep registry (negb rv)) (rev ts) u = (Returned tt, z) /\
      faults z = faults u /\
      onlyVotesDiffer (patch (Some (g, k)) (walletRepository w)) (walletRepository z) /\
      backedDelegate (walletRepository w) g = Some vd0 /\
      (forall ref, votesOf (walletRepository z) ref
                   = votesOf (walletRepository w) ref + voteDelta vd0 beta ref) /\
      (forall d, vd0 = Some d -> is_Some (storedVotes (walletRepository z) d)).
Proof.
  induction 1 as [w|w w1 w2 t ts h a Hreg Hc Hstep _ IH]; intros u vd1 Hu Hvd Hoff Hst.
  - exists u, vd1. split; [done|]. split; [done|]. split; [exact Hu|].
    split; [exact Hvd|]. split; [exact Hoff | exact Hst].
  - destruct (IH u vd1 Hu Hvd Hoff Hst) as (z1 & vdm & Hz1 & Hf1 & Hd1 & Hvdm & Hoff1 & Hst1).
    destruct (engineStep_undone_credited rv t h w w1 z1 a vdm Hreg Hc Hstep Hd1 Hvdm Hoff1 Hst1)
      as (z & vd0 & Hz & Hfz & Hdz & Hvd0 & Hoff0 & Hst0).
    exists z, vd0. split.
    { cbn [rev]. rewrite forEach_app. erewrite bind_returned; [|exact Hz1].
      cbn [forEach]. by erewrite bind_returned; [|exact Hz]. }
    split; [congruence|]. split; [exact Hdz|]. split; [exact Hvd0|].
    split; [exact Hoff0 | exact Hst0].
Qed.

End Credited.

Lemma bind_throw_thrown {A : Type} (m : M A) (e : error) (w w1 : World) (o : unit) :
  (do m then throw e) w <> (Returned o, w1).
Proof. unfold bind. by destruct (m w) as [[a|e'] w']. Qed.

Lemma has_key_sameWallets (key : string) (r r' : WalletRepository) :
  sameWallets r r' -> has_key key r' = has_key key r.
Proof.
  intros [H1 H2]. unfold has_key. rewrite H1. f_equal.
  apply bool_decide_ext, H2.
Qed.

Lemma updateVotedDelegate_inv (g : string) (bd : BlockData) (rv : bool) (w w1 : World) :
  updateVotedDelegate g bd rv w = (Returned tt, w1) ->
  exists wg, byAddress (walletRepository w) !! g = Some wg /\
    match vote wg with
    | Some pk =>
        exists v wv vb,
          walletByPublicKey (walletRepository w) pk = Some (v, wv) /\
          getVoteBalance wv = Some vb /\
          w1 = setRepo (withVotes v
                 (if rv then vb - (b_reward bd + b_totalFee bd)
                  else vb + (b_reward bd + b_totalFee bd))
                 (walletRepository w)) w
    | None => w1 = w
    end.
Proof.
  unfold updateVotedDelegate. intros H.
  apply bind_inv in H as (wg & w' & Hg & H). apply getWallet_inv in Hg as [-> Hg].
  exists wg. split; [done|].
  destruct (vote wg) as [pk|]; [|by injection H].
  apply bind_inv in H as (v & w' & Hv & H). apply findByPublicKey_inv in Hv as [-> [wv Hv]].
  apply bind_inv in H as (wv' & w' & Hwv & H). apply getWallet_inv in Hwv as [-> Hwv].
  rewrite (deref_lookup _ _ _ _ Hv) in Hwv. injection Hwv as <-.
  apply bind_inv in H as (vb & w' & Hvb & H).
  destruct (getVoteBalance wv) as [vb'|] eqn:E; [|done]. injection Hvb as <- <-.
  exists v, wv, vb'. split; [done|]. split; [done|].
  rewrite setVoteBalance_run in H. by injection H.
Qed.

Section RoundTrip.
Variable fromPublicKey : string -> string.
Variable registry : TransactionData -> Outcome TransactionHandler.

Lemma isGenerator_address (g : string) (wal : Wallet) (bd : BlockData) :
  fromPublicKey (b_generatorPublicKey bd) = g ->
  isGenerator fromPublicKey g wal bd = true.
Proof.
  intros H. unfold isGenerator. apply orb_true_iff. right. by apply bool_decide_eq_true.
Qed.

(** When the credit of a block returns for the wallet at the generator's
    address, it has written [creditWallet]. *)
Lemma applyBlockToDelegate_inv (g : string) (bd : BlockData) (w w1 : World) (b : bool) :
  fromPublicKey (b_generatorPublicKey bd) = g ->
  applyBlockToDelegate fromPublicKey g bd w = (Returned b, w1) ->
  b = true /\
  is_Some (byAddress (walletRepository w) !! g) /\
  w1 = setRepo (alter_wallet (creditWallet bd) g (walletRepository w)) w.
Proof.
  intros Hg H0. pose proof H0 as H. unfold applyBlockToDelegate in H.
  apply bind_inv in H as (wg & w' & Hwg & H). apply getWallet_inv in Hwg as [-> Hwg].
  rewrite (isGenerator_address g wg bd Hg) in H.
  apply bind_inv in H as ([] & w' & Hm & H). injection Hm as <-.
  apply bind_inv in H as (d & w' & Hd & H).
  destruct (delegate wg) as [dg|] eqn:Hdg; [|done]. injection Hd as <- <-.
  apply bind_inv in H as ([] & w' & Hm & H). injection Hm as <-.
  apply bind_inv in H as (ff & w' & Hff & H).
  destruct (forgedFees dg) as [ff'|] eqn:Eff; [|done]. injection Hff as <- <-.
  apply bind_inv in H as ([] & w' & Hm & H). injection Hm as <-.
  apply bind_inv in H as (fr & w' & Hfr & _).
  destruct (forgedRewards dg) as [fr'|] eqn:Efr; [|done]. clear Hfr.
  rewrite (applyBlockToDelegate_run fromPublicKey g wg bd w dg ff' fr' Hwg
             (isGenerator_address g wg bd Hg) Hdg Eff Efr) in H0.
  injection H0 as <- <-.
  split; [done|]. split; [by eexists|]. f_equal.
  rewrite (alter_wallet_lookup _ _ _ _ Hwg). f_equal.
  unfold creditWallet. rewrite Hdg. cbn. by rewrite Eff, Efr.
Qed.


(** The credit of a block, when it returns for the wallet at the generator's
    address. *)
Lemma credit_returned (g : string) (bd : BlockData) (w c : World) :
  fromPublicKey (b_generatorPublicKey bd) = g ->
  (let* credited := applyBlockToDelegate fromPublicKey g bd in
   when credited (updateVotedDelegate g bd false)) w = (Returned tt, c) ->
  faults c = faults w /\
  onlyVotesDiffer (alter_wallet (creditWallet bd) g (walletRepository w)) (walletRepository c) /\
  exists vd : option string,
    backedDelegate (walletRepository w) g = Some vd /\
    (forall ref, votesOf (walletRepository c) ref
                 = votesOf (walletRepository w) ref
                   + voteDelta vd (b_reward bd + b_totalFee bd) ref) /\
    (forall d, vd = Some d -> is_Some (storedVotes (walletRepository c) d)).
Proof.
  intros Hg H.
  pose proof (creditWallet_creditOf g bd) as Hcr.
  set (credit := Some (g, creditWallet bd)) in *.
  set (beta := b_reward bd + b_totalFee bd) in *.
  apply bind_inv in H as (b & c1 & H1 & H2).
  apply (applyBlockToDelegate_inv g bd w c1 b Hg) in H1 as (-> & Hex & ->).
  cbn [when] in H2.
  apply updateVotedDelegate_inv in H2 as (wgc & Hwgc & Hv).
  cbn [walletRepository setRepo] in Hwgc, Hv.
  change (alter_wallet (creditWallet bd) g (walletRepository w))
    with (patch credit (walletRepository w)) in *.
  set (r := walletRepository w) in *.
  assert (Hsame : forall q, backedDelegate (patch credit r) q = backedDelegate r q).
  { intros q. apply sameVoters_backedDelegate, (patch_sameVoters credit beta Hcr). }
  destruct (vote wgc) as [pk|] eqn:Hvote.
  - destruct Hv as (v & wv & vb & Hdv & Hvb & ->). cbn [walletRepository setRepo faults].
    split; [done|]. split; [apply onlyVotesDiffer_withVotes|].
    pose proof (deref_lookup _ _ _ _ Hdv) as Hwv.
    exists (Some v). split.
    { rewrite <- Hsame. by eapply backedDelegate_voted. }
    split.
    + intros ref. rewrite votesOf_withVotes by (by eexists).
      unfold voteDelta. destruct (decide (v = ref)) as [<-|Hne].
      * rewrite decide_True by done.
        rewrite <- (patch_votesOf credit beta Hcr r v), (votesOf_lookup _ _ _ Hwv).
        unfold getVoteBalanceOrZero. rewrite Hvb. cbn. reflexivity.
      * rewrite decide_False by congruence. rewrite (patch_votesOf credit beta Hcr). lia.
    + intros d [= <-]. rewrite storedVotes_withVotes, decide_True by done.
      rewrite Hwv. by eexists.
  - subst c. cbn [walletRepository setRepo faults].
    split; [done|]. split; [apply onlyVotesDiffer_refl|].
    exists None. split.
    { rewrite <- Hsame. by eapply backedDelegate_unvoted. }
    split; [|done].
    intros ref. rewrite (patch_votesOf credit beta Hcr). unfold voteDelta.
    rewrite decide_False by done. lia.
Qed.

Lemma votesOf_putWallet (g : string) (wal : Wallet) (r : WalletRepository) (ref : string) :
  (forall old, byAddress r !! g = Some old -> getVoteBalance wal = getVoteBalance old) ->
  is_Some (byAddress r !! g) ->
  storedVotes (putWallet g wal r) ref = storedVotes r ref.
Proof.
  intros Hsame [old Hold]. unfold storedVotes, putWallet, setWallets. cbn [byAddress].
  rewrite lookup_insert. destruct (decide (g = ref)) as [<-|]; [|done].
  rewrite Hold. cbn. by apply Hsame.
Qed.

(** The credit taken back from the wallet at the generator's address, on a
    ledger that is the one before the block but for the credit and the vote
    balances: the ledger before the block is back, without the last block of
    the generator. *)
Lemma uncredit_returns (g : string) (bd : BlockData) (r : WalletRepository) (z0 : World)
  (wg : Wallet) (dg : WalletDelegateAttributes) (n ff fr : Z) (vd : option string) :
  fromPublicKey (b_generatorPublicKey bd) = g ->
  byAddress r !! g = Some wg ->
  delegate wg = Some dg ->
  producedBlocks dg = Some n ->
  Z.abs n < 2 ^ 53 ->
  forgedFees dg = Some ff ->
  forgedRewards dg = Some fr ->
  onlyVotesDiffer (alter_wallet (creditWallet bd) g r) (walletRepository z0) ->
  backedDelegate r g = Some vd ->
  (forall ref, votesOf (walletRepository z0) ref
               = votesOf r ref + voteDelta vd (b_reward bd + b_totalFee bd) ref) ->
  (forall d, vd = Some d -> is_Some (storedVotes (walletRepository z0) d)) ->
  exists z : World,
    (let* uncredited := revertBlockFromDelegate fromPublicKey g bd in
     when uncredited (updateVotedDelegate g bd true)) z0 = (Returned tt, z) /\
    faults z = faults z0 /\
    onlyVotesDiffer (alter_wallet withoutLastBlock g r) (walletRepository z) /\
    forall ref, votesOf (walletRepository z) ref = votesOf r ref.
Proof.
  intros Hg Hwg Hdg Hn Hsafe Hff Hfr Hz0 Hvd Hoff Hst.
  set (beta := b_reward bd + b_totalFee bd) in *.
  destruct Hz0 as (Hk0 & Hl0 & Ho0).
  cbn [alter_wallet setWallets byPublicKey byLocks] in Hk0, Hl0.
  (* the wallet of the generator, credited *)
  pose proof (fmap_eq_lookup _ _ _ g Ho0) as Hog.
  rewrite lookup_alter_wallet, decide_True in Hog by done. rewrite Hwg in Hog.
  destruct (byAddress (walletRepository z0) !! g) as [wz|] eqn:Hwz; [|done].
  cbn [fmap option_fmap option_map] in Hog. apply (inj Some) in Hog.
  destruct wz as [pkz balz vtz dlz lkz], wg as [pk bal vt dl lk].
  cbn in Hdg. subst dl. destruct dg as [vbg pbg ffg frg lbg]. cbn in Hn, Hff, Hfr.
  subst pbg ffg frg.
  unfold otherAttributes, creditWallet in Hog. cbn in Hog.
  injection Hog as -> -> -> -> Hpb Hfo Hro Hlb.
  destruct dlz as [[vbz pbz ffz frz lbz]|]; [|done]. cbn in Hpb, Hfo, Hro, Hlb.
  subst pbz ffz frz lbz.
  rewrite number_add_1 in * by done.
  set (uncredited := mkWallet pk bal vt
         (Some (mkDelegate vbz (Some n) (Some ff) (Some fr) None)) lk).
  set (r1 := putWallet g uncredited (walletRepository z0)).
  assert (Hun : revertBlockFromDelegate fromPublicKey g bd z0 = (Returned true, setRepo r1 z0)).
  { erewrite revertBlockFromDelegate_run;
      [|exact Hwz|by apply isGenerator_address|reflexivity..].
    cbn. unfold number_sub. rewrite toNumber_exact by lia.
    unfold r1, uncredited. do 4 f_equal; [lia|]. do 2 f_equal; f_equal; lia. }
  assert (Hst1 : forall ref, storedVotes r1 ref = storedVotes (walletRepository z0) ref).
  { intros ref. apply votesOf_putWallet; [|by eexists].
    intros old Hold. rewrite Hwz in Hold. by injection Hold as <-. }
  assert (Hv1 : forall ref, votesOf r1 ref = votesOf (walletRepository z0) ref).
  { intros ref. by rewrite !votesOf_storedVotes, Hst1. }
  assert (Hd1 : onlyVotesDiffer
                  (alter_wallet withoutLastBlock g r) r1).
  { split; [done|]. split; [done|].
    apply map_eq. intros q. rewrite !lookup_fmap.
    unfold r1, putWallet, setWallets. cbn [byAddress].
    rewrite lookup_insert, lookup_alter_wallet.
    pose proof (fmap_eq_lookup _ _ _ q Ho0) as Hq. rewrite lookup_alter_wallet in Hq.
    destruct (decide (g = q)) as [<-|]; [|done].
    by rewrite Hwg. }
  assert (Hlook : byAddress (walletRepository (setRepo r1 z0)) !! g = Some uncredited)
    by apply lookup_putWallet_eq.
  assert (Hsw : sameVoters r r1).
  { eapply sameVoters_trans; [|apply onlyVotesDiffer_sameVoters; exact Hd1].
    split; [done|]. apply map_eq. intros q. rewrite !lookup_fmap, lookup_alter_wallet.
    destruct (decide (g = q)) as [<-|]; [|done]. by rewrite Hwg. }
  destruct vt as [pkv|].
  - (* the generator backs a delegate *)
    assert (exists v, vd = Some v /\ fst <$> walletByPublicKey r pkv = Some v) as (v & -> & Hv).
    { unfold backedDelegate in Hvd. rewrite Hwg in Hvd. cbn in Hvd.
      destruct (walletByPublicKey r pkv) as [[v wv]|]; [|done].
      injection Hvd as <-. by exists v. }
    assert (exists wv1, walletByPublicKey r1 pkv = Some (v, wv1)) as [wv1 Hv1'].
    { apply walletByPublicKey_fst.
      by rewrite (sameVoters_walletByPublicKey r r1 pkv Hsw). }
    pose proof (deref_lookup _ _ _ _ Hv1') as Hwv1.
    destruct (Hst v eq_refl) as [vb Hvb]. rewrite <- Hst1 in Hvb.
    assert (Hgv : getVoteBalance wv1 = Some vb).
    { unfold storedVotes in Hvb. by rewrite Hwv1 in Hvb. }
    eexists. split.
    { erewrite bind_returned; [|exact Hun]. cbn [when].
      by eapply updateVotedDelegate_run. }
    cbn [walletRepository setRepo faults].
    split; [done|]. split.
    { eapply onlyVotesDiffer_trans; [exact Hd1 | apply onlyVotesDiffer_withVotes]. }
    intros ref. rewrite votesOf_withVotes by (by eexists).
    assert (Hvbv : votesOf r1 v = vb).
    { rewrite votesOf_storedVotes. by rewrite Hvb. }
    destruct (decide (v = ref)) as [<-|Hne].
    + specialize (Hoff v). rewrite <- Hv1, Hvbv in Hoff. unfold voteDelta in Hoff.
      rewrite decide_True in Hoff by done. fold beta. lia.
    + rewrite Hv1, Hoff. unfold voteDelta. rewrite decide_False by congruence. lia.
  - (* the generator backs nobody *)
    exists (setRepo r1 z0). split.
    { erewrite bind_returned; [|exact Hun]. cbn [when].
      by eapply updateVotedDelegate_none. }
    split; [done|]. split; [exact Hd1|].
    intros ref. cbn [walletRepository setRepo]. rewrite Hv1, Hoff.
    unfold backedDelegate in Hvd. rewrite Hwg in Hvd. cbn in Hvd. injection Hvd as <-.
    unfold voteDelta. rewrite decide_False by done. lia.
Qed.

End RoundTrip.

Section BlockRoundTrip.
Variable fromPublicKey : string -> string.
Variable registry : TransactionData -> Outcome TransactionHandler.

Lemma Ran_sameWallets (credit : option (string * (Wallet -> Wallet))) (rv : bool)
  (w w1 : World) (ts : list Transaction) :
  Ran registry credit rv w ts w1 ->
  sameWallets (walletRepository w) (walletRepository w1).
Proof.
  induction 1 as [w|w w1 w2 t ts h a Hreg Hc Hstep _ IH]; [apply sameWallets_refl|].
  eapply sameWallets_trans; [|exact IH].
  destruct Hc as (Hh & Hkeys & Hvb & _).
  assert (Hra : sameWallets (walletRepository w) a).
  { split; [done|]. intros addr. by eapply fmap_eq_is_Some. }
  destruct (engineStep_steps registry rv t h w w1 a Hreg Hh Hra Hstep) as [Ha1 _].
  eapply sameWallets_trans; [exact Hra | by apply onlyVotesDiffer_sameWallets].
Qed.


End BlockRoundTrip.

(** ** The sample handlers keep the contract *)

Section SampleContracts.
Variable credit : option (string * (Wallet -> Wallet)).
Variable beta : Z.
Hypothesis Hcredit : creditOf beta credit.

Lemma moved_fmap {B : Type} (g : Wallet -> B) (f : string -> Z) (r a : WalletRepository) :
  (forall c wal, g (addBalance c wal) = g wal) ->
  (forall q, byAddress a !! q = addBalance (f q) <$> byAddress r !! q) ->
  g <$> byAddress a = g <$> byAddress r.
Proof.
  intros Hg Ha. apply map_eq. intros q. rewrite !lookup_fmap, Ha.
  destruct (byAddress r !! q) as [wal|]; [|done]. cbn. by rewrite Hg.
Qed.

Lemma moved_senderRef (f : string -> Z) (t : Transaction) (r a u : WalletRepository) :
  (forall q, byAddress a !! q = addBalance (f q) <$> byAddress r !! q) ->
  byPublicKey a = byPublicKey r ->
  onlyVotesDiffer (patch credit a) u ->
  senderRef t u = senderRef t r.
Proof.
  intros Ha Hk Hu. apply sameWallets_senderRef.
  eapply sameWallets_trans; [|apply onlyVotesDiffer_sameWallets; exact Hu].
  eapply sameWallets_trans; [|apply (patch_sameWallets credit beta Hcredit)].
  split; [done|]. intros q. rewrite Ha. apply fmap_is_Some.
Qed.

Lemma moved_balanceOf (f : string -> Z) (r a u : WalletRepository) (s : string) :
  (forall q, byAddress a !! q = addBalance (f q) <$> byAddress r !! q) ->
  is_Some (byAddress r !! s) ->
  onlyVotesDiffer (patch credit a) u ->
  balanceOf u s = balanceOf r s + f s + creditTo beta credit s.
Proof.
  intros Ha [ws Hs] Hu. rewrite (onlyVotesDiffer_balanceOf _ _ s Hu).
  rewrite (patch_balanceOf credit beta Hcredit) by (rewrite Ha, Hs; by eexists).
  unfold balanceOf. rewrite Ha, Hs. cbn. lia.
Qed.

(** The transfer handler, applied from [r] and reverted, when the sender can
    pay and the recipient is known. *)
Lemma sampleTransfer_applied (t : Transaction) (r : WalletRepository) (s rid : string) :
  isCore Vote (tx_data t) = false ->
  senderRef t r = Some s ->
  recipientId (tx_data t) = Some rid ->
  is_Some (byAddress r !! rid) ->
  tx_amount (tx_data t) + tx_fee (tx_data t) <= balanceOf r s ->
  undoneByHandler credit sampleTransfer false t r
    (adjustBalance (tx_amount (tx_data t)) rid
       (adjustBalance (- (tx_amount (tx_data t) + tx_fee (tx_data t))) s r)).
Proof.
  intros Hk Hs Hrid [wr Hwr] Hbal.
  set (amount := tx_amount (tx_data t)) in *. set (fee := tx_fee (tx_data t)) in *.
  set (a := adjustBalance amount rid (adjustBalance (- (amount + fee)) s r)).
  set (f := fun q : string => (if decide (rid = q) then amount else 0)
                              + (if decide (s = q) then - (amount + fee) else 0)).
  assert (Ha : forall q, byAddress a !! q = addBalance (f q) <$> byAddress r !! q)
    by (intros q; apply lookup_adjustBalance_twice).
  split; [|split; [|split; [|split]]].
  - cbn [handlerStep sampleTransfer handler_apply]. unfold spend. rewrite Hs.
    fold amount fee. rewrite (proj2 (Z.ltb_ge _ _) Hbal). rewrite Hrid.
    unfold coldWallet. rewrite lookup_adjustBalance_add.
    destruct (decide (s = rid)); by rewrite Hwr.
  - done.
  - by apply (moved_fmap _ f).
  - rewrite Hk. by apply (moved_fmap _ f).
  - intros u Hu. cbn [negb handlerStep sampleTransfer handler_revert].
    exists (adjustBalance (amount + fee) s (adjustBalance (- amount) rid u)).
    split.
    { unfold refund. rewrite (moved_senderRef f t r a u Ha eq_refl Hu), Hs.
      fold amount fee. by rewrite Hrid. }
    apply (moved_back credit beta Hcredit f r a u); try done.
    intros q. rewrite lookup_adjustBalance_twice. unfold f. do 2 f_equal.
    destruct (decide (s = q)), (decide (rid = q)); lia.
Qed.

(** The transfer handler, reverted from [r] and applied again, when the
    sender can pay again and the recipient is known. *)
Lemma sampleTransfer_reverted (t : Transaction) (r : WalletRepository) (s rid : string) :
  isCore Vote (tx_data t) = false ->
  senderRef t r = Some s ->
  recipientId (tx_data t) = Some rid ->
  is_Some (byAddress r !! rid) ->
  (if decide (rid = s) then tx_amount (tx_data t) else 0)
    <= balanceOf r s + creditTo beta credit s ->
  undoneByHandler credit sampleTransfer true t r
    (adjustBalance (tx_amount (tx_data t) + tx_fee (tx_data t)) s
       (adjustBalance (- tx_amount (tx_data t)) rid r)).
Proof.
  intros Hk Hs Hrid [wr Hwr] Hbal.
  set (amount := tx_amount (tx_data t)) in *. set (fee := tx_fee (tx_data t)) in *.
  set (a := adjustBalance (amount + fee) s (adjustBalance (- amount) rid r)).
  set (f := fun q : string => (if decide (s = q) then amount + fee else 0)
                              + (if decide (rid = q) then - amount else 0)).
  assert (Ha : forall q, byAddress a !! q = addBalance (f q) <$> byAddress r !! q)
    by (intros q; apply lookup_adjustBalance_twice).
  assert (Hsr : is_Some (byAddress r !! s)).
  { unfold senderRef in Hs. destruct (senderPublicKey (tx_data t)) as [spk|]; [|done].
    destruct (walletByPublicKey r spk) as [[x ws]|] eqn:E; [|done].
    injection Hs as ->. apply deref_lookup in E. by eexists. }
  split; [|split; [|split; [|split]]].
  - cbn [handlerStep sampleTransfer handler_revert]. unfold refund. rewrite Hs.
    fold amount fee. by rewrite Hrid.
  - done.
  - by apply (moved_fmap _ f).
  - rewrite Hk. by apply (moved_fmap _ f).
  - intros u Hu. cbn [negb handlerStep sampleTransfer handler_apply].
    exists (adjustBalance amount rid (adjustBalance (- (amount + fee)) s u)).
    split.
    { unfold spend. rewrite (moved_senderRef f t r a u Ha eq_refl Hu), Hs.
      fold amount fee.
      rewrite (moved_balanceOf f r a u s Ha Hsr Hu).
      assert (Hge : amount + fee <= balanceOf r s + f s + creditTo beta credit s).
      { unfold f. rewrite decide_True by done.
        destruct (decide (rid = s)); lia. }
      rewrite (proj2 (Z.ltb_ge _ _) Hge). rewrite Hrid.
      unfold coldWallet. rewrite lookup_adjustBalance_add.
      assert (is_Some (byAddress u !! rid)) as [ur Hur].
      { apply (onlyVotesDiffer_sameWallets _ _ Hu).
        apply (patch_sameWallets credit beta Hcredit). rewrite Ha, Hwr. by eexists. }
      destruct (decide (s = rid)); by rewrite Hur. }
    apply (moved_back credit beta Hcredit f r a u); try done.
    intros q. rewrite lookup_adjustBalance_twice. unfold f. do 2 f_equal.
    destruct (decide (s = q)), (decide (rid = q)); lia.
Qed.

End SampleContracts.

(** The vote handler, applied from [r] and reverted, when the sender can pay
    the fee and its vote before is the one that the revert writes. *)
Lemma sampleVote_applied (t : Transaction) (r : WalletRepository) (s vote0 : string) :
  isCore Vote (tx_data t) = true ->
  senderRef t r = Some s ->
  firstVote (tx_data t) = Some vote0 ->
  tx_fee (tx_data t) <= balanceOf r s ->
  voteOf r s = Some (if startsWithPlus vote0 then None else Some (substr_1 vote0)) ->
  undoneByHandler None sampleVote false t r
    (alter_wallet (set_vote (if startsWithPlus vote0 then Some (substr_1 vote0) else None)) s
       (adjustBalance (- tx_fee (tx_data t)) s r)).
Proof.
  intros Hk Hs Hv0 Hbal Hvote.
  set (fee := tx_fee (tx_data t)) in *.
  set (set := if startsWithPlus vote0 then Some (substr_1 vote0) else None).
  set (clear := if startsWithPlus vote0 then None else Some (substr_1 vote0)) in *.
  assert (Htarget : forall voting : bool,
    match asset (tx_data t) ≫= votes with
    | Some (v :: _) => if bool_decide (startsWithPlus v = voting) then Some (substr_1 v) else None
    | _ => None
    end = if voting then set else clear).
  { intros voting. unfold firstVote in Hv0.
    destruct (asset (tx_data t) ≫= votes) as [[|v vs]|]; try done.
    injection Hv0 as ->. unfold set, clear.
    destruct (startsWithPlus vote0), voting; done. }
  set (a := alter_wallet (set_vote set) s (adjustBalance (- fee) s r)).
  assert (Ha : forall q, byAddress a !! q =
    if decide (s = q) then set_vote set <$> (addBalance (- fee) <$> byAddress r !! q)
    else byAddress r !! q).
  { intros q. unfold a. rewrite lookup_alter_wallet, lookup_adjustBalance_add.
    by destruct (decide (s = q)). }
  split; [|split; [|split; [|split]]].
  - cbn [handlerStep sampleVote handler_apply]. unfold spend. rewrite Hs.
    fold fee. rewrite (proj2 (Z.ltb_ge _ _) Hbal). by rewrite (Htarget true).
  - done.
  - apply map_eq. intros q. rewrite !lookup_fmap, Ha.
    destruct (decide (s = q)); [|done]. by destruct (byAddress r !! q).
  - rewrite Hk. intros s' vote1 Hs' Hv1. rewrite Hs in Hs'. injection Hs' as <-.
    split; [|done]. unfold balanceOf. rewrite Ha, decide_True by done.
    unfold voteOf in Hvote. destruct (byAddress r !! s) as [ws|]; [|done]. cbn. fold fee. lia.
  - intros u Hu. cbn [negb handlerStep sampleVote handler_revert patch] in *.
    exists (adjustBalance fee s (alter_wallet (set_vote clear) s u)).
    assert (Hau : sameWallets r u).
    { eapply sameWallets_trans; [|apply onlyVotesDiffer_sameWallets; exact Hu].
      split; [done|]. intros q. rewrite Ha.
      destruct (decide (s = q)); [|done]. by rewrite !fmap_is_Some. }
    split.
    { unfold refund. rewrite (sameWallets_senderRef r u t Hau), Hs.
      fold fee. by rewrite (Htarget false). }
    assert (Hx : forall q, byAddress (adjustBalance fee s (alter_wallet (set_vote clear) s u)) !! q
      = if decide (s = q) then addBalance fee <$> (set_vote clear <$> byAddress u !! q)
        else byAddress u !! q).
    { intros q. rewrite lookup_adjustBalance_add, lookup_alter_wallet.
      by destruct (decide (s = q)). }
    destruct Hu as (Hu1 & Hu2 & Hu3).
    split; [split; [done|split; [done|]]|].
    + apply map_eq. intros q. rewrite !lookup_fmap, Hx.
      pose proof (fmap_eq_lookup _ _ _ q Hu3) as Hq. rewrite Ha in Hq.
      destruct (decide (s = q)) as [<-|]; [|done].
      unfold voteOf in Hvote.
      destruct (byAddress u !! s) as [us|], (byAddress r !! s) as [rs|];
        cbn [fmap option_fmap option_map] in Hq, Hvote |- *; try done.
      f_equal. apply (inj Some) in Hq, Hvote.
      destruct us, rs. unfold otherAttributes, addBalance, set_vote, set_balance in *.
      cbn in *. injection Hq as -> -> _ -> -> -> -> ->. subst. do 4 f_equal. lia.
    + apply map_eq. intros q. rewrite !lookup_fmap, Hx.
      destruct (decide (s = q)); [|done]. by destruct (byAddress u !! q) as [[]|].
Qed.

(** ** Whole blocks on the sample ledger *)






